(** * Advisory assistant: query pipeline, shallow embedding

    A shallow embedding of the query-processing core of the advisory
    assistant (role-based access, intent detection, hybrid retrieval with
    reciprocal rank fusion, semantic chunking, response parsing), together with
    the properties stated for it.

    Conventions of the embedding.
    - A Python [str] is a Rocq [string]; every character stands for one code
      point below 256 (Latin-1).  Whitespace, word characters and case
      folding are the Python ones restricted to that range.
    - A Python [float] that only carries weights, scores and confidences is
      an exact rational ([Q]), compared up to [Qeq]; the classifier's parsed
      confidence, which may be any float, is a [pyfloat].
    - Code that can raise returns a [result]; [try]/[except] is [try_except].
    - Collaborators outside the repository (the embedding provider, the
      vector database client, the BM25 scorer, the JSON parser, the schema
      validator, the language model) are function arguments. *)

From Stdlib Require Import Bool Arith Lia List String Ascii ZArith QArith.
From Stdlib Require Import Qminmax Permutation Sorted.
From Stdlib Require Import DecimalString.
Import ListNotations.

Local Close Scope Q_scope.
Local Open Scope string_scope.
Local Open Scope list_scope.
Local Open Scope nat_scope.

(** ** Exceptions *)

Inductive exn : Type :=
| ValueError
| IndexError
| ZeroDivisionError
| JSONDecodeError (msg : string)
| ValidationError (msg : string)
| VectorStoreError (msg : string)
| RuntimeError (msg : string)
| RecursionError (msg : string).

Inductive result (A : Type) : Type :=
| Ok (a : A)
| Raise (e : exn).

Arguments Ok {A} a.
Arguments Raise {A} e.

Definition bind {A B : Type} (m : result A) (f : A -> result B) : result B :=
  match m with
  | Ok a => f a
  | Raise e => Raise e
  end.

(** [try: m  except <handled> : h e]; an exception that [handles] rejects
    propagates. *)
Definition try_except {A : Type} (m : result A) (handles : exn -> bool)
    (h : exn -> result A) : result A :=
  match m with
  | Ok a => Ok a
  | Raise e => if handles e then h e else Raise e
  end.

(** [try: m  except <first>: h1 e  except <second>: h2 e]; what a handler
    raises is not handled by the other one. *)
Definition try_except2 {A : Type} (m : result A)
    (first : exn -> bool) (h1 : exn -> result A)
    (second : exn -> bool) (h2 : exn -> result A) : result A :=
  match m with
  | Ok a => Ok a
  | Raise e =>
      if first e then h1 e else if second e then h2 e else Raise e
  end.

Definition is_ValueError (e : exn) : bool :=
  match e with ValueError => true | _ => false end.

Definition is_JSONDecodeError (e : exn) : bool :=
  match e with JSONDecodeError _ => true | _ => false end.

Definition is_ValidationError (e : exn) : bool :=
  match e with ValidationError _ => true | _ => false end.

(** [except Exception] *)
Definition any_Exception (e : exn) : bool := true.

Declare Scope result_scope.
Delimit Scope result_scope with result.
Notation "x <- m ;; k" := (bind m (fun x => k))
  (at level 61, m at next level, right associativity) : result_scope.

(** ** Python strings *)

Module PyStr.

Definition code (c : ascii) : nat := nat_of_ascii c.

Definition between (lo hi n : nat) : bool := (lo <=? n) && (n <=? hi).

(** [str.isspace] on one character, also the class [\s] of [re]. *)
Definition is_space (c : ascii) : bool :=
  let n := code c in
  between 9 13 n || between 28 32 n || (n =? 133) || (n =? 160).

(** [str.isalnum() or '_'], the class [\w] of [re]. *)
Definition is_word (c : ascii) : bool :=
  let n := code c in
  between 48 57 n || between 65 90 n || between 97 122 n || (n =? 95)
  || (n =? 170) || (n =? 178) || (n =? 179) || (n =? 181) || (n =? 185)
  || (n =? 186) || between 188 190 n || between 192 214 n
  || between 216 246 n || between 248 255 n.

Definition lower_char (c : ascii) : ascii :=
  let n := code c in
  if between 65 90 n || between 192 214 n || between 216 222 n
  then ascii_of_nat (n + 32) else c.

(** [str.lower] *)
Fixpoint lower (s : string) : string :=
  match s with
  | EmptyString => EmptyString
  | String c s' => String (lower_char c) (lower s')
  end.

(** [s.lstrip()], [s.rstrip()], [s.strip()] *)
Fixpoint lstrip (s : string) : string :=
  match s with
  | EmptyString => EmptyString
  | String c s' => if is_space c then lstrip s' else s
  end.

Fixpoint rstrip (s : string) : string :=
  match s with
  | EmptyString => EmptyString
  | String c s' =>
      match rstrip s' with
      | EmptyString => if is_space c then EmptyString else String c EmptyString
      | r => String c r
      end
  end.

Definition strip (s : string) : string := rstrip (lstrip s).

(** [s[:n]] and [s[n:]] for [0 <= n] *)
Fixpoint take (n : nat) (s : string) : string :=
  match n, s with
  | O, _ => EmptyString
  | _, EmptyString => EmptyString
  | S n', String c s' => String c (take n' s')
  end.

Fixpoint drop (n : nat) (s : string) : string :=
  match n, s with
  | O, _ => s
  | _, EmptyString => EmptyString
  | S n', String _ s' => drop n' s'
  end.

(** [s[-n:]] for [0 < n] *)
Definition last_chars (n : nat) (s : string) : string :=
  drop (String.length s - n) s.

(** [s.startswith(p)] *)
Definition startswith (p s : string) : bool := String.prefix p s.

(** [s1] is a suffix of [s2]: the part of [s2] before it exists. *)
Definition is_suffix (s1 s2 : string) : Prop := exists p, s2 = (p ++ s1)%string.

Definition is_prefix (s1 s2 : string) : Prop := exists q, s2 = (s1 ++ q)%string.

Fixpoint repeat_str (s : string) (n : nat) : string :=
  match n with
  | O => EmptyString
  | S n' => (s ++ repeat_str s n')%string
  end.

End PyStr.

(** ** Insertion-ordered dicts with string keys *)

Module Dict.

Definition t (V : Type) : Type := list (string * V).

Definition keys {V : Type} (d : t V) : list string := map fst d.

(** [d.get(k)] *)
Fixpoint get {V : Type} (d : t V) (k : string) : option V :=
  match d with
  | [] => None
  | (k', v) :: d' => if String.eqb k' k then Some v else get d' k
  end.

(** [k in d] *)
Definition mem {V : Type} (d : t V) (k : string) : bool :=
  match get d k with
  | Some _ => true
  | None => false
  end.

(** [d[k] = v]: a known key keeps its place, a new one goes last. *)
Fixpoint set {V : Type} (d : t V) (k : string) (v : V) : t V :=
  match d with
  | [] => [(k, v)]
  | (k', v') :: d' =>
      if String.eqb k' k then (k, v) :: d' else (k', v') :: set d' k v
  end.

End Dict.

(** [x in l] for a list of strings *)
Definition str_in (x : string) (l : list string) : bool :=
  existsb (String.eqb x) l.

(** ** Role-based access: [app/core/security.py] *)

Module Security.

Inductive UserRole : Type := ANALYST | CONSULTANT | PARTNER.

Definition UserRole_eqb (a b : UserRole) : bool :=
  match a, b with
  | ANALYST, ANALYST | CONSULTANT, CONSULTANT | PARTNER, PARTNER => true
  | _, _ => false
  end.

Definition value (r : UserRole) : string :=
  match r with
  | ANALYST => "analyst"
  | CONSULTANT => "consultant"
  | PARTNER => "partner"
  end.

(** The enum lookup [UserRole(v)]: by value, [ValueError] otherwise. *)
Definition UserRole_of_value (v : string) : result UserRole :=
  if String.eqb v "analyst" then Ok ANALYST
  else if String.eqb v "consultant" then Ok CONSULTANT
  else if String.eqb v "partner" then Ok PARTNER
  else Raise ValueError.

Definition access_level (r : UserRole) : nat :=
  match r with
  | ANALYST => 1
  | CONSULTANT => 2
  | PARTNER => 3
  end.

Definition can_access (self required_role : UserRole) : bool :=
  access_level required_role <=? access_level self.

Definition from_string (role_str : string) : result UserRole :=
  try_except (UserRole_of_value (PyStr.lower role_str)) is_ValueError
    (fun _ => Ok ANALYST).

Record User : Type := mkUser {
  user_id : string;
  role : UserRole;
  email : option string;
  name : option string
}.

(** The dict keeps insertion order, which the comprehension in
    [get_accessible_document_types] follows. *)
Definition DOCUMENT_ACCESS_LEVELS : list (string * UserRole) :=
  [ ("playbook", ANALYST); ("guideline", ANALYST); ("template", ANALYST);
    ("training", ANALYST);
    ("client_summary", CONSULTANT); ("engagement", CONSULTANT);
    ("proposal", CONSULTANT);
    ("partner_memo", PARTNER); ("fee_structure", PARTNER);
    ("strategic_plan", PARTNER); ("confidential", PARTNER) ].

Definition get_document_access_level (document_type : string) : UserRole :=
  match Dict.get DOCUMENT_ACCESS_LEVELS (PyStr.lower document_type) with
  | Some r => r
  | None => ANALYST
  end.

Definition get_accessible_document_types (user_role : UserRole) : list string :=
  map fst
    (filter (fun kv => can_access user_role (snd kv)) DOCUMENT_ACCESS_LEVELS).

Definition get_role_filter (user_role : UserRole) : list string :=
  get_accessible_document_types user_role.

(** [get_current_user], after the API key dependency has been resolved. *)
Definition get_current_user (x_user_id x_user_role : string)
    (x_user_email : option string) : result User :=
  (role <- from_string x_user_role ;;
   Ok (mkUser x_user_id role x_user_email None))%result.

End Security.

(** ** Regular expressions: the fragment of Python's [re] the code uses *)

Module Regex.

Import PyStr.

Inductive cset_item : Type :=
| CChar (c : ascii)
| CRange (lo hi : ascii)
| CSpace      (* \s *)
| CNotSpace   (* \S *)
| CDigit      (* \d *)
| CWord.      (* \w *)

Inductive regex : Type :=
| REmpty
| RChar (c : ascii)
| RAny                                   (* .  : anything but a newline *)
| RSet (neg : bool) (items : list cset_item)
| RSeq (r1 r2 : regex)
| RAlt (r1 r2 : regex)
| RStar (r : regex)
| RPlus (r : regex)
| ROpt (r : regex)
| RWordB                                 (* \b *)
| RBol                                   (* ^  *)
| REol.                                  (* $  *)

(** *** Parsing a pattern *)

Definition is_meta (c : ascii) : bool :=
  existsb (Ascii.eqb c) ["|"; ")"; "("; "["; "*"; "+"; "?"; "{"]%char.

(** The escape [\c] outside a character class. *)
Definition escape_atom (c : ascii) : option regex :=
  if Ascii.eqb c "b" then Some RWordB
  else if Ascii.eqb c "s" then Some (RSet false [CSpace])
  else if Ascii.eqb c "S" then Some (RSet false [CNotSpace])
  else if Ascii.eqb c "d" then Some (RSet false [CDigit])
  else if Ascii.eqb c "w" then Some (RSet false [CWord])
  else if Ascii.eqb c "n" then Some (RChar (ascii_of_nat 10))
  else if is_word c then None
  else Some (RChar c).

Definition escape_item (c : ascii) : option cset_item :=
  if Ascii.eqb c "s" then Some CSpace
  else if Ascii.eqb c "S" then Some CNotSpace
  else if Ascii.eqb c "d" then Some CDigit
  else if Ascii.eqb c "w" then Some CWord
  else if Ascii.eqb c "n" then Some (CChar (ascii_of_nat 10))
  else if is_word c then None
  else Some (CChar c).

(** The items of a class up to the closing bracket. *)
Fixpoint parse_items (s : string) : option (list cset_item * string) :=
  match s with
  | EmptyString => None
  | String "]" rest => Some ([], rest)
  | String "\" (String c rest) =>
      match escape_item c, parse_items rest with
      | Some it, Some (its, rest') => Some (it :: its, rest')
      | _, _ => None
      end
  | String lo (String "-" (String hi rest)) =>
      if Ascii.eqb hi "]" then
        Some ([CChar lo; CChar "-"], rest)
      else
        match parse_items rest with
        | Some (its, rest') => Some (CRange lo hi :: its, rest')
        | None => None
        end
  | String c rest =>
      match parse_items rest with
      | Some (its, rest') => Some (CChar c :: its, rest')
      | None => None
      end
  end.

Definition parse_class (s : string) : option (regex * string) :=
  match s with
  | String "^" rest =>
      match parse_items rest with
      | Some (its, rest') => Some (RSet true its, rest')
      | None => None
      end
  | _ =>
      match parse_items s with
      | Some (its, rest') => Some (RSet false its, rest')
      | None => None
      end
  end.

Definition parse_quant (a : regex) (s : string) : regex * string :=
  match s with
  | String "*" rest => (RStar a, rest)
  | String "+" rest => (RPlus a, rest)
  | String "?" rest => (ROpt a, rest)
  | _ => (a, s)
  end.

Fixpoint parse_alt (fuel : nat) (s : string) {struct fuel}
    : option (regex * string) :=
  match fuel with
  | O => None
  | S fuel' =>
      match parse_seq fuel' s with
      | Some (r1, String "|" rest) =>
          match parse_alt fuel' rest with
          | Some (r2, rest') => Some (RAlt r1 r2, rest')
          | None => None
          end
      | other => other
      end
  end
with parse_seq (fuel : nat) (s : string) {struct fuel}
    : option (regex * string) :=
  match fuel with
  | O => None
  | S fuel' =>
      match s with
      | EmptyString => Some (REmpty, s)
      | String "|" _ => Some (REmpty, s)
      | String ")" _ => Some (REmpty, s)
      | _ =>
          match parse_atom fuel' s with
          | Some (a, rest) =>
              let (a', rest') := parse_quant a rest in
              match parse_seq fuel' rest' with
              | Some (REmpty, rest'') => Some (a', rest'')
              | Some (r, rest'') => Some (RSeq a' r, rest'')
              | None => None
              end
          | None => None
          end
      end
  end
with parse_atom (fuel : nat) (s : string) {struct fuel}
    : option (regex * string) :=
  match fuel with
  | O => None
  | S fuel' =>
      match s with
      | EmptyString => None
      | String "(" rest =>
          match parse_alt fuel' rest with
          | Some (r, String ")" rest') => Some (r, rest')
          | _ => None
          end
      | String "[" rest => parse_class rest
      | String "\" (String c rest) =>
          match escape_atom c with
          | Some r => Some (r, rest)
          | None => None
          end
      | String "." rest => Some (RAny, rest)
      | String "^" rest => Some (RBol, rest)
      | String "$" rest => Some (REol, rest)
      | String c rest => if is_meta c then None else Some (RChar c, rest)
      end
  end.

(** [re.compile(pattern)] for the fragment: [None] outside of it. *)
Definition compile (pattern : string) : option regex :=
  match parse_alt (3 * String.length pattern + 3) pattern with
  | Some (r, EmptyString) => Some r
  | _ => None
  end.

(** *** Matching *)

Definition upper_char (c : ascii) : ascii :=
  let n := code c in
  if between 97 122 n || between 224 246 n || between 248 254 n
  then ascii_of_nat (n - 32) else c.

Definition item_matches (it : cset_item) (x : ascii) : bool :=
  match it with
  | CChar c => Ascii.eqb c x
  | CRange lo hi => between (code lo) (code hi) (code x)
  | CSpace => is_space x
  | CNotSpace => negb (is_space x)
  | CDigit => between 48 57 (code x)
  | CWord => is_word x
  end.

Definition opt_is_word (c : option ascii) : bool :=
  match c with
  | Some x => is_word x
  | None => false
  end.

Definition next_char (s : string) : option ascii :=
  match s with
  | EmptyString => None
  | String x _ => Some x
  end.

Section Matcher.

(** The flag [re.I]. *)
Variable ignorecase : bool.

Definition char_matches (c x : ascii) : bool :=
  Ascii.eqb c x || (ignorecase && Ascii.eqb (lower_char c) (lower_char x)).

Definition set_matches (items : list cset_item) (x : ascii) : bool :=
  existsb (fun it => item_matches it x) items
  || (ignorecase &&
      (existsb (fun it => item_matches it (lower_char x)) items
       || existsb (fun it => item_matches it (upper_char x)) items)).

(** A matcher reads the character before the current position ([None] at
    the start of the text) and the rest of the text, and passes both on. *)
Definition matcher : Type :=
  option ascii -> string -> (option ascii -> string -> bool) -> bool.

(** Zero or more rounds of [ma], each consuming at least one character;
    [fuel] bounds the rounds by the length of the text. *)
Definition star_loop (ma : matcher) (k : option ascii -> string -> bool)
    : nat -> option ascii -> string -> bool :=
  fix loop (fuel : nat) (prev : option ascii) (s : string) : bool :=
    if k prev s then true
    else
      match fuel with
      | O => false
      | S fuel' =>
          ma prev s (fun prev' s' =>
            if String.length s' <? String.length s
            then loop fuel' prev' s' else false)
      end.

Fixpoint run (r : regex) : matcher :=
  fun prev s k =>
  match r with
  | REmpty => k prev s
  | RChar c =>
      match s with
      | String x s' => if char_matches c x then k (Some x) s' else false
      | EmptyString => false
      end
  | RAny =>
      match s with
      | String x s' => if code x =? 10 then false else k (Some x) s'
      | EmptyString => false
      end
  | RSet neg items =>
      match s with
      | String x s' =>
          if xorb neg (set_matches items x) then k (Some x) s' else false
      | EmptyString => false
      end
  | RSeq r1 r2 => run r1 prev s (fun prev' s' => run r2 prev' s' k)
  | RAlt r1 r2 => if run r1 prev s k then true else run r2 prev s k
  | RStar r1 => star_loop (run r1) k (String.length s) prev s
  | RPlus r1 =>
      run r1 prev s (fun prev' s' =>
        star_loop (run r1) k (String.length s') prev' s')
  | ROpt r1 => if run r1 prev s k then true else k prev s
  | RWordB =>
      if xorb (opt_is_word prev) (opt_is_word (next_char s))
      then k prev s else false
  | RBol => match prev with None => k prev s | Some _ => false end
  | REol =>
      match s with
      | EmptyString => k prev s
      | String x EmptyString => if code x =? 10 then k prev s else false
      | _ => false
      end
  end.

(** Is there a match starting at this position or a later one? *)
Fixpoint search_from (r : regex) (prev : option ascii) (s : string) : bool :=
  if run r prev s (fun _ _ => true) then true
  else
    match s with
    | EmptyString => false
    | String x s' => search_from r (Some x) s'
    end.

End Matcher.

(** *** What a match is

    [matches ic r prev s prev' s']: read from a position with [prev]
    before it and [s] after it, the expression [r] can match up to the
    position with [prev'] before it and [s'] after it. *)

Inductive matches (ic : bool)
    : regex -> option ascii -> string -> option ascii -> string -> Prop :=
| M_empty prev s : matches ic REmpty prev s prev s
| M_char c x prev s :
    char_matches ic c x = true ->
    matches ic (RChar c) prev (String x s) (Some x) s
| M_any x prev s :
    (code x =? 10) = false ->
    matches ic RAny prev (String x s) (Some x) s
| M_set neg items x prev s :
    xorb neg (set_matches ic items x) = true ->
    matches ic (RSet neg items) prev (String x s) (Some x) s
| M_seq r1 r2 prev s prev1 s1 prev2 s2 :
    matches ic r1 prev s prev1 s1 ->
    matches ic r2 prev1 s1 prev2 s2 ->
    matches ic (RSeq r1 r2) prev s prev2 s2
| M_alt_l r1 r2 prev s prev' s' :
    matches ic r1 prev s prev' s' ->
    matches ic (RAlt r1 r2) prev s prev' s'
| M_alt_r r1 r2 prev s prev' s' :
    matches ic r2 prev s prev' s' ->
    matches ic (RAlt r1 r2) prev s prev' s'
| M_star_stop r prev s : matches ic (RStar r) prev s prev s
| M_star_more r prev s prev1 s1 prev2 s2 :
    matches ic r prev s prev1 s1 ->
    matches ic (RStar r) prev1 s1 prev2 s2 ->
    matches ic (RStar r) prev s prev2 s2
| M_plus r prev s prev1 s1 prev2 s2 :
    matches ic r prev s prev1 s1 ->
    matches ic (RStar r) prev1 s1 prev2 s2 ->
    matches ic (RPlus r) prev s prev2 s2
| M_opt_some r prev s prev' s' :
    matches ic r prev s prev' s' ->
    matches ic (ROpt r) prev s prev' s'
| M_opt_none r prev s : matches ic (ROpt r) prev s prev s
| M_wordb prev s :
    xorb (opt_is_word prev) (opt_is_word (next_char s)) = true ->
    matches ic RWordB prev s prev s
| M_bol s : matches ic RBol None s None s
| M_eol_end prev : matches ic REol prev EmptyString prev EmptyString
| M_eol_newline prev x :
    (code x =? 10) = true ->
    matches ic REol prev (String x EmptyString) prev (String x EmptyString).

(** The character before the position reached after reading [before]
    from a position that had [prev] before it. *)
Fixpoint prev_at (prev : option ascii) (before : string) : option ascii :=
  match before with
  | EmptyString => prev
  | String x rest => prev_at (Some x) rest
  end.

(** The truth value of [re.compile(pattern, flags).search(text)]. *)
Definition re_search (pattern : string) (ignorecase : bool) (text : string)
    : bool :=
  match compile pattern with
  | Some r => search_from ignorecase r None text
  | None => false
  end.

End Regex.

(** ** Python floats that may be infinite or NaN *)

Inductive pyfloat : Type :=
| Fin (q : Q)
| PosInf
| NegInf
| NaN.

Definition Qlt_bool (a b : Q) : bool := negb (Qle_bool b a).

Definition float_lt (a b : pyfloat) : bool :=
  match a, b with
  | NaN, _ | _, NaN => false
  | Fin x, Fin y => Qlt_bool x y
  | NegInf, NegInf => false
  | NegInf, _ => true
  | _, NegInf => false
  | PosInf, _ => false
  | Fin _, PosInf => true
  end.

Definition float_le (a b : pyfloat) : bool :=
  match a, b with
  | NaN, _ | _, NaN => false
  | Fin x, Fin y => Qle_bool x y
  | NegInf, _ => true
  | _, NegInf => false
  | _, PosInf => true
  | PosInf, Fin _ => false
  end.

Definition float_gt (a b : pyfloat) : bool := float_lt b a.
Definition float_ge (a b : pyfloat) : bool := float_le b a.

(** The builtin [max(a, b)] on two numbers: the first unless the second is
    greater. *)
Definition py_max2 (a b : Q) : Q := if Qlt_bool a b then b else a.

(** ** Intent detection: [app/workflows/intent.py] *)

Module Intent.

Inductive TaskType : Type :=
| QUESTION_ANSWER
| SUMMARIZE_CLIENT
| CLIENT_BACKGROUND
| RISK_ANALYSIS
| OPPORTUNITY_ANALYSIS
| DRAFT_RECOMMENDATIONS
| ACTION_ITEMS
| EXECUTIVE_SUMMARY
| TALKING_POINTS
| COMPARE_APPROACHES
| RESEARCH_TOPIC.

Definition value (t : TaskType) : string :=
  match t with
  | QUESTION_ANSWER => "question_answer"
  | SUMMARIZE_CLIENT => "summarize_client"
  | CLIENT_BACKGROUND => "client_background"
  | RISK_ANALYSIS => "risk_analysis"
  | OPPORTUNITY_ANALYSIS => "opportunity_analysis"
  | DRAFT_RECOMMENDATIONS => "draft_recommendations"
  | ACTION_ITEMS => "action_items"
  | EXECUTIVE_SUMMARY => "executive_summary"
  | TALKING_POINTS => "talking_points"
  | COMPARE_APPROACHES => "compare_approaches"
  | RESEARCH_TOPIC => "research_topic"
  end.

Definition all_task_types : list TaskType :=
  [ QUESTION_ANSWER; SUMMARIZE_CLIENT; CLIENT_BACKGROUND; RISK_ANALYSIS;
    OPPORTUNITY_ANALYSIS; DRAFT_RECOMMENDATIONS; ACTION_ITEMS;
    EXECUTIVE_SUMMARY; TALKING_POINTS; COMPARE_APPROACHES; RESEARCH_TOPIC ].

Definition TaskType_eqb (a b : TaskType) : bool :=
  String.eqb (value a) (value b).

(** The enum lookup [TaskType(v)]. *)
Definition TaskType_of_value (v : string) : result TaskType :=
  match find (fun t => String.eqb (value t) v) all_task_types with
  | Some t => Ok t
  | None => Raise ValueError
  end.

Record IntentMatch : Type := mkIntentMatch {
  task_type : TaskType;
  confidence : pyfloat;
  matched_patterns : list string;
  method : string
}.

(** A pattern of the table: its source, whether it was compiled with
    [re.I], and its weight. *)
Record pattern : Type := mkPattern {
  source : string;
  ignorecase : bool;
  weight : Q
}.

Definition pat (src : string) (w : Q) : pattern := mkPattern src true w.

Definition pattern_table : Type := list (TaskType * list pattern).

Definition INTENT_PATTERNS : pattern_table :=
  [ (SUMMARIZE_CLIENT,
      [ pat "\bsummar(y|ize|ise)\b.*\bclient\b" 1%Q;
        pat "\bclient\b.*\bsummar(y|ize|ise)\b" 1%Q;
        pat "\bclient\s+(background|overview|profile)\b" (9#10)%Q;
        pat "\btell\s+me\s+about\b.*\bclient\b" (8#10)%Q;
        pat "\bwho\s+is\b.*\bclient\b" (7#10)%Q ]);
    (CLIENT_BACKGROUND,
      [ pat "\bbackground\b.*\bclient\b" 1%Q;
        pat "\bclient\b.*\bhistory\b" (9#10)%Q;
        pat "\bprevious\s+engagements?\b" (8#10)%Q ]);
    (RISK_ANALYSIS,
      [ pat "\brisk\s+(analysis|assessment|evaluation)\b" 1%Q;
        pat "\bidentify\b.*\brisks?\b" 1%Q;
        pat "\bwhat\s+are\s+the\s+risks?\b" (9#10)%Q;
        pat "\brisk\s+factors?\b" (8#10)%Q;
        pat "\bpotential\s+(issues?|problems?|risks?)\b" (7#10)%Q ]);
    (OPPORTUNITY_ANALYSIS,
      [ pat "\bopportunit(y|ies)\s+analysis\b" 1%Q;
        pat "\bidentify\b.*\bopportunit(y|ies)\b" 1%Q;
        pat "\bgrowth\s+opportunit(y|ies)\b" (9#10)%Q;
        pat "\bpotential\s+opportunit(y|ies)\b" (8#10)%Q ]);
    (DRAFT_RECOMMENDATIONS,
      [ pat "\b(draft|write|create)\b.*\brecommendations?\b" 1%Q;
        pat "\brecommend(ation)?s?\b.*\b(for|to)\b" (9#10)%Q;
        pat "\bwhat\s+(do\s+you|should\s+(we|I))\s+recommend\b" (9#10)%Q;
        pat "\bsuggestions?\b.*\bfor\b" (7#10)%Q;
        pat "\bwhat\s+should\s+(we|they|I)\s+do\b" (7#10)%Q ]);
    (ACTION_ITEMS,
      [ pat "\baction\s+items?\b" 1%Q;
        pat "\bnext\s+steps?\b" (9#10)%Q;
        pat "\bto-?do\s+(list|items?)\b" (9#10)%Q;
        pat "\btasks?\s+to\s+(complete|do)\b" (8#10)%Q;
        pat "\bwhat\s+(needs|has)\s+to\s+be\s+done\b" (7#10)%Q ]);
    (EXECUTIVE_SUMMARY,
      [ pat "\bexecutive\s+summar(y|ize|ise)\b" 1%Q;
        pat "\bbriefing\b" (8#10)%Q;
        pat "\bhigh[- ]?level\s+(overview|summary)\b" (8#10)%Q;
        pat "\bboard\s+(summary|briefing)\b" (9#10)%Q ]);
    (TALKING_POINTS,
      [ pat "\btalking\s+points?\b" 1%Q;
        pat "\bkey\s+(messages?|points?)\b" (8#10)%Q;
        pat "\bprepare\s+(me\s+)?for\s+(a\s+)?(meeting|call|presentation)\b"
            (8#10)%Q;
        pat "\bwhat\s+should\s+I\s+say\b" (7#10)%Q ]);
    (COMPARE_APPROACHES,
      [ pat "\bcompare\b.*\b(approaches?|options?|alternatives?)\b" 1%Q;
        pat "\b(pros?\s+and\s+cons?|advantages?\s+and\s+disadvantages?)\b"
            (9#10)%Q;
        pat "\bwhich\s+(is|option|approach)\s+(better|best)\b" (8#10)%Q;
        pat "\bdifference\s+between\b" (7#10)%Q ]);
    (RESEARCH_TOPIC,
      [ pat "\bresearch\b.*\btopic\b" 1%Q;
        pat "\bwhat\s+(do\s+we|does\s+the)\s+know\s+about\b" (8#10)%Q;
        pat "\bfind\s+(information|details?)\s+(on|about)\b" (8#10)%Q;
        pat "\blook\s+up\b" (6#10)%Q ]);
    (QUESTION_ANSWER,
      [ pat "^\s*(what|who|when|where|why|how)\b" (3#10)%Q;
        mkPattern "\?$" false (2#10)%Q ]) ].

Definition RULE_CONFIDENCE_THRESHOLD : pyfloat := Fin (6#10).
Definition LLM_FALLBACK_THRESHOLD : pyfloat := Fin (4#10).

Definition pattern_search (p : pattern) (query : string) : bool :=
  Regex.re_search (source p) (ignorecase p) query.

(** The inner loop over one category's patterns: the sources matched so
    far and the running maximum of their weights. *)
Definition scan_patterns (patterns : list pattern) (query : string)
    : list string * Q :=
  fold_left
    (fun (acc : list string * Q) (p : pattern) =>
       let (matched, max_weight) := acc in
       if pattern_search p query
       then (matched ++ [source p], py_max2 max_weight (weight p))
       else acc)
    patterns ([], 0%Q).

(** [scores[task_type] = v] on an insertion-ordered dict. *)
Fixpoint scores_set {V : Type} (d : list (TaskType * V)) (k : TaskType) (v : V)
    : list (TaskType * V) :=
  match d with
  | [] => [(k, v)]
  | (k', v') :: d' =>
      if TaskType_eqb k' k then (k, v) :: d' else (k', v') :: scores_set d' k v
  end.

Definition build_scores (table : pattern_table) (query : string)
    : list (TaskType * (Q * list string)) :=
  fold_left
    (fun scores (entry : TaskType * list pattern) =>
       let (task_type, patterns) := entry in
       let (matched, max_weight) := scan_patterns patterns query in
       match matched with
       | [] => scores
       | _ :: _ => scores_set scores task_type (max_weight, matched)
       end)
    table [].

(** The builtin [max(items, key=...)] on a non-empty sequence: the first
    item whose key no later item exceeds. *)
Definition py_max_by {A : Type} (key : A -> Q) (first : A) (rest : list A) : A :=
  fold_left
    (fun best item => if Qlt_bool (key best) (key item) then item else best)
    rest first.

Definition _detect_with_rules_on (table : pattern_table) (query : string)
    : IntentMatch :=
  match build_scores table query with
  | [] => mkIntentMatch QUESTION_ANSWER (Fin (3#10)) [] "rule"
  | first :: rest =>
      let '(best_task, (best_score, matched)) :=
        py_max_by (fun e => fst (snd e)) first rest in
      mkIntentMatch best_task (Fin best_score) matched "rule"
  end.

Definition _detect_with_rules (query : string) : IntentMatch :=
  _detect_with_rules_on INTENT_PATTERNS query.

Definition detect_intent_sync (query : string) : IntentMatch :=
  _detect_with_rules query.

(** *** The model-based classifier *)

Definition nl : string := String (ascii_of_nat 10) EmptyString.
Definition dquote : string := String (ascii_of_nat 34) EmptyString.

Definition task_descriptions : list (TaskType * string) :=
  [ (SUMMARIZE_CLIENT, "Summarize client background or profile");
    (RISK_ANALYSIS, "Identify and analyze risks");
    (OPPORTUNITY_ANALYSIS, "Identify opportunities or growth areas");
    (DRAFT_RECOMMENDATIONS, "Create recommendations or suggestions");
    (ACTION_ITEMS, "Extract action items or next steps");
    (EXECUTIVE_SUMMARY, "Create high-level executive briefing");
    (TALKING_POINTS, "Prepare talking points for meetings");
    (COMPARE_APPROACHES, "Compare different options or approaches");
    (RESEARCH_TOPIC, "Research a specific topic");
    (QUESTION_ANSWER, "Answer a general question") ].

Definition classification_prompt (query : string) : string :=
  let task_list :=
    String.concat nl
      (map (fun td => "- " ++ value (fst td) ++ ": " ++ snd td)%string
           task_descriptions) in
  ("Classify the following query into one of these task types:" ++ nl ++ nl
   ++ task_list ++ nl ++ nl
   ++ "Query: " ++ query ++ nl ++ nl
   ++ "Respond with just the task type value (e.g., " ++ dquote
   ++ "risk_analysis" ++ dquote ++ ") and a confidence score from 0 to 1."
   ++ nl
   ++ "Format: task_type|confidence" ++ nl ++ nl
   ++ "Example response: risk_analysis|0.9" ++ nl)%string.

(** [s.split(sep)] for a one-character separator. *)
Fixpoint split_on (sep : ascii) (s : string) : list string :=
  match s with
  | EmptyString => [EmptyString]
  | String c s' =>
      if Ascii.eqb c sep then EmptyString :: split_on sep s'
      else
        match split_on sep s' with
        | [] => [String c EmptyString]
        | p :: ps => String c p :: ps
        end
  end.

Section Classifier.

(** The language model's [generate(prompt, max_tokens=50, temperature=0)]
    and the builtin [float(str)]. *)
Variable generate : string -> result string.
Variable py_float : string -> result pyfloat.

(** The parsing block, lines of the [try]; both handled exception classes
    are raised again by the handler. *)
Definition parse_classification (response : string) : result IntentMatch :=
  let parts := split_on "|" (PyStr.strip response) in
  let task_value := PyStr.strip (hd EmptyString parts) in
  (confidence <-
     match parts with
     | _ :: p1 :: _ => py_float (PyStr.strip p1)
     | _ => Ok (Fin (7#10))
     end ;;
   task_type <- TaskType_of_value task_value ;;
   Ok (mkIntentMatch task_type confidence [] "llm"))%result.

Definition _detect_with_llm (query : string) : result IntentMatch :=
  (response <- generate (classification_prompt query) ;;
   parse_classification response)%result.

End Classifier.

(** The match returned when intent detection is switched off. *)
Definition disabled_match : IntentMatch :=
  mkIntentMatch QUESTION_ANSWER (Fin 1) [] "disabled".

(** [detect]: the chosen match, and the prompts sent to the classifier
    during the call, in order.  [enabled] is
    [settings.feature_intent_detection_enabled]; [llm_service] is [None]
    when no classifier is configured. *)
Definition detect_on (table : pattern_table) (enabled : bool)
    (llm_service : option (string -> result string))
    (py_float : string -> result pyfloat)
    (query : string) (use_llm_fallback : bool)
    : IntentMatch * list string :=
  if negb enabled then (disabled_match, [])
  else
    let rule_result := _detect_with_rules_on table query in
    if float_ge (confidence rule_result) RULE_CONFIDENCE_THRESHOLD then
      (rule_result, [])
    else
      match llm_service with
      | Some generate =>
          if use_llm_fallback
             && float_lt (confidence rule_result) LLM_FALLBACK_THRESHOLD
          then
            match _detect_with_llm generate py_float query with
            | Ok llm_result =>
                if float_gt (confidence llm_result) (confidence rule_result)
                then (llm_result, [classification_prompt query])
                else (rule_result, [classification_prompt query])
            | Raise _ => (rule_result, [classification_prompt query])
            end
          else (rule_result, [])
      | None => (rule_result, [])
      end.

Definition detect := detect_on INTENT_PATTERNS.

End Intent.

(** ** Retrieved documents: [app/models/documents.py] *)

Module Documents.

Record RetrievedDocument : Type := mkRetrievedDocument {
  chunk_id : string;
  document_id : string;
  content : string;
  score : Q;
  rank : nat;
  filename : string;
  document_type : string;
  title : option string;
  section_title : option string;
  chunk_index : nat;
  client_name : option string;
  practice_area : option string;
  tags : list string
}.

(** The metadata a stored chunk carries.  An optional field ([title],
    [section_title], [client_name], [practice_area]) is [None] when the key
    is absent or holds [None]; any other field is [None] when the key is
    absent. *)
Record metadata : Type := mkMetadata {
  m_filename : option string;
  m_document_type : option string;
  m_title : option string;
  m_section_title : option string;
  m_chunk_index : option nat;
  m_client_name : option string;
  m_practice_area : option string;
  m_tags : option (list string)
}.

(** [metadata.get(field)] for the string-valued fields. *)
Definition meta_get (m : metadata) (field : string) : option string :=
  if String.eqb field "filename" then m_filename m
  else if String.eqb field "document_type" then m_document_type m
  else if String.eqb field "title" then m_title m
  else if String.eqb field "section_title" then m_section_title m
  else if String.eqb field "client_name" then m_client_name m
  else if String.eqb field "practice_area" then m_practice_area m
  else None.

(** A value of the filter dict: a list of allowed values or one value. *)
Inductive filter_value : Type :=
| FList (values : list string)
| FStr (value : string).

Definition filter_dict : Type := Dict.t filter_value.

Definition or_default {A : Type} (o : option A) (d : A) : A :=
  match o with
  | Some a => a
  | None => d
  end.

(** [enumerate(l)] *)
Definition enumerate {A : Type} (l : list A) : list (nat * A) :=
  combine (seq 0 (List.length l)) l.

(** [sorted(l, key=key, reverse=True)]: descending and stable, so items
    with equal keys keep their order. *)
Fixpoint insert_desc {A : Type} (key : A -> Q) (x : A) (l : list A) : list A :=
  match l with
  | [] => [x]
  | y :: l' =>
      if Qlt_bool (key x) (key y) then y :: insert_desc key x l'
      else x :: y :: l'
  end.

Fixpoint sorted_desc {A : Type} (key : A -> Q) (l : list A) : list A :=
  match l with
  | [] => []
  | x :: l' => insert_desc key x (sorted_desc key l')
  end.

(** [a] may stand before [b] in a list sorted by descending key. *)
Definition desc {A : Type} (key : A -> Q) (a b : A) : Prop :=
  (key b <= key a)%Q.

End Documents.

(** ** The sparse index: [app/retrieval/bm25.py] *)

Module BM25.

Import Documents.

Record BM25Document : Type := mkBM25Document {
  doc_id : string;
  bm_chunk_id : string;
  bm_content : string;
  tokens : list string;
  bm_metadata : metadata
}.

(** [bm25] records whether a scorer is present; a scorer is always built
    from the current [documents] ([_rebuild_index]). *)
Record BM25Index : Type := mkBM25Index {
  documents : list BM25Document;
  bm25 : bool;
  _needs_rebuild : bool
}.

(** Maximal runs of word characters. *)
Fixpoint word_runs (s : string) (cur : string) : list string :=
  match s with
  | EmptyString =>
      match cur with EmptyString => [] | _ => [cur] end
  | String c s' =>
      if PyStr.is_word c
      then word_runs s' (cur ++ String c EmptyString)%string
      else match cur with
           | EmptyString => word_runs s' EmptyString
           | _ => cur :: word_runs s' EmptyString
           end
  end.

Definition is_lower_alnum (c : ascii) : bool :=
  let n := PyStr.code c in
  PyStr.between 97 122 n || PyStr.between 48 57 n.

Definition is_digit (c : ascii) : bool := PyStr.between 48 57 (PyStr.code c).

Definition all_chars (p : ascii -> bool) (s : string) : bool :=
  forallb p (list_ascii_of_string s).

(** [_tokenize]: a match of [\b[a-z0-9]+\b] is a whole run of word
    characters made of lower-case letters and digits only. *)
Definition _tokenize (text : string) : list string :=
  let text := PyStr.lower text in
  let found := filter (all_chars is_lower_alnum) (word_runs text EmptyString) in
  filter (fun t => (2 <? String.length t) || all_chars is_digit t) found.

Definition _rebuild_index (self : BM25Index) : BM25Index :=
  match documents self with
  | [] => mkBM25Index [] false (_needs_rebuild self)
  | _ :: _ => mkBM25Index (documents self) true false
  end.

Definition passes_filter (m : metadata) (entry : string * filter_value) : bool :=
  let (field, allowed_values) := entry in
  match allowed_values with
  | FList values =>
      match meta_get m field with
      | Some v => str_in v values
      | None => false
      end
  | FStr value =>
      match meta_get m field with
      | Some v => String.eqb v value
      | None => false
      end
  end.

Definition _apply_filters (self : BM25Index) (scores : list Q)
    (fd : filter_dict) : list Q :=
  map (fun sd : Q * BM25Document =>
         if forallb (passes_filter (bm_metadata (snd sd))) fd
         then fst sd else 0%Q)
      (combine scores (documents self)).

Definition empty_metadata : metadata :=
  mkMetadata None None None None None None None None.

Definition no_document : BM25Document :=
  mkBM25Document EmptyString EmptyString EmptyString [] empty_metadata.

Section Search.

(** [BM25Okapi(corpus).get_scores(query_tokens)]: an exception, or the
    array that holds at [i] the score of the [i]-th document of the
    corpus. *)
Variable okapi_scores : list (list string) -> list string -> result (nat -> Q).

Definition get_scores (self : BM25Index) (query_tokens : list string)
    : result (list Q) :=
  let corpus := map tokens (documents self) in
  (score_at <- okapi_scores corpus query_tokens ;;
   Ok (map score_at (seq 0 (List.length corpus))))%result.

Definition build_result (self : BM25Index) (scores : list Q)
    (entry : nat * nat) : list RetrievedDocument :=
  let (rank, idx) := entry in
  if Qle_bool (nth idx scores 0%Q) 0 then []
  else
    let doc := nth idx (documents self) no_document in
    let normalized_score := Qmin (nth idx scores 0%Q / 30) 1 in
    [ mkRetrievedDocument (bm_chunk_id doc) (doc_id doc) (bm_content doc)
        normalized_score rank
        (or_default (m_filename (bm_metadata doc)) EmptyString)
        (or_default (m_document_type (bm_metadata doc)) EmptyString)
        (m_title (bm_metadata doc))
        (m_section_title (bm_metadata doc))
        (or_default (m_chunk_index (bm_metadata doc)) 0)
        None None [] ].

(** [search]: the results and the index after a possible rebuild. *)
Definition search (self : BM25Index) (query : string) (top_k : nat)
    (fd : option filter_dict)
    : result (list RetrievedDocument) * BM25Index :=
  let self := if _needs_rebuild self then _rebuild_index self else self in
  if negb (bm25 self) || match documents self with [] => true | _ => false end
  then (Ok [], self)
  else
    let query_tokens := _tokenize query in
    match query_tokens with
    | [] => (Ok [], self)
    | _ :: _ =>
        ((scores <- get_scores self query_tokens ;;
          let scores :=
            match fd with
            | Some (e :: fd') => _apply_filters self scores (e :: fd')
            | _ => scores
            end in
          let top_indices :=
            firstn top_k
              (sorted_desc (fun i => nth i scores 0%Q)
                 (seq 0 (List.length scores))) in
          Ok (flat_map (build_result self scores) (enumerate top_indices)))%result,
         self)
    end.

End Search.

End BM25.

(** ** The dense index: [app/retrieval/vector_store.py] *)

Module VectorStore.

Import Documents.

Record payload : Type := mkPayload {
  p_chunk_id : option string;
  p_document_id : option string;
  p_content : option string;
  p_meta : metadata
}.

(** A scored point returned by the database client. *)
Record hit : Type := mkHit {
  hit_score : Q;
  hit_payload : option payload
}.

Inductive condition : Type :=
| MatchAny (key : string) (any : list string)
| MatchValue (key : string) (value : string).

Definition empty_payload : payload :=
  mkPayload None None None BM25.empty_metadata.

Definition from_search_result (content : string) (score : Q) (rank : nat)
    (p : payload) : RetrievedDocument :=
  mkRetrievedDocument
    (or_default (p_chunk_id p) EmptyString)
    (or_default (p_document_id p) EmptyString)
    content score rank
    (or_default (m_filename (p_meta p)) EmptyString)
    (or_default (m_document_type (p_meta p)) EmptyString)
    (m_title (p_meta p))
    (m_section_title (p_meta p))
    (or_default (m_chunk_index (p_meta p)) 0)
    (m_client_name (p_meta p))
    (m_practice_area (p_meta p))
    (or_default (m_tags (p_meta p)) []).

(** The conditions built from the filter dict: an empty list of allowed
    values adds no condition. *)
Definition build_conditions (fd : filter_dict) : list condition :=
  flat_map
    (fun entry : string * filter_value =>
       let (field, values) := entry in
       match values with
       | FList [] => []
       | FList vs => [MatchAny field vs]
       | FStr v => [MatchValue field v]
       end)
    fd.

Definition build_query_filter (fd : option filter_dict)
    : option (list condition) :=
  match fd with
  | Some (e :: fd') =>
      match build_conditions (e :: fd') with
      | [] => None
      | conditions => Some conditions
      end
  | _ => None
  end.

Record VectorStore : Type := mkVectorStore {
  _initialized : bool
}.

Section Search.

(** The database client: the outcome of the calls [initialize] makes, and
    [client.search(query_vector, limit, query_filter, score_threshold)]. *)
Variable client_initialize : result unit.
Variable client_search :
  list Q -> nat -> option (list condition) -> Q -> result (list hit).

(** [settings.retrieval_min_score] *)
Variable retrieval_min_score : Q.

Definition initialize (self : VectorStore) : result VectorStore :=
  if _initialized self then Ok self
  else
    try_except
      (_ <- client_initialize ;; Ok (mkVectorStore true))%result
      any_Exception
      (fun _ => Raise (VectorStoreError "initialize")).

Definition to_document (entry : nat * hit) : RetrievedDocument :=
  let (rank, h) := entry in
  let p := or_default (hit_payload h) empty_payload in
  from_search_result (or_default (p_content p) EmptyString) (hit_score h)
    rank p.

Definition search (self : VectorStore) (query_embedding : list Q)
    (top_k : nat) (fd : option filter_dict) (score_threshold : option Q)
    : result (list RetrievedDocument) :=
  (_ <- (if _initialized self then Ok self else initialize self) ;;
   try_except
     (let query_filter := build_query_filter fd in
      let threshold :=
        match score_threshold with
        | Some t => if Qeq_bool t 0 then retrieval_min_score else t
        | None => retrieval_min_score
        end in
      results <- client_search query_embedding top_k query_filter threshold ;;
      Ok (map to_document (enumerate results)))
     any_Exception
     (fun _ => Raise (VectorStoreError "search")))%result.

End Search.

(** *** A client over an in-memory collection

    The stored points come already scored against the query and in
    descending order of score.  A search keeps the points that satisfy
    every condition of the filter and reach the threshold, and returns the
    first [limit] of them. *)

Definition payload_get (p : option payload) (key : string) : option string :=
  match p with
  | Some p =>
      if String.eqb key "chunk_id" then p_chunk_id p
      else if String.eqb key "document_id" then p_document_id p
      else meta_get (p_meta p) key
  | None => None
  end.

Definition condition_holds (p : option payload) (c : condition) : bool :=
  match c with
  | MatchAny key any =>
      match payload_get p key with
      | Some v => str_in v any
      | None => false
      end
  | MatchValue key value =>
      match payload_get p key with
      | Some v => String.eqb v value
      | None => false
      end
  end.

Definition memory_client (points : list hit)
    (query_vector : list Q) (limit : nat)
    (query_filter : option (list condition)) (score_threshold : Q)
    : result (list hit) :=
  Ok (firstn limit
        (filter
           (fun h =>
              Qle_bool score_threshold (hit_score h)
              && match query_filter with
                 | Some must => forallb (condition_holds (hit_payload h)) must
                 | None => true
                 end)
           points)).

End VectorStore.

(** ** Hybrid retrieval: [app/retrieval/hybrid.py] *)

Module Hybrid.

Import Documents.

Record HybridSearchConfig : Type := mkHybridSearchConfig {
  dense_weight : Q;
  sparse_weight : Q;
  rrf_k : nat;
  use_dense : bool;
  use_sparse : bool
}.

Definition default_config : HybridSearchConfig :=
  mkHybridSearchConfig (7#10) (3#10) 60 true true.

(** [weight / (k + rank)]; a zero divisor raises. *)
Definition rrf_term (weight : Q) (k rank : nat) : result Q :=
  if (k + rank =? 0)%nat then Raise ZeroDivisionError
  else Ok (weight / inject_Z (Z.of_nat (k + rank)))%Q.

Definition score_table : Type := Dict.t (Q * RetrievedDocument).

Section Fusion.

Variable config : HybridSearchConfig.

(** The loop over the dense results. *)
Fixpoint add_dense (scores : score_table) (docs : list RetrievedDocument)
    : result score_table :=
  match docs with
  | [] => Ok scores
  | doc :: docs' =>
      (rrf_score <- rrf_term (dense_weight config) (rrf_k config) (rank doc) ;;
       add_dense (Dict.set scores (chunk_id doc) (rrf_score, doc)) docs')%result
  end.

(** The loop over the sparse results. *)
Fixpoint add_sparse (scores : score_table) (docs : list RetrievedDocument)
    : result score_table :=
  match docs with
  | [] => Ok scores
  | doc :: docs' =>
      (rrf_score <- rrf_term (sparse_weight config) (rrf_k config) (rank doc) ;;
       match Dict.get scores (chunk_id doc) with
       | Some (existing_score, existing_doc) =>
           add_sparse
             (Dict.set scores (chunk_id doc)
                ((existing_score + rrf_score)%Q, existing_doc))
             docs'
       | None =>
           add_sparse (Dict.set scores (chunk_id doc) (rrf_score, doc)) docs'
       end)%result
  end.

(** [min(score * 10, 1.0)] *)
Definition display_score (s : Q) : Q :=
  if Qlt_bool 1 (s * 10) then 1%Q else (s * 10)%Q.

Definition fused_doc (entry : nat * (string * (Q * RetrievedDocument)))
    : RetrievedDocument :=
  let '(rank, (_, (score, doc))) := entry in
  mkRetrievedDocument (chunk_id doc) (document_id doc) (content doc)
    (display_score score) rank
    (filename doc) (document_type doc) (title doc) (section_title doc)
    (chunk_index doc) (client_name doc) (practice_area doc) (tags doc).

Definition _reciprocal_rank_fusion
    (dense_results sparse_results : list RetrievedDocument)
    : result (list RetrievedDocument) :=
  (scores <- add_dense [] dense_results ;;
   scores <- add_sparse scores sparse_results ;;
   let sorted_items :=
     sorted_desc (fun item : string * (Q * RetrievedDocument) =>
                    fst (snd item)) scores in
   Ok (map fused_doc (enumerate sorted_items)))%result.

End Fusion.

(** A string argument that is neither [None] nor empty. *)
Definition truthy_str (o : option string) : option string :=
  match o with
  | Some EmptyString => None
  | other => other
  end.

(** The document types sent to the sources and the filter dict built
    around them. *)
Definition allowed_types (user_role : Security.UserRole)
    (document_types : option (list string)) : list string :=
  let accessible_types := Security.get_role_filter user_role in
  match document_types with
  | Some (t :: ts) => filter (fun t => str_in t accessible_types) (t :: ts)
  | _ => accessible_types
  end.

Definition build_filter_dict (user_role : Security.UserRole)
    (client_name practice_area : option string)
    (document_types : option (list string)) : filter_dict :=
  let fd := [("document_type", FList (allowed_types user_role document_types))] in
  let fd :=
    match truthy_str client_name with
    | Some c => Dict.set fd "client_name" (FStr c)
    | None => fd
    end in
  match truthy_str practice_area with
  | Some a => Dict.set fd "practice_area" (FStr a)
  | None => fd
  end.

Section Retriever.

(** The retriever's collaborators: the embedding service, the dense index
    with its database client, and the sparse index with its scorer. *)
Variable embed_text : string -> result (list Q).
Variable vector_store : VectorStore.VectorStore.
Variable client_initialize : result unit.
Variable client_search :
  list Q -> nat -> option (list VectorStore.condition) -> Q -> result (list VectorStore.hit).
Variable retrieval_min_score : Q.
Variable bm25_index : BM25.BM25Index.
Variable okapi_scores : list (list string) -> list string -> result (nat -> Q).

Variable config : HybridSearchConfig.

(** The body of the first [try]: embed the query, search the dense index. *)
Definition dense_stage (query : string) (fetch_k : nat) (fd : filter_dict)
    : result (list RetrievedDocument) :=
  (query_embedding <- embed_text query ;;
   VectorStore.search client_initialize client_search retrieval_min_score
     vector_store query_embedding fetch_k (Some fd) None)%result.

(** The body of the second [try]. *)
Definition sparse_stage (query : string) (fetch_k : nat) (fd : filter_dict)
    : result (list RetrievedDocument) :=
  fst (BM25.search okapi_scores bm25_index query fetch_k (Some fd)).

(** What a source contributes: the list starts empty, and is replaced by
    the results when the source is used and its [try] body returns; an
    exception is logged and leaves the list empty. *)
Definition collected (enabled : bool) (stage : result (list RetrievedDocument))
    : list RetrievedDocument :=
  if enabled then
    match try_except stage any_Exception (fun _ => Ok []) with
    | Ok results => results
    | Raise _ => []
    end
  else [].

Definition retrieve (query : string) (user_role : Security.UserRole)
    (top_k : nat) (client_name practice_area : option string)
    (document_types : option (list string))
    : result (list RetrievedDocument) :=
  let fd := build_filter_dict user_role client_name practice_area
              document_types in
  let fetch_k := Nat.min (top_k * 2) 50 in
  let dense_results :=
    collected (use_dense config) (dense_stage query fetch_k fd) in
  let sparse_results :=
    collected (use_sparse config) (sparse_stage query fetch_k fd) in
  match dense_results, sparse_results with
  | [], [] => Ok []
  | [], _ :: _ => Ok (firstn top_k sparse_results)
  | _ :: _, [] => Ok (firstn top_k dense_results)
  | _ :: _, _ :: _ =>
      (fused_results <-
         _reciprocal_rank_fusion config dense_results sparse_results ;;
       Ok (firstn top_k fused_results))%result
  end.

End Retriever.

End Hybrid.

(** ** Semantic chunking: [app/ingestion/chunker.py] *)

Module Chunker.

Import PyStr.

Record ChunkingConfig : Type := mkChunkingConfig {
  target_size : nat;
  min_size : nat;
  max_size : nat;
  overlap : nat;
  respect_sentence_boundaries : bool;
  respect_paragraph_boundaries : bool;
  preserve_headings : bool
}.

Definition default_config : ChunkingConfig :=
  mkChunkingConfig 512 100 1024 64 true true true.

(** The segment types ["heading"], ["list"], ["code"], ["paragraph"]. *)
Inductive segment_kind : Type := Heading | ListItem | Code | Paragraph.

Record TextSegment : Type := mkTextSegment {
  text : string;
  segment_type : segment_kind;
  heading_level : option nat;
  start_char : nat;
  end_char : nat
}.

Definition newline : ascii := ascii_of_nat 10.

Definition is_newline (c : ascii) : bool := code c =? 10.

Definition blank (s : string) : bool :=
  match strip s with
  | EmptyString => true
  | _ => false
  end.

(** A text as the segmentation yields it: stripped and not empty. *)
Definition clean (s : string) : Prop := strip s = s /\ s <> EmptyString.

(** *** The regular expressions of the chunker, as string functions *)

(** The longest prefix of white space. *)
Fixpoint space_run (s : string) : string :=
  match s with
  | String c s' => if is_space c then String c (space_run s') else EmptyString
  | EmptyString => EmptyString
  end.

(** One more than the position of the last newline, if there is one. *)
Fixpoint after_last_newline (s : string) : option nat :=
  match s with
  | EmptyString => None
  | String c s' =>
      match after_last_newline s' with
      | Some n => Some (S n)
      | None => if is_newline c then Some 1 else None
      end
  end.

(** The length of the match of [\n\s*\n] at the start of [s]: a newline,
    then the white space up to the last newline of the run. *)
Definition blank_line_at (s : string) : option nat :=
  match s with
  | String c s' =>
      if is_newline c then
        match after_last_newline (space_run s') with
        | Some n => Some (S n)
        | None => None
        end
      else None
  | EmptyString => None
  end.

(** [re.split(r"\n\s*\n", s)]; [skip] counts the characters of the current
    separator still to pass, [cur] is the block read so far. *)
Fixpoint split_blocks (s : string) (skip : nat) (cur : string) : list string :=
  match s with
  | EmptyString => [cur]
  | String c s' =>
      match skip with
      | S skip' => split_blocks s' skip' cur
      | O =>
          match blank_line_at s with
          | Some n => cur :: split_blocks s' (n - 1) EmptyString
          | None => split_blocks s' 0 (cur ++ String c EmptyString)%string
          end
      end
  end.

Definition is_terminator (c : ascii) : bool :=
  existsb (Ascii.eqb c) ["."; "!"; "?"]%char.

(** [re.split(r"(?<=[.!?])\s+", s)]; [prev] is the character before the
    current one, [skipping] tells that a separator is being passed. *)
Fixpoint split_sentences (s : string) (prev : option ascii) (skipping : bool)
    (cur : string) : list string :=
  match s with
  | EmptyString => [cur]
  | String c s' =>
      if skipping && is_space c then split_sentences s' (Some c) true cur
      else if is_space c
              && match prev with Some p => is_terminator p | None => false end
      then cur :: split_sentences s' (Some c) true EmptyString
      else split_sentences s' (Some c) false (cur ++ String c EmptyString)%string
  end.

(** What follows the first match of [[.!?]\s+], if there is a match. *)
Fixpoint after_sentence_end (s : string) : option string :=
  match s with
  | EmptyString => None
  | String c s' =>
      match s' with
      | String c' _ =>
          if is_terminator c && is_space c' then Some (lstrip s')
          else after_sentence_end s'
      | EmptyString => None
      end
  end.

(** [s.split("\n")] *)
Definition lines (s : string) : list string := Intent.split_on newline s.

Fixpoint count_prefix (p : ascii -> bool) (s : string) : nat :=
  match s with
  | String c s' => if p c then S (count_prefix p s') else 0
  | EmptyString => 0
  end.

Definition is_hash (c : ascii) : bool := Ascii.eqb c "#".

(** The level matched by [^(#{1,6})\s+] *)
Definition heading_marker (first_line : string) : option nat :=
  let n := count_prefix is_hash first_line in
  if (1 <=? n) && (n <=? 6) &&
     match drop n first_line with
     | String c _ => is_space c
     | EmptyString => false
     end
  then Some n else None.

Definition all_of (p : ascii -> bool) (s : string) : bool :=
  match s with
  | EmptyString => false
  | _ => forallb p (list_ascii_of_string s)
  end.

Definition is_upper_cased (c : ascii) : bool :=
  let n := code c in
  between 65 90 n || between 192 214 n || between 216 222 n.

Definition is_lower_cased (c : ascii) : bool :=
  let n := code c in
  between 97 122 n || between 223 246 n || between 248 255 n
  || (n =? 170) || (n =? 181) || (n =? 186).

(** [str.isupper] *)
Definition isupper (s : string) : bool :=
  let cs := list_ascii_of_string s in
  existsb is_upper_cased cs && negb (existsb is_lower_cased cs).

Definition is_digit (c : ascii) : bool := between 48 57 (code c).

(** [^[\-\*\+]\s] or [^\d+[\.\)]\s] *)
Definition list_marker (first_line : string) : bool :=
  match first_line with
  | String c (String c' _) =>
      (existsb (Ascii.eqb c) ["-"; "*"; "+"]%char && is_space c')
      || (let n := count_prefix is_digit first_line in
          (1 <=? n) &&
          match drop n first_line with
          | String d (String d' _) =>
              existsb (Ascii.eqb d) ["."; ")"]%char && is_space d'
          | _ => false
          end)
  | _ => false
  end.

Definition _classify_segment (t : string) : segment_kind * option nat :=
  let ls := lines t in
  let first_line := strip (hd EmptyString ls) in
  match heading_marker first_line with
  | Some level => (Heading, Some level)
  | None =>
      let second := match ls with _ :: l1 :: _ => Some (strip l1) | _ => None end in
      if match second with Some l1 => all_of (Ascii.eqb "=") l1 | None => false end
      then (Heading, Some 1)
      else if match second with Some l1 => all_of (Ascii.eqb "-") l1 | None => false end
      then (Heading, Some 2)
      else if isupper first_line && (String.length first_line <? 100)
      then (Heading, Some 2)
      else if list_marker first_line then (ListItem, None)
      else if startswith "```" t || startswith "    " t then (Code, None)
      else (Paragraph, None)
  end.

(** [text.find(block, start)], with [-1] replaced by [start] as the
    caller does. *)
Definition find_from (t block : string) (start : nat) : nat :=
  match String.index start block t with
  | Some pos => pos
  | None => start
  end.

Definition _segment_text (t : string) : list TextSegment :=
  fst
    (fold_left
       (fun (acc : list TextSegment * nat) (block : string) =>
          let (segments, current_pos) := acc in
          let block := strip block in
          match block with
          | EmptyString => acc
          | _ =>
              let (kind, level) := _classify_segment block in
              let start_pos := find_from t block current_pos in
              let end_pos := start_pos + String.length block in
              (segments ++ [mkTextSegment block kind level start_pos end_pos],
               end_pos)
          end)
       (split_blocks t 0 EmptyString) ([], 0)).

(** The text without its final newline, when it ends with one. *)
Fixpoint without_final_newline (s : string) : option string :=
  match s with
  | EmptyString => None
  | String c EmptyString => if is_newline c then Some EmptyString else None
  | String c s' =>
      match without_final_newline s' with
      | Some r => Some (String c r)
      | None => None
      end
  end.

Definition is_underline_char (x : ascii) : bool :=
  Ascii.eqb x "=" || Ascii.eqb x "-".

(** [re.sub(r"\n[=-]+$", "", s)]: the text is cut at the first newline
    that only [=] and [-] follow, at least one, up to the end or up to a
    final newline, which then stays. *)
Fixpoint cut_underline (s : string) : string :=
  match s with
  | EmptyString => EmptyString
  | String c s' =>
      if is_newline c then
        if all_of is_underline_char s' then EmptyString
        else
          match without_final_newline s' with
          | Some u =>
              if all_of is_underline_char u then String newline EmptyString
              else String c (cut_underline s')
          | None => String c (cut_underline s')
          end
      else String c (cut_underline s')
  end.

(** [re.sub(r"^#+\s*", "", t)], then the underline, then [strip]. *)
Definition _clean_heading (t : string) : string :=
  let n := count_prefix is_hash t in
  let t := if n =? 0 then t else lstrip (drop n t) in
  strip (cut_underline t).

Section WithTokenizer.

(** The document id and the document metadata are carried unchanged; the
    fresh random [chunk_id] of a chunk is not part of the model. *)
Variable Id : Type.
Variable Metadata : Type.

(** The encoder of the tokenizer, [None] when it could not be loaded. *)
Variable tokenizer : option (string -> list nat).

Variable config : ChunkingConfig.

Record DocumentChunk : Type := mkDocumentChunk {
  document_id : Id;
  content : string;
  chunk_index : nat;
  chunk_start_char : nat;
  chunk_end_char : nat;
  section_title : option string;
  heading_hierarchy : list string;
  document_metadata : Metadata;
  token_count : nat
}.

Definition count_tokens (t : string) : nat :=
  match tokenizer with
  | Some encode => List.length (encode t)
  | None => String.length t / 4
  end.

Definition _create_chunk (t : string) (index : nat) (doc : Id)
    (meta : Metadata) (hierarchy : list string) (section : option string)
    (start_c end_c : nat) : DocumentChunk :=
  mkDocumentChunk doc (strip t) index start_c end_c section hierarchy meta
    (count_tokens t).

Definition _get_overlap_text (t : string) : string :=
  match t with
  | EmptyString => EmptyString
  | _ =>
      if overlap config =? 0 then EmptyString
      else
        let overlap_chars := overlap config * 4 in
        if String.length t <=? overlap_chars then t
        else
          let overlap_text := last_chars overlap_chars t in
          if respect_sentence_boundaries config then
            match after_sentence_end overlap_text with
            | Some rest => rest
            | None => overlap_text
            end
          else overlap_text
  end.

Definition _split_large_segment (segment : TextSegment) : list string :=
  let target_tokens :=
    (Z.of_nat (target_size config) - Z.of_nat (overlap config))%Z in
  let sentences := split_sentences (text segment) None false EmptyString in
  let (chunks, current_chunk) :=
    fold_left
      (fun (acc : list string * string) (sentence : string) =>
         let (chunks, current_chunk) := acc in
         if (target_tokens
             <? Z.of_nat (count_tokens (current_chunk ++ " " ++ sentence)%string))%Z
         then
           (match current_chunk with
            | EmptyString => chunks
            | _ => chunks ++ [current_chunk]
            end, sentence)
         else
           match current_chunk with
           | EmptyString => (chunks, sentence)
           | _ => (chunks, (current_chunk ++ " " ++ sentence)%string)
           end)
      sentences ([], EmptyString) in
  match current_chunk with
  | EmptyString => chunks
  | _ => chunks ++ [current_chunk]
  end.

(** The local variables of [_create_chunks]. *)
Record state : Type := mkState {
  chunks : list DocumentChunk;
  current_chunk_text : string;
  current_chunk_segments : list TextSegment;
  next_index : nat;
  current_heading_hierarchy : list string;
  current_section_title : option string
}.

Definition first_start (segs : list TextSegment) : nat :=
  match segs with
  | s :: _ => start_char s
  | [] => 0
  end.

Definition last_end (segs : list TextSegment) : nat :=
  match rev segs with
  | s :: _ => end_char s
  | [] => 0
  end.

Definition double_newline : string :=
  String newline (String newline EmptyString).

(** [if current_chunk_text.strip(): current_chunk_text += "\n\n"] and then
    [current_chunk_text += piece]. *)
Definition append_piece (current piece : string) : string :=
  if blank current then (current ++ piece)%string
  else (current ++ double_newline ++ piece)%string.

Section Step.

Variable doc : Id.
Variable meta : Metadata.

Definition update_headings (st : state) (segment : TextSegment) : state :=
  match segment_type segment, heading_level segment with
  | Heading, Some (S l) =>
      let heading_text := _clean_heading (text segment) in
      mkState (chunks st) (current_chunk_text st) (current_chunk_segments st)
        (next_index st)
        (firstn l (current_heading_hierarchy st) ++ [heading_text])
        (Some heading_text)
  | _, _ => st
  end.

(** The branch taken when the segment does not fit: save the current
    chunk if it has content, and start the next one with the overlap. *)
Definition flush_for (st : state) : state :=
  let st' :=
    if blank (current_chunk_text st) then st
    else
      mkState
        (chunks st ++
         [_create_chunk (current_chunk_text st) (next_index st) doc meta
            (current_heading_hierarchy st) (current_section_title st)
            (first_start (current_chunk_segments st))
            (last_end (current_chunk_segments st))])
        (current_chunk_text st) (current_chunk_segments st)
        (S (next_index st))
        (current_heading_hierarchy st) (current_section_title st) in
  mkState (chunks st') (_get_overlap_text (current_chunk_text st)) []
    (next_index st') (current_heading_hierarchy st')
    (current_section_title st').

(** One round of the loop over the pieces of a large segment. *)
Definition add_sub_chunk (segment : TextSegment) (st : state)
    (sub_chunk : string) : state :=
  let current := append_piece (current_chunk_text st) sub_chunk in
  let segs := current_chunk_segments st ++ [segment] in
  if target_size config <=? count_tokens current then
    mkState
      (chunks st ++
       [_create_chunk current (next_index st) doc meta
          (current_heading_hierarchy st) (current_section_title st)
          (start_char segment) (end_char segment)])
      (_get_overlap_text current) []
      (S (next_index st))
      (current_heading_hierarchy st) (current_section_title st)
  else
    mkState (chunks st) current segs (next_index st)
      (current_heading_hierarchy st) (current_section_title st).

(** One round of the loop over the segments. *)
Definition step (st : state) (segment : TextSegment) : state :=
  let st := update_headings st segment in
  let segment_tokens := count_tokens (text segment) in
  let current_tokens := count_tokens (current_chunk_text st) in
  let st :=
    if target_size config <? current_tokens + segment_tokens
    then flush_for st else st in
  if max_size config <? segment_tokens then
    fold_left (add_sub_chunk segment) (_split_large_segment segment) st
  else
    mkState (chunks st)
      (append_piece (current_chunk_text st) (text segment))
      (current_chunk_segments st ++ [segment])
      (next_index st)
      (current_heading_hierarchy st) (current_section_title st).

Definition initial_state : state := mkState [] EmptyString [] 0 [] None.

Definition _create_chunks (segments : list TextSegment) : list DocumentChunk :=
  let st := fold_left step segments initial_state in
  if negb (blank (current_chunk_text st))
     && (min_size config <=? count_tokens (current_chunk_text st))
  then
    chunks st ++
    [_create_chunk (current_chunk_text st) (next_index st) doc meta
       (current_heading_hierarchy st) (current_section_title st)
       (first_start (current_chunk_segments st))
       (last_end (current_chunk_segments st))]
  else chunks st.

Definition chunk_document (t : string) : list DocumentChunk :=
  if blank t then []
  else _create_chunks (_segment_text t).

End Step.

End WithTokenizer.

End Chunker.

(** ** The pipeline coordinator: [app/workflows/orchestrator.py] *)

Module Orchestrator.

Import PyStr.

(** A JSON value; a number is kept as it is written. *)
#[local] Unset Elimination Schemes.
Inductive json : Type :=
| JNull
| JBool (b : bool)
| JNumber (literal : string)
| JStr (s : string)
| JArr (items : list json)
| JObj (fields : list (string * json)).
#[local] Set Elimination Schemes.

(** [key in value] for a dict, [False] for anything else. *)
Definition has_key (value : json) (key : string) : bool :=
  match value with
  | JObj fields => existsb (fun f => String.eqb (fst f) key) fields
  | _ => false
  end.

Definition field (value : json) (key : string) : option json :=
  match value with
  | JObj fields => Dict.get fields key
  | _ => None
  end.

(** The output schemas of [app/models/outputs.py]. *)
Inductive OutputModel : Type :=
| QuestionAnswerOutput
| ClientSummaryOutput
| RiskAnalysisOutput
| OpportunityAnalysisOutput
| RecommendationsOutput
| ActionItemsOutput
| ExecutiveSummaryOutput
| TalkingPointsOutput
| CompareApproachesOutput
| ResearchTopicOutput.

Definition TASK_OUTPUT_MODELS : Dict.t OutputModel :=
  [ ("question_answer", QuestionAnswerOutput);
    ("summarize_client", ClientSummaryOutput);
    ("client_background", ClientSummaryOutput);
    ("risk_analysis", RiskAnalysisOutput);
    ("opportunity_analysis", OpportunityAnalysisOutput);
    ("draft_recommendations", RecommendationsOutput);
    ("action_items", ActionItemsOutput);
    ("executive_summary", ExecutiveSummaryOutput);
    ("talking_points", TalkingPointsOutput);
    ("compare_approaches", CompareApproachesOutput);
    ("research_topic", ResearchTopicOutput) ].

Definition get_output_model (task_type : string) : OutputModel :=
  match Dict.get TASK_OUTPUT_MODELS task_type with
  | Some m => m
  | None => QuestionAnswerOutput
  end.

(** *** String helpers of [_parse_response] *)

(** [s.find("\n")] *)
Fixpoint find_newline (s : string) (i : nat) : Z :=
  match s with
  | EmptyString => (-1)%Z
  | String c s' =>
      if code c =? 10 then Z.of_nat i else find_newline s' (S i)
  end.

Definition fence : string := "```".

(** [s.rfind(fence)] *)
Fixpoint rfind_fence (s : string) (i : nat) : Z :=
  match s with
  | EmptyString => (-1)%Z
  | String c s' =>
      let later := rfind_fence s' (S i) in
      if (0 <=? later)%Z then later
      else if String.prefix fence s then Z.of_nat i else (-1)%Z
  end.

(** [s[a:b]] for [0 <= a <= b] *)
Definition slice (s : string) (a b : Z) : string :=
  take (Z.to_nat (b - a)) (drop (Z.to_nat a) s).

Definition strip_fence (raw_response : string) : string :=
  let cleaned := strip raw_response in
  if startswith fence cleaned then
    let first_newline := find_newline cleaned 0 in
    let last_fence := rfind_fence cleaned 0 in
    if (first_newline <? last_fence)%Z
    then strip (slice cleaned (first_newline + 1) last_fence)
    else cleaned
  else cleaned.

(** The length of the text up to and including the last closing brace. *)
Fixpoint after_last_brace (s : string) : option nat :=
  match s with
  | EmptyString => None
  | String c s' =>
      match after_last_brace s' with
      | Some n => Some (S n)
      | None => if Ascii.eqb c "}" then Some 1 else None
      end
  end.

(** The match of [\{[\s\S]*\}]: from the first opening brace to the last
    closing brace after it. *)
Fixpoint brace_span (s : string) : option string :=
  match s with
  | EmptyString => None
  | String c s' =>
      if Ascii.eqb c "{" then
        match after_last_brace s' with
        | Some n => Some (String c (take n s'))
        | None => None
        end
      else brace_span s'
  end.

Section Parsing.

(** [json.loads]: the parsed value, or the exception raised, a
    [JSONDecodeError] for a text that is not JSON and a [RecursionError]
    for a text nested deeper than the interpreter's recursion limit.
    [model_validate] followed by [model_dump]: the dumped model, or the
    exception raised, a [ValidationError]. *)
Variable json_loads : string -> result json.
Variable model_validate : OutputModel -> json -> result json.

(** [settings.feature_structured_output_enabled] *)
Variable structured_output_enabled : bool.

Definition exn_message (e : exn) : string :=
  match e with
  | JSONDecodeError msg | ValidationError msg | VectorStoreError msg
  | RuntimeError msg | RecursionError msg => msg
  | ValueError => "ValueError"
  | IndexError => "IndexError"
  | ZeroDivisionError => "division by zero"
  end.

Definition narrative_fallback (cleaned : string) (e : exn) : json :=
  JObj [ ("summary", JStr (take 500 cleaned));
         ("raw_response", JStr cleaned);
         ("parse_error", JStr (exn_message e)) ].

(** The handler of [json.JSONDecodeError]. *)
Definition on_decode_error (cleaned : string) (e : exn) : result json :=
  match
    try_except
      (match brace_span cleaned with
       | Some span => (parsed <- json_loads span ;; Ok (Some parsed))%result
       | None => Ok None
       end)
      any_Exception
      (fun _ => Ok None)
  with
  | Ok (Some parsed) => Ok parsed
  | Ok None => Ok (narrative_fallback cleaned e)
  | Raise e' => Raise e'
  end.

(** The handler of [ValidationError]. *)
Definition on_validation_error (cleaned : string) (e : exn) : result json :=
  try_except (json_loads cleaned) any_Exception
    (fun _ =>
       Ok (JObj [ ("summary", JStr (take 500 cleaned));
                  ("validation_error", JStr (exn_message e)) ])).

Definition _parse_response (raw_response : string) (task_type : Intent.TaskType)
    : result json :=
  if negb structured_output_enabled then
    Ok (JObj [("raw_response", JStr raw_response)])
  else
    let cleaned := strip_fence raw_response in
    try_except2
      (parsed <- json_loads cleaned ;;
       model_validate (get_output_model (Intent.value task_type)) parsed)%result
      is_JSONDecodeError (on_decode_error cleaned)
      is_ValidationError (on_validation_error cleaned).

End Parsing.

(** *** The pipeline *)

Record QueryRequest : Type := mkQueryRequest {
  query : string;
  req_task_type : option Intent.TaskType;
  req_client_name : option string;
  req_practice_area : option string;
  req_document_types : option (list string);
  max_sources : nat;
  include_sources : bool;
  request_id : string
}.

Record SourceDocument : Type := mkSourceDocument {
  src_document_id : string;
  src_filename : string;
  src_title : option string;
  src_document_type : string;
  section : option string;
  relevance_score : Q;
  excerpt : string
}.

(** The stage timings of the metrics are clock readings and are left out. *)
Record QueryMetrics : Type := mkQueryMetrics {
  documents_retrieved : nat;
  documents_used : nat;
  intent_detected : option string;
  intent_confidence : option pyfloat
}.

Record QueryResponse : Type := mkQueryResponse {
  resp_request_id : string;
  success : bool;
  error : option string;
  response : json;
  resp_task_type : Intent.TaskType;
  resp_query : string;
  sources : list SourceDocument;
  confidence : pyfloat;
  metrics : option QueryMetrics;
  user_role : option string
}.

(** The field constraints the response model checks when it is built:
    [response] is a dict or a string, [confidence] lies in [0, 1]. *)
Definition new_QueryResponse (r : QueryResponse) : result QueryResponse :=
  if match response r with JObj _ | JStr _ => true | _ => false end
     && float_le (Fin 0) (confidence r) && float_le (confidence r) (Fin 1)
  then Ok r
  else Raise (ValidationError "QueryResponse").

Definition source_of (doc : Documents.RetrievedDocument) : SourceDocument :=
  mkSourceDocument
    (Documents.document_id doc) (Documents.filename doc) (Documents.title doc)
    (Documents.document_type doc) (Documents.section_title doc)
    (Documents.score doc)
    (if 200 <? String.length (Documents.content doc)
     then (take 200 (Documents.content doc) ++ "...")%string
     else Documents.content doc).

Section Pipeline.

Variable json_loads : string -> result json.
Variable model_validate : OutputModel -> json -> result json.
Variable structured_output_enabled : bool.
Variable intent_detection_enabled : bool.
Variable py_float : string -> result pyfloat.

(** The language model:
    [generate(prompt, system_prompt, temperature, max_tokens)]. *)
Variable llm_generate : string -> option string -> Q -> nat -> result string.
Variable llm_temperature : Q.
Variable llm_max_tokens : nat.

(** The retriever's [retrieve_for_context] and the prompt builder. *)
Variable retrieve_for_context :
  string -> Security.UserRole -> nat -> option string -> option string ->
  option (list string) -> result (list Documents.RetrievedDocument * string).
Variable build_prompt :
  Intent.TaskType -> string -> string -> string -> option string ->
  result (string * string).

Definition classify (q : string) : Intent.IntentMatch :=
  fst (Intent.detect intent_detection_enabled
         (Some (fun prompt => llm_generate prompt None 0%Q 50))
         py_float q true).

Definition failure_response (request : QueryRequest) (user : Security.User)
    (task_type : Intent.TaskType) (e : exn) : QueryResponse :=
  mkQueryResponse (request_id request) false (Some (exn_message e)) (JObj [])
    task_type (query request) [] (Fin 0)
    (Some (mkQueryMetrics 0 0 None None))
    (Some (Security.value (Security.role user))).

(** Step 1: the task type and the confidence reported with it. *)
Definition resolve_intent (request : QueryRequest)
    : Intent.TaskType * pyfloat :=
  match req_task_type request with
  | Some t => (t, Fin 1)
  | None =>
      let intent_match := classify (query request) in
      (Intent.task_type intent_match, Intent.confidence intent_match)
  end.

(** The context handed to the prompt builder: a fixed marker when nothing
    was retrieved. *)
Definition context_for (documents : list Documents.RetrievedDocument)
    (context : string) : string :=
  match documents with
  | [] => "No relevant documents were found for this query."
  | _ :: _ => context
  end.

Definition process_query (request : QueryRequest) (user : Security.User)
    : QueryResponse :=
  let (task_type, intent_conf) := resolve_intent request in
  match
    (retrieved <-
       retrieve_for_context (query request) (Security.role user) 4000
         (req_client_name request) (req_practice_area request)
         (req_document_types request) ;;
     let (documents, context) :=
       retrieved : list Documents.RetrievedDocument * string in
     let context := context_for documents context in
     prompts <-
       build_prompt task_type (query request) context
         (Security.value (Security.role user)) (req_client_name request) ;;
     let (system_prompt, user_prompt) := prompts : string * string in
     raw_response <-
       llm_generate user_prompt (Some system_prompt) llm_temperature
         llm_max_tokens ;;
     parsed_response <-
       _parse_response json_loads model_validate structured_output_enabled
         raw_response task_type ;;
     let sources :=
       if include_sources request
       then map source_of (firstn (max_sources request) documents)
       else [] in
     new_QueryResponse
       (mkQueryResponse (request_id request) true None parsed_response
          task_type (query request) sources intent_conf
          (Some (mkQueryMetrics (List.length documents) (List.length sources)
                   (Some (Intent.value task_type)) (Some intent_conf)))
          (Some (Security.value (Security.role user)))))%result
  with
  | Ok r => r
  | Raise e => failure_response request user task_type e
  end.

End Pipeline.

End Orchestrator.

(** ** The fused score as the specification words it *)

Module FusionSpec.

Import Documents.

Definition ids (l : list RetrievedDocument) : list string := map chunk_id l.

(** The item of a result list with the given chunk id. *)
Definition find_id (c : string) (l : list RetrievedDocument)
    : option RetrievedDocument :=
  find (fun d => String.eqb (chunk_id d) c) l.

(** [weight / (k + rank)] *)
Definition term (weight : Q) (k rank : nat) : Q :=
  (weight / inject_Z (Z.of_nat (k + rank)))%Q.

(** What one source adds to the score of a chunk: the term of the chunk's
    rank in that source, nothing when the source does not hold it. *)
Definition contribution (weight : Q) (k : nat) (l : list RetrievedDocument)
    (c : string) : Q :=
  match find_id c l with
  | Some d => term weight k (rank d)
  | None => 0%Q
  end.

(** The sum over the sources that hold the chunk. *)
Definition rrf_sum (config : Hybrid.HybridSearchConfig)
    (dense sparse : list RetrievedDocument) (c : string) : Q :=
  (contribution (Hybrid.dense_weight config) (Hybrid.rrf_k config) dense c
   + contribution (Hybrid.sparse_weight config) (Hybrid.rrf_k config) sparse c)%Q.

(** The score a fused list shows for a chunk. *)
Definition score_of (c : string) (fused : list RetrievedDocument) : option Q :=
  option_map score (find_id c fused).

(** The constraints the settings put on the fusion parameters:
    [rrf_k >= 1] and both weights in [0, 1]. *)
Definition valid_config (config : Hybrid.HybridSearchConfig) : Prop :=
  (1 <= Hybrid.rrf_k config)%nat
  /\ (0 <= Hybrid.dense_weight config <= 1)%Q
  /\ (0 <= Hybrid.sparse_weight config <= 1)%Q.

End FusionSpec.

(** ** Sample collaborators for the concrete evaluations *)

Module Samples.

Import Orchestrator.

(** [json.loads] on the texts used below: the empty object parses, the
    other texts are not JSON. *)
Definition loads_empty_object (s : string) : result json :=
  if String.eqb s "{}" then Ok (JObj [])
  else Raise (JSONDecodeError "Expecting value: line 1 column 1 (char 0)").

(** [json.loads] with the default recursion limit of 1000, on texts that
    open 2000 arrays or more and on the other texts used below. *)
Definition loads_nesting_limit (s : string) : result json :=
  if PyStr.startswith s (PyStr.repeat_str "[" 2000) then
    Raise (RecursionError
             "maximum recursion depth exceeded while decoding a JSON array from a unicode string")
  else loads_empty_object s.

(** A validator that rejects a value without the required field
    [summary], as every output schema does. *)
Definition requires_summary (m : OutputModel) (value : json) : result json :=
  if has_key value "summary" then Ok value
  else Raise (ValidationError "1 validation error: summary: Field required").

Definition no_float (s : string) : result pyfloat := Raise ValueError.

Definition request_with_task (q : string) : QueryRequest :=
  mkQueryRequest q (Some Intent.QUESTION_ANSWER) None None None 5 true
    "00000000-0000-0000-0000-000000000001".

Definition analyst_user : Security.User :=
  Security.mkUser "dev-user" Security.ANALYST None None.

(** A retriever that finds nothing, a prompt builder, and a language model
    that always answers [raw]. *)
Definition retrieve_nothing (q : string) (r : Security.UserRole) (n : nat)
    (c a : option string) (ts : option (list string))
    : result (list Documents.RetrievedDocument * string) :=
  Ok ([], EmptyString).

Definition prompt_pair (t : Intent.TaskType) (q ctx role : string)
    (c : option string) : result (string * string) :=
  Ok ("You are an advisory assistant.", (ctx ++ Intent.nl ++ q)%string).

Definition answers (raw : string) (prompt : string) (sys : option string)
    (temperature : Q) (max_tokens : nat) : result string :=
  Ok raw.

(** A collection with one partner-level and one analyst-level chunk,
    scored 0.9 and 0.8 against the query. *)
Definition meta_of (file type : string) : Documents.metadata :=
  Documents.mkMetadata (Some file) (Some type) None None (Some 0) None None
    None.

Definition stored_points : list VectorStore.hit :=
  [ VectorStore.mkHit (9#10)
      (Some (VectorStore.mkPayload (Some "chunk-1") (Some "doc-1")
               (Some "Partner fee structure for the engagement.")
               (meta_of "fees.md" "partner_memo")));
    VectorStore.mkHit (8#10)
      (Some (VectorStore.mkPayload (Some "chunk-2") (Some "doc-2")
               (Some "Playbook for pricing discussions.")
               (meta_of "playbook.md" "playbook"))) ].

Definition embed_unit (q : string) : result (list Q) := Ok [1%Q].

Definition embed_fails (q : string) : result (list Q) :=
  Raise (RuntimeError "embedding provider unavailable").

Definition ready_store : VectorStore.VectorStore :=
  VectorStore.mkVectorStore true.

Definition empty_index : BM25.BM25Index := BM25.mkBM25Index [] false true.

(** The same two chunks in the sparse index. *)
Definition sparse_index : BM25.BM25Index :=
  BM25.mkBM25Index
    [ BM25.mkBM25Document "doc-1" "chunk-1"
        "Partner fee structure for the engagement."
        ["partner"; "fee"; "structure"; "for"; "the"; "engagement"]
        (meta_of "fees.md" "partner_memo");
      BM25.mkBM25Document "doc-2" "chunk-2"
        "Playbook for pricing discussions."
        ["playbook"; "for"; "pricing"; "discussions"]
        (meta_of "playbook.md" "playbook") ]
    false true.

(** A scorer that counts the query tokens a document holds. *)
Definition overlap_scores (corpus : list (list string)) (q : list string)
    : result (nat -> Q) :=
  Ok (fun i =>
        inject_Z (Z.of_nat
          (List.length (filter (fun t => str_in t (nth i corpus [])) q)))).

(** Two paragraphs separated by a blank line: 114 short sentences, then
    one word. *)
Definition long_paragraph : string :=
  PyStr.strip (PyStr.repeat_str "Alpha beta gamma. " 114).

Definition long_then_short : string :=
  (long_paragraph ++ Chunker.double_newline ++ "Tail.")%string.

(** The same first paragraph followed by a long enough second one. *)
Definition long_then_long : string :=
  (long_paragraph ++ Chunker.double_newline
   ++ PyStr.strip (PyStr.repeat_str "Delta epsilon. " 40))%string.

Definition no_segment : Chunker.TextSegment :=
  Chunker.mkTextSegment EmptyString Chunker.Paragraph None 0 0.

Definition first_block : Chunker.TextSegment :=
  nth 0 (Chunker._segment_text long_then_long) no_segment.

Definition second_block : Chunker.TextSegment :=
  nth 1 (Chunker._segment_text long_then_long) no_segment.

(** A first paragraph of two short sentences far apart (1051 tokens by
    character count), then a short one. *)
Definition sparse_paragraph_then_short : string :=
  ("a." ++ PyStr.repeat_str " " 4200 ++ "b." ++ Chunker.double_newline
   ++ "c.")%string.

Definition doc_at (c : string) (r : nat) : Documents.RetrievedDocument :=
  Documents.mkRetrievedDocument c "doc" "text" (1#2) r "notes.md" "playbook"
    None None 0 None None [].

(** What the two sources return to a partner who asks for the pricing
    playbook. *)
Definition partner_filter : Documents.filter_dict :=
  Hybrid.build_filter_dict Security.PARTNER None None None.

Definition dense_sample : list Documents.RetrievedDocument :=
  Hybrid.collected true
    (Hybrid.dense_stage embed_unit ready_store (Ok tt)
       (VectorStore.memory_client stored_points) (5#10)
       "pricing playbook" 10 partner_filter).

Definition sparse_sample : list Documents.RetrievedDocument :=
  Hybrid.collected true
    (Hybrid.sparse_stage sparse_index overlap_scores
       "pricing playbook" 10 partner_filter).

End Samples.

(** ** Authentication and role checks: the rest of [app/core/security.py],
    and the ingestion guard of [app/api/routes/ingest.py] *)

Module Access.

Import Security.

(** [fastapi.HTTPException(status_code, detail)] *)
Record HTTPException : Type := mkHTTPException {
  status_code : nat;
  detail : string
}.

(** [User.can_access_role] *)
Definition can_access_role (self : User) (required_role : UserRole) : bool :=
  can_access (role self) required_role.

(** [verify_api_key]: [settings.auth_enabled], [settings.api_key], and the
    [X-API-Key] header, [None] when the request has none. *)
Definition verify_api_key (auth_enabled : bool) (api_key : string)
    (x_api_key : option string) : HTTPException + string :=
  if negb auth_enabled then inr "development-mode"
  else
    match x_api_key with
    | None | Some EmptyString =>
        inl (mkHTTPException 401 "Missing API key. Include X-API-Key header.")
    | Some key =>
        if negb (String.eqb key api_key)
        then inl (mkHTTPException 401 "Invalid API key.")
        else inr key
    end.

(** The checker that [require_role(required_role)] returns. *)
Definition require_role (required_role : UserRole) (user : User)
    : HTTPException + User :=
  if negb (can_access_role user required_role) then
    inl (mkHTTPException 403
           ("This action requires '" ++ value required_role
            ++ "' role, but you have '" ++ value (role user) ++ "'"))
  else inr user.

Record RoleBasedFilter : Type := mkRoleBasedFilter {
  user_role : UserRole;
  accessible_types : list string
}.

(** [RoleBasedFilter.__init__] *)
Definition new_RoleBasedFilter (user_role : UserRole) : RoleBasedFilter :=
  mkRoleBasedFilter user_role (get_accessible_document_types user_role).

(** [get_qdrant_filter]: the [must] conditions of the filter. *)
Definition get_qdrant_filter (self : RoleBasedFilter)
    : list VectorStore.condition :=
  [VectorStore.MatchAny "document_type" (accessible_types self)].

Definition can_access_document (self : RoleBasedFilter)
    (document_type : string) : bool :=
  str_in (PyStr.lower document_type) (accessible_types self).

(** [DocumentType] of [app/models/documents.py] *)
Inductive DocumentType : Type :=
| PLAYBOOK | GUIDELINE | TEMPLATE | TRAINING
| CLIENT_SUMMARY | ENGAGEMENT | PROPOSAL
| PARTNER_MEMO | FEE_STRUCTURE | STRATEGIC_PLAN | CONFIDENTIAL.

Definition DocumentType_value (d : DocumentType) : string :=
  match d with
  | PLAYBOOK => "playbook"
  | GUIDELINE => "guideline"
  | TEMPLATE => "template"
  | TRAINING => "training"
  | CLIENT_SUMMARY => "client_summary"
  | ENGAGEMENT => "engagement"
  | PROPOSAL => "proposal"
  | PARTNER_MEMO => "partner_memo"
  | FEE_STRUCTURE => "fee_structure"
  | STRATEGIC_PLAN => "strategic_plan"
  | CONFIDENTIAL => "confidential"
  end.

(** [_get_required_role_for_type] of the ingestion route. *)
Definition _get_required_role_for_type (doc_type : DocumentType) : UserRole :=
  match doc_type with
  | PARTNER_MEMO | FEE_STRUCTURE | STRATEGIC_PLAN | CONFIDENTIAL => PARTNER
  | CLIENT_SUMMARY | ENGAGEMENT | PROPOSAL => CONSULTANT
  | _ => ANALYST
  end.

(** The access check that opens [ingest_document]. *)
Definition ingest_guard (user : User) (document_type : DocumentType)
    : HTTPException + unit :=
  let doc_type_role := _get_required_role_for_type document_type in
  if negb (can_access (role user) doc_type_role) then
    inl (mkHTTPException 403
           ("You need '" ++ value doc_type_role ++ "' role to ingest "
            ++ DocumentType_value document_type ++ " documents"))
  else inr tt.

End Access.

(** ** Maintaining the sparse index: the rest of [app/retrieval/bm25.py] *)

Module BM25Store.

Import Documents BM25.

(** A document dict handed to [add_documents] is read like a stored
    payload: [content], [chunk_id], [document_id], and the other entries,
    which become the metadata. *)
Definition to_index_document (content : string) (doc : VectorStore.payload)
    : BM25Document :=
  mkBM25Document
    (or_default (VectorStore.p_document_id doc) EmptyString)
    (or_default (VectorStore.p_chunk_id doc) EmptyString)
    content (_tokenize content) (VectorStore.p_meta doc).

(** One round of the loop of [add_documents]: a document without content
    is passed over. *)
Definition add_document (acc : nat * list BM25Document)
    (doc : VectorStore.payload) : nat * list BM25Document :=
  let (added, documents) := acc in
  match or_default (VectorStore.p_content doc) EmptyString with
  | EmptyString => acc
  | content => (S added, documents ++ [to_index_document content doc])
  end.

(** [add_documents]: the number added and the index afterwards. *)
Definition add_documents (self : BM25Index) (docs : list VectorStore.payload)
    : nat * BM25Index :=
  let (added, documents) := fold_left add_document docs (0, documents self) in
  (added, mkBM25Index documents (bm25 self) true).

(** [remove_document]: whether something was removed, and the index
    afterwards. *)
Definition remove_document (self : BM25Index) (chunk_id : string)
    : bool * BM25Index :=
  let original_length := List.length (documents self) in
  let kept :=
    filter (fun d => negb (String.eqb (bm_chunk_id d) chunk_id))
      (documents self) in
  if List.length kept <? original_length
  then (true, mkBM25Index kept (bm25 self) true)
  else (false, mkBM25Index kept (bm25 self) (_needs_rebuild self)).

Definition clear (self : BM25Index) : BM25Index := mkBM25Index [] false true.

Record stats : Type := mkStats {
  document_count : nat;
  needs_rebuild : bool;
  avg_doc_length : Q
}.

Definition get_stats (self : BM25Index) : stats :=
  mkStats (List.length (documents self)) (_needs_rebuild self)
    match documents self with
    | [] => 0%Q
    | _ :: _ =>
        (inject_Z (Z.of_nat
           (list_sum (map (fun d => List.length (tokens d)) (documents self))))
         / inject_Z (Z.of_nat (List.length (documents self))))%Q
    end.

(** [BM25Index.__init__] *)
Definition new_index : BM25Index := mkBM25Index [] false true.

End BM25Store.

(** ** Stored payloads: [app/models/documents.py] and the documents the
    ingestion route builds *)

Module Ingest.

Import Documents.

(** [DocumentMetadata], by the fields the payloads use; [document_id] is
    the text of the UUID and [created_at] its ISO format. *)
Record DocumentMetadata : Type := mkDocumentMetadata {
  md_document_id : string;
  md_filename : string;
  md_file_type : string;
  md_document_type : Access.DocumentType;
  md_title : option string;
  md_client_name : option string;
  md_practice_area : option string;
  md_author : option string;
  md_created_at : string;
  md_tags : list string
}.

(** A chunk of the chunker together with the [chunk_id] drawn for it. *)
Record DocumentChunk : Type := mkDocumentChunk {
  chunk_id : string;
  chunk : Chunker.DocumentChunk string DocumentMetadata
}.

(** The values a payload dict holds. *)
Inductive pvalue : Type :=
| PStr (s : string)
| PNone
| PInt (n : nat)
| PList (l : list string).

Definition opt_str (o : option string) : pvalue :=
  match o with
  | Some s => PStr s
  | None => PNone
  end.

(** [d.update(entries)] *)
Definition update {V : Type} (d : Dict.t V) (entries : list (string * V))
    : Dict.t V :=
  fold_left (fun d kv => Dict.set d (fst kv) (snd kv)) entries d.

(** [DocumentMetadata.to_vector_payload] *)
Definition metadata_to_vector_payload (self : DocumentMetadata)
    : Dict.t pvalue :=
  [ ("document_id", PStr (md_document_id self));
    ("filename", PStr (md_filename self));
    ("file_type", PStr (md_file_type self));
    ("document_type", PStr (Access.DocumentType_value (md_document_type self)));
    ("title", opt_str (md_title self));
    ("client_name", opt_str (md_client_name self));
    ("practice_area", opt_str (md_practice_area self));
    ("author", opt_str (md_author self));
    ("created_at", PStr (md_created_at self));
    ("tags", PList (md_tags self)) ].

(** [DocumentChunk.to_vector_payload] *)
Definition to_vector_payload (self : DocumentChunk) : Dict.t pvalue :=
  let c := chunk self in
  update (metadata_to_vector_payload (Chunker.document_metadata _ _ c))
    [ ("chunk_id", PStr (chunk_id self));
      ("chunk_index", PInt (Chunker.chunk_index _ _ c));
      ("section_title", opt_str (Chunker.section_title _ _ c));
      ("heading_hierarchy", PList (Chunker.heading_hierarchy _ _ c));
      ("content_preview", PStr (PyStr.take 200 (Chunker.content _ _ c))) ].

(** The payload [add_chunks] stores with a point:
    [{**chunk.to_vector_payload(), "content": chunk.content}]. *)
Definition point_payload (self : DocumentChunk) : Dict.t pvalue :=
  Dict.set (to_vector_payload self) "content"
    (PStr (Chunker.content _ _ (chunk self))).

(** The dict the ingestion route hands to the sparse index for a chunk. *)
Definition bm25_doc (metadata : DocumentMetadata) (self : DocumentChunk)
    : Dict.t pvalue :=
  let c := chunk self in
  [ ("chunk_id", PStr (chunk_id self));
    ("document_id", PStr (Chunker.document_id _ _ c));
    ("content", PStr (Chunker.content _ _ c));
    ("filename", PStr (md_filename metadata));
    ("document_type",
     PStr (Access.DocumentType_value (md_document_type metadata)));
    ("title", opt_str (md_title metadata));
    ("section_title", opt_str (Chunker.section_title _ _ c));
    ("chunk_index", PInt (Chunker.chunk_index _ _ c)) ].

(** *** Reading a payload dict

    What [payload.get(key)] gives for the keys the retrieval code reads, as
    the record the sources work on: a text where the dict holds a text, a
    number or a list likewise, and [None] where the key is absent or holds
    [None]. *)

Definition get_str (d : Dict.t pvalue) (key : string) : option string :=
  match Dict.get d key with
  | Some (PStr s) => Some s
  | _ => None
  end.

Definition get_int (d : Dict.t pvalue) (key : string) : option nat :=
  match Dict.get d key with
  | Some (PInt n) => Some n
  | _ => None
  end.

Definition get_list (d : Dict.t pvalue) (key : string)
    : option (list string) :=
  match Dict.get d key with
  | Some (PList l) => Some l
  | _ => None
  end.

Definition read_payload (d : Dict.t pvalue) : VectorStore.payload :=
  VectorStore.mkPayload (get_str d "chunk_id") (get_str d "document_id")
    (get_str d "content")
    (mkMetadata (get_str d "filename") (get_str d "document_type")
       (get_str d "title") (get_str d "section_title")
       (get_int d "chunk_index") (get_str d "client_name")
       (get_str d "practice_area") (get_list d "tags")).

(** The point stored for a chunk, as a search returns it with a score. *)
Definition stored_hit (score : Q) (self : DocumentChunk) : VectorStore.hit :=
  VectorStore.mkHit score (Some (read_payload (point_payload self))).

(** The sparse index after the ingestion route has added the chunks of a
    document. *)
Definition index_chunks (index : BM25.BM25Index)
    (metadata : DocumentMetadata) (chunks : list DocumentChunk)
    : nat * BM25.BM25Index :=
  BM25Store.add_documents index
    (map (fun c => read_payload (bm25_doc metadata c)) chunks).

End Ingest.

(** ** The context handed to the model: [retrieve_for_context] of
    [app/retrieval/hybrid.py] *)

Module Context.

Import Documents.

(** [str(n)] *)
Definition str_of_nat (n : nat) : string :=
  NilEmpty.string_of_uint (Nat.to_uint n).

(** [sep.join(parts)] *)
Fixpoint join (sep : string) (parts : list string) : string :=
  match parts with
  | [] => EmptyString
  | [p] => p
  | p :: rest => (p ++ sep ++ join sep rest)%string
  end.

(** The header of a document in the context: its number, counted from
    1, its file name and, when it has one, its section title. *)
Definition source_info (entry : nat * RetrievedDocument) : string :=
  let (i, doc) := entry in
  let info :=
    ("[Source " ++ str_of_nat (i + 1) ++ ": " ++ filename doc)%string in
  let info :=
    match Hybrid.truthy_str (section_title doc) with
    | Some s => (info ++ " - " ++ s)%string
    | None => info
    end in
  (info ++ "]")%string.

Definition context_part (entry : nat * RetrievedDocument) : string :=
  (source_info entry ++ Intent.nl ++ content (snd entry))%string.

Definition separator : string :=
  (Intent.nl ++ Intent.nl ++ "---" ++ Intent.nl ++ Intent.nl)%string.

Section RetrieveForContext.

(** [self.retrieve] *)
Variable retrieve :
  string -> Security.UserRole -> nat -> option string -> option string ->
  option (list string) -> result (list RetrievedDocument).

Definition retrieve_for_context (query : string)
    (user_role : Security.UserRole) (max_tokens : nat)
    (client_name practice_area : option string)
    (document_types : option (list string))
    : result (list RetrievedDocument * string) :=
  let docs_to_fetch := Nat.max (max_tokens / 500) 3 in
  (documents <-
     retrieve query user_role docs_to_fetch client_name practice_area
       document_types ;;
   Ok (documents,
       join separator (map context_part (enumerate documents))))%result.

End RetrieveForContext.

End Context.

(** ** Where the blocks of a text lie *)

Module Offsets.

(** The texts of [blocks] occur in [t] one after the other, without
    overlap, the first one at position [from] or later. *)
Fixpoint in_order (blocks : list string) (t : string) (from : nat) : Prop :=
  match blocks with
  | [] => True
  | b :: rest =>
      exists before after,
        t = (before ++ b ++ after)%string
        /\ from <= String.length before
        /\ in_order rest t (String.length before + String.length b)
  end.

End Offsets.

(** ** The embedding service: [app/ingestion/embedder.py] *)

Module Embedder.

Import Documents.

(** An embedding: a list of numbers. *)
Definition embedding : Type := list Q.

Definition MAX_BATCH_SIZE : nat := 100.

(** [l[i] = v] for an index inside the list; the indices used below come
    from [enumerate] over a list of the same length. *)
Fixpoint list_set {A : Type} (l : list A) (i : nat) (v : A) : list A :=
  match l, i with
  | [], _ => []
  | _ :: l', O => v :: l'
  | x :: l', S i' => x :: list_set l' i' v
  end.

(** [range(0, n, step)] for [0 < step] *)
Definition range_step (n step : nat) : list nat :=
  map (fun k => k * step) (seq 0 ((n + step - 1) / step)).

(** [l[a:a + n]] *)
Definition slice {A : Type} (l : list A) (a n : nat) : list A :=
  firstn n (skipn a l).

(** [zip(a, b, c)] *)
Fixpoint zip3 {A B C : Type} (a : list A) (b : list B) (c : list C)
    : list (A * B * C) :=
  match a, b, c with
  | x :: a', y :: b', z :: c' => (x, y, z) :: zip3 a' b' c'
  | _, _, _ => []
  end.

(** [[r for r in results if r is not None]] *)
Definition not_none {A : Type} (results : list (option A)) : list A :=
  flat_map (fun r => match r with Some e => [e] | None => [] end) results.

(** The cache of the service, keyed by [_cache_key]. *)
Definition cache : Type := Dict.t embedding.

(** What a call of the service does: what it returns or raises, the cache
    afterwards, and the lists of texts handed to the provider during the
    call, in order. *)
Record outcome (A : Type) : Type := mkOutcome {
  returned : result A;
  cache_after : cache;
  provider_calls : list (list string)
}.

Arguments mkOutcome {A} _ _ _.
Arguments returned {A} _.
Arguments cache_after {A} _.
Arguments provider_calls {A} _.

Section Service.

(** [_cache_key], the MD5 digest of the text in hexadecimal, and the
    provider's [embed_texts]. *)
Variable _cache_key : string -> string.
Variable provider_embed_texts : list string -> result (list embedding).

(** [EmbeddingProvider.embed_text] *)
Definition provider_embed_text (text : string) : result embedding :=
  (embeddings <- provider_embed_texts [text] ;;
   match embeddings with
   | e :: _ => Ok e
   | [] => Raise IndexError
   end)%result.

(** [EmbeddingService.embed_text] *)
Definition embed_text (self : cache) (text : string) (use_cache : bool)
    : outcome embedding :=
  let cache_key := _cache_key text in
  match (if use_cache then Dict.get self cache_key else None) with
  | Some e => mkOutcome (Ok e) self []
  | None =>
      match provider_embed_text text with
      | Ok e =>
          mkOutcome (Ok e)
            (if use_cache then Dict.set self cache_key e else self) [[text]]
      | Raise e => mkOutcome (Raise e) self [[text]]
      end
  end.

(** The first loop of [embed_texts]: the results found in the cache, and
    the texts still to embed with their positions. *)
Definition check_cache (self : cache) (texts : list string)
    : list (option embedding) * list (nat * string) :=
  fold_left
    (fun (acc : list (option embedding) * list (nat * string))
         (item : nat * string) =>
       let (results, texts_to_embed) := acc in
       let (i, text) := item in
       match Dict.get self (_cache_key text) with
       | Some e => (list_set results i (Some e), texts_to_embed)
       | None => (results, texts_to_embed ++ [(i, text)])
       end)
    (enumerate texts) (repeat None (List.length texts), []).

(** The inner loop over one batch and the embeddings returned for it. *)
Definition store_batch (use_cache : bool)
    (acc : list (option embedding) * cache)
    (items : list (nat * string * embedding))
    : list (option embedding) * cache :=
  fold_left
    (fun (acc : list (option embedding) * cache)
         (item : nat * string * embedding) =>
       let (results, self) := acc in
       let '(idx, text, e) := item in
       (list_set results idx (Some e),
        if use_cache then Dict.set self (_cache_key text) e else self))
    items acc.

(** The loop over the batches; a failure of the provider ends it. *)
Fixpoint run_batches (use_cache : bool) (texts_to_embed : list (nat * string))
    (starts : list nat) (results : list (option embedding)) (self : cache)
    (calls : list (list string))
    : outcome (list (option embedding)) :=
  match starts with
  | [] => mkOutcome (Ok results) self calls
  | batch_start :: rest =>
      let batch := slice texts_to_embed batch_start MAX_BATCH_SIZE in
      let batch_indices := map fst batch in
      let batch_texts := map snd batch in
      match provider_embed_texts batch_texts with
      | Raise e => mkOutcome (Raise e) self (calls ++ [batch_texts])
      | Ok batch_embeddings =>
          let (results', self') :=
            store_batch use_cache (results, self)
              (zip3 batch_indices batch_texts batch_embeddings) in
          run_batches use_cache texts_to_embed rest results' self'
            (calls ++ [batch_texts])
      end
  end.

(** [EmbeddingService.embed_texts] *)
Definition embed_texts (self : cache) (texts : list string) (use_cache : bool)
    : outcome (list embedding) :=
  match texts with
  | [] => mkOutcome (Ok []) self []
  | _ :: _ =>
      let (results, texts_to_embed) :=
        if use_cache then check_cache self texts
        else (repeat None (List.length texts), enumerate texts) in
      let o :=
        run_batches use_cache texts_to_embed
          (range_step (List.length texts_to_embed) MAX_BATCH_SIZE)
          results self [] in
      mkOutcome (results <- returned o ;; Ok (not_none results))%result
        (cache_after o) (provider_calls o)
  end.

(** [EmbeddingService.clear_cache] *)
Definition clear_cache (self : cache) : cache := [].

End Service.

End Embedder.

(** ** Further sample values for the concrete evaluations *)

Module Fixtures.

Definition sparse_only : Hybrid.HybridSearchConfig :=
  Hybrid.mkHybridSearchConfig (7#10) (3#10) 60 false true.

Definition memo_metadata : Ingest.DocumentMetadata :=
  Ingest.mkDocumentMetadata "9f1c2b7e-0c4d-4a51-8f0e-2f6c1f3d7a10"
    "pricing-memo.md" "md" Access.PLAYBOOK (Some "Pricing memo")
    (Some "Acme Corp") (Some "strategy") None "2024-03-01T09:30:00"
    ["pricing"].

Definition memo_chunk : Ingest.DocumentChunk :=
  Ingest.mkDocumentChunk "4b825dc6-42a1-4f0e-9a77-1d2e3f4a5b6c"
    (Chunker.mkDocumentChunk string Ingest.DocumentMetadata
       "9f1c2b7e-0c4d-4a51-8f0e-2f6c1f3d7a10"
       "Pricing playbook for client discussions." 0 0 40
       (Some "Pricing") ["Pricing"] memo_metadata 10).

(** The sparse index after the ingestion route has added the chunk. *)
Definition ingested_index : BM25.BM25Index :=
  snd (Ingest.index_chunks BM25Store.new_index memo_metadata [memo_chunk]).

End Fixtures.

(** * Properties *)

(** ** Role parsing *)

Lemma UserRole_of_value_unknown (v : string) :
  v <> "analyst" -> v <> "consultant" -> v <> "partner" ->
  Security.UserRole_of_value v = Raise ValueError.
Proof.
  intros Ha Hc Hp. unfold Security.UserRole_of_value.
  apply String.eqb_neq in Ha, Hc, Hp.
  now rewrite Ha, Hc, Hp.
Qed.

(** C10. A role string whose lower-cased form is none of "analyst",
    "consultant", "partner" does not make [from_string] raise: it yields
    [ANALYST], so [get_current_user] builds an analyst user, whose accessible
    document types are exactly the four analyst-level ones. *)
Theorem from_string_unknown_is_analyst (role_str uid : string)
    (mail : option string) :
  PyStr.lower role_str <> "analyst" ->
  PyStr.lower role_str <> "consultant" ->
  PyStr.lower role_str <> "partner" ->
  Security.from_string role_str = Ok Security.ANALYST /\
  Security.get_current_user uid role_str mail
    = Ok (Security.mkUser uid Security.ANALYST mail None) /\
  (forall u, Security.get_current_user uid role_str mail = Ok u ->
     Security.get_role_filter (Security.role u)
       = ["playbook"; "guideline"; "template"; "training"]).
Proof.
  intros Ha Hc Hp.
  assert (Hfs : Security.from_string role_str = Ok Security.ANALYST).
  { unfold Security.from_string.
    now rewrite (UserRole_of_value_unknown _ Ha Hc Hp). }
  assert (Hcu : Security.get_current_user uid role_str mail
                = Ok (Security.mkUser uid Security.ANALYST mail None)).
  { unfold Security.get_current_user. now rewrite Hfs. }
  repeat split; auto.
  intros u Hu. rewrite Hcu in Hu. injection Hu as <-. reflexivity.
Qed.

Lemma from_string_unknown_is_analyst_witness :
  Security.from_string "Administrator" = Ok Security.ANALYST /\
  Security.get_current_user "dev-user" "Administrator" None
    = Ok (Security.mkUser "dev-user" Security.ANALYST None None) /\
  (forall u, Security.get_current_user "dev-user" "Administrator" None = Ok u ->
     Security.get_role_filter (Security.role u)
       = ["playbook"; "guideline"; "template"; "training"]).
Proof.
  apply (from_string_unknown_is_analyst "Administrator" "dev-user" None);
    vm_compute; discriminate.
Defined.

(** ** The matcher finds exactly the matches *)

Section MatcherFacts.

Variable ic : bool.

Local Abbreviation run := (Regex.run ic).
Local Abbreviation matches := (Regex.matches ic).

Lemma star_loop_sound (ma : Regex.matcher) (r : Regex.regex)
    (k : option ascii -> string -> bool) :
  (forall prev s k', ma prev s k' = true ->
     exists prev' s', matches r prev s prev' s' /\ k' prev' s' = true) ->
  forall fuel prev s,
    Regex.star_loop ma k fuel prev s = true ->
    exists prev' s', matches (Regex.RStar r) prev s prev' s'
                     /\ k prev' s' = true.
Proof.
  intros Hma. induction fuel as [|fuel IH]; intros prev s H; simpl in H.
  - destruct (k prev s) eqn:E; [|discriminate].
    exists prev, s. split; [apply Regex.M_star_stop|exact E].
  - destruct (k prev s) eqn:E.
    + exists prev, s. split; [apply Regex.M_star_stop|exact E].
    + apply Hma in H. destruct H as (prev1 & s1 & Hm & H).
      destruct (String.length s1 <? String.length s)%nat; [|discriminate].
      apply IH in H. destruct H as (prev2 & s2 & Hs & Hk).
      exists prev2, s2. split; [|exact Hk].
      eapply Regex.M_star_more; eassumption.
Qed.

Lemma run_sound (r : Regex.regex) :
  forall prev s k, run r prev s k = true ->
    exists prev' s', matches r prev s prev' s' /\ k prev' s' = true.
Proof.
  induction r as [ |c| |neg items|r1 IH1 r2 IH2|r1 IH1 r2 IH2|r1 IH1|r1 IH1
                  |r1 IH1| | | ]; intros prev s k H; simpl in H.
  - exists prev, s. split; [constructor|exact H].
  - destruct s as [|x s]; [discriminate|].
    destruct (Regex.char_matches ic c x) eqn:E; [|discriminate].
    exists (Some x), s. split; [now constructor|exact H].
  - destruct s as [|x s]; [discriminate|].
    destruct (PyStr.code x =? 10)%nat eqn:E; [discriminate|].
    exists (Some x), s. split; [now constructor|exact H].
  - destruct s as [|x s]; [discriminate|].
    destruct (xorb neg (Regex.set_matches ic items x)) eqn:E; [|discriminate].
    exists (Some x), s. split; [now constructor|exact H].
  - apply IH1 in H. destruct H as (prev1 & s1 & H1 & H).
    apply IH2 in H. destruct H as (prev2 & s2 & H2 & H).
    exists prev2, s2. split; [econstructor; eassumption|exact H].
  - destruct (run r1 prev s k) eqn:E.
    + apply IH1 in E. destruct E as (prev' & s' & Hm & Hk).
      exists prev', s'. split; [now apply Regex.M_alt_l|exact Hk].
    + apply IH2 in H. destruct H as (prev' & s' & Hm & Hk).
      exists prev', s'. split; [now apply Regex.M_alt_r|exact Hk].
  - eapply star_loop_sound; [exact IH1|exact H].
  - apply IH1 in H. destruct H as (prev1 & s1 & H1 & H).
    apply (star_loop_sound _ r1 _ IH1) in H.
    destruct H as (prev2 & s2 & H2 & H).
    exists prev2, s2. split; [econstructor; eassumption|exact H].
  - destruct (run r1 prev s k) eqn:E.
    + apply IH1 in E. destruct E as (prev' & s' & Hm & Hk).
      exists prev', s'. split; [now apply Regex.M_opt_some|exact Hk].
    + exists prev, s. split; [apply Regex.M_opt_none|exact H].
  - destruct (xorb _ _) eqn:E; [|discriminate].
    exists prev, s. split; [now constructor|exact H].
  - destruct prev; [discriminate|].
    exists None, s. split; [constructor|exact H].
  - destruct s as [|x [|y s]]; try discriminate.
    + exists prev, EmptyString. split; [constructor|exact H].
    + destruct (PyStr.code x =? 10)%nat eqn:E; [|discriminate].
      exists prev, (String x EmptyString). split; [now constructor|exact H].
Qed.

(** A match never lengthens the rest, and a match that reads nothing
    leaves the position where it is. *)
Lemma matches_progress (r : Regex.regex) (prev : option ascii) (s : string)
    (prev' : option ascii) (s' : string) :
  matches r prev s prev' s' ->
  (String.length s' <= String.length s)%nat
  /\ (String.length s' = String.length s -> prev' = prev /\ s' = s).
Proof.
  induction 1; simpl; try (split; [lia|intros; try lia; now split]).
  - destruct IHmatches1 as [L1 E1], IHmatches2 as [L2 E2].
    split; [lia|]. intros E.
    assert (Ea : String.length s1 = String.length s) by lia.
    assert (Eb : String.length s2 = String.length s1) by lia.
    destruct (E1 Ea) as [-> ->]. now apply E2.
  - exact IHmatches.
  - exact IHmatches.
  - destruct IHmatches1 as [L1 E1], IHmatches2 as [L2 E2].
    split; [lia|]. intros E.
    assert (Ea : String.length s1 = String.length s) by lia.
    assert (Eb : String.length s2 = String.length s1) by lia.
    destruct (E1 Ea) as [-> ->]. now apply E2.
  - destruct IHmatches1 as [L1 E1], IHmatches2 as [L2 E2].
    split; [lia|]. intros E.
    assert (Ea : String.length s1 = String.length s) by lia.
    assert (Eb : String.length s2 = String.length s1) by lia.
    destruct (E1 Ea) as [-> ->]. now apply E2.
  - exact IHmatches.
Qed.

Lemma star_loop_complete (r : Regex.regex) :
  (forall prev s k prev' s',
     matches r prev s prev' s' -> k prev' s' = true ->
     run r prev s k = true) ->
  forall prev s prev' s',
    matches (Regex.RStar r) prev s prev' s' ->
    forall k fuel,
      k prev' s' = true -> (String.length s <= fuel)%nat ->
      Regex.star_loop (run r) k fuel prev s = true.
Proof.
  intros Hr prev s prev' s' Hm.
  remember (Regex.RStar r) as rs eqn:Ers.
  induction Hm as [ | | | | | | | r0 p0 s0
                  | r0 p0 s0 p1 s1 p2 s2 Hstep _ Hrest IH
                  | | | | | | | ]; try discriminate; injection Ers as ->.
  - intros k fuel Hk _. destruct fuel; simpl; now rewrite Hk.
  - intros k fuel Hk Hfuel.
    destruct (matches_progress _ _ _ _ _ Hstep) as [Hle Hsame].
    destruct (Nat.eq_dec (String.length s1) (String.length s0)) as [E|E].
    + destruct (Hsame E) as [-> ->]. now apply IH.
    + destruct fuel as [|fuel]; [lia|]. simpl.
      destruct (k p0 s0); [reflexivity|].
      apply (Hr _ _ _ _ _ Hstep).
      assert (L : (String.length s1 <? String.length s0)%nat = true)
        by (apply Nat.ltb_lt; lia).
      rewrite L. apply IH; [reflexivity|exact Hk|lia].
Qed.

Lemma run_complete (r : Regex.regex) :
  forall prev s k prev' s',
    matches r prev s prev' s' -> k prev' s' = true -> run r prev s k = true.
Proof.
  induction r as [ |c| |neg items|r1 IH1 r2 IH2|r1 IH1 r2 IH2|r1 IH1|r1 IH1
                  |r1 IH1| | | ]; intros prev s k prev' s' Hm Hk.
  - inversion Hm; subst. exact Hk.
  - inversion Hm; subst. simpl.
    match goal with H : Regex.char_matches _ _ _ = true |- _ => rewrite H end.
    exact Hk.
  - inversion Hm; subst. simpl.
    match goal with H : (_ =? 10)%nat = false |- _ => rewrite H end.
    exact Hk.
  - inversion Hm; subst. simpl.
    match goal with H : xorb _ _ = true |- _ => rewrite H end.
    exact Hk.
  - inversion Hm; subst. simpl.
    eapply IH1; [eassumption|]. eapply IH2; eassumption.
  - inversion Hm; subst; simpl.
    + erewrite IH1; [reflexivity|eassumption|exact Hk].
    + destruct (run r1 prev s k); [reflexivity|].
      eapply IH2; eassumption.
  - simpl. eapply (star_loop_complete r1 IH1); [exact Hm|exact Hk|lia].
  - inversion Hm; subst. simpl.
    eapply IH1; [eassumption|].
    eapply (star_loop_complete r1 IH1); [eassumption|exact Hk|lia].
  - inversion Hm; subst; simpl.
    + erewrite IH1; [reflexivity|eassumption|exact Hk].
    + destruct (run r1 prev' s' k); [reflexivity|exact Hk].
  - inversion Hm; subst. simpl.
    match goal with H : xorb _ _ = true |- _ => rewrite H end.
    exact Hk.
  - inversion Hm; subst. exact Hk.
  - inversion Hm; subst; simpl; [exact Hk|].
    match goal with H : (_ =? 10)%nat = true |- _ => rewrite H end.
    exact Hk.
Qed.

(** The search succeeds exactly when the expression matches from some
    position of the text. *)
Lemma search_from_spec (r : Regex.regex) (s : string) (prev : option ascii) :
  Regex.search_from ic r prev s = true <->
  exists before after prev' s',
    s = (before ++ after)%string
    /\ matches r (Regex.prev_at prev before) after prev' s'.
Proof.
  split.
  - revert prev. induction s as [|x s IH]; intros prev H; simpl in H.
    + destruct (run r prev EmptyString (fun _ _ => true)) eqn:E;
        [|discriminate].
      apply run_sound in E. destruct E as (prev' & s' & Hm & _).
      now exists EmptyString, EmptyString, prev', s'.
    + destruct (run r prev (String x s) (fun _ _ => true)) eqn:E.
      * apply run_sound in E. destruct E as (prev' & s' & Hm & _).
        now exists EmptyString, (String x s), prev', s'.
      * apply IH in H.
        destruct H as (before & after & prev' & s' & -> & Hm).
        now exists (String x before), after, prev', s'.
  - intros (before & after & prev' & s' & -> & Hm).
    revert prev Hm. induction before as [|x before IH]; intros prev Hm.
    + simpl in *.
      assert (E : run r prev after (fun _ _ => true) = true)
        by (eapply run_complete; [exact Hm|reflexivity]).
      destruct after; simpl; now rewrite E.
    + simpl.
      destruct (run r prev _ (fun _ _ => true)); [reflexivity|].
      now apply IH.
Qed.

End MatcherFacts.

(** ** Rule-based intent detection *)

(** Every pattern of the table lies in the supported fragment. *)
Lemma INTENT_PATTERNS_compile :
  forallb
    (fun entry : Intent.TaskType * list Intent.pattern =>
       forallb
         (fun p => match Regex.compile (Intent.source p) with
                   | Some _ => true
                   | None => false
                   end)
         (snd entry))
    Intent.INTENT_PATTERNS = true.
Proof. vm_compute. reflexivity. Qed.

(** Queries of the unit tests on which the rules answer as the tests
    expect. *)
Example rules_identify_risks :
  Intent._detect_with_rules "Identify the risks in this engagement"
  = Intent.mkIntentMatch Intent.RISK_ANALYSIS (Fin 1)
      ["\bidentify\b.*\brisks?\b"] "rule".
Proof. vm_compute. reflexivity. Qed.

Example rules_risks_in_deal :
  Intent._detect_with_rules "What are the risks in this deal?"
  = Intent.mkIntentMatch Intent.RISK_ANALYSIS (Fin (9#10))
      ["\bwhat\s+are\s+the\s+risks?\b"] "rule".
Proof. vm_compute. reflexivity. Qed.

(** The answers of the rules on the other queries listed in
    [tests/unit/test_intent.py], as task type and confidence. *)
Example rules_on_test_queries :
  map (fun q => let m := Intent._detect_with_rules q in
                (Intent.task_type m, Intent.confidence m))
    [ "Risk analysis for the merger";
      "What potential issues should we consider?";
      "Summarize the client background";
      "Give me a client summary";
      "Client overview for Acme Corp";
      "What do you recommend?";
      "Draft recommendations for the board";
      "Create an executive summary";
      "Executive briefing for the CEO";
      "High-level overview for leadership";
      "Prepare talking points for the meeting";
      "What should I say in the presentation?";
      "Key messages for the board";
      "What are the action items?";
      "List the next steps";
      "Extract to-do items from the notes";
      "Compare the two options";
      "What are the pros and cons?";
      "What is the meaning of this document?";
      "Help me with this";
      "What are the risks? #important @urgent!";
      "RISK ANALYSIS" ]
  = [ (Intent.RISK_ANALYSIS, Fin 1);
      (Intent.RISK_ANALYSIS, Fin (7#10));
      (Intent.SUMMARIZE_CLIENT, Fin 1);
      (Intent.SUMMARIZE_CLIENT, Fin 1);
      (Intent.SUMMARIZE_CLIENT, Fin (9#10));
      (Intent.DRAFT_RECOMMENDATIONS, Fin (9#10));
      (Intent.DRAFT_RECOMMENDATIONS, Fin 1);
      (Intent.EXECUTIVE_SUMMARY, Fin 1);
      (Intent.EXECUTIVE_SUMMARY, Fin (8#10));
      (Intent.EXECUTIVE_SUMMARY, Fin (8#10));
      (Intent.TALKING_POINTS, Fin 1);
      (Intent.TALKING_POINTS, Fin (7#10));
      (Intent.TALKING_POINTS, Fin (8#10));
      (Intent.ACTION_ITEMS, Fin 1);
      (Intent.ACTION_ITEMS, Fin (9#10));
      (Intent.ACTION_ITEMS, Fin (9#10));
      (Intent.COMPARE_APPROACHES, Fin 1);
      (Intent.COMPARE_APPROACHES, Fin (9#10));
      (Intent.QUESTION_ANSWER, Fin (3#10));
      (Intent.QUESTION_ANSWER, Fin (3#10));
      (Intent.RISK_ANALYSIS, Fin (9#10));
      (Intent.RISK_ANALYSIS, Fin 1) ].
Proof. vm_compute. reflexivity. Qed.

Example rules_empty_query :
  Intent._detect_with_rules ""
  = Intent.mkIntentMatch Intent.QUESTION_ANSWER (Fin (3#10)) [] "rule".
Proof. vm_compute. reflexivity. Qed.

(** C1. On the query "What are the key risks for this project?" no
    risk-analysis pattern matches (the word "key" stands between "the" and
    "risks"); only the two question-answering patterns do, so the rules
    return the question-answering category with confidence 0.3, which is
    below 0.6.  The method is "rule". *)
Theorem detect_with_rules_key_risks :
  Intent._detect_with_rules "What are the key risks for this project?"
  = Intent.mkIntentMatch Intent.QUESTION_ANSWER (Fin (3#10))
      ["^\s*(what|who|when|where|why|how)\b"; "\?$"] "rule"
  /\ Intent.task_type
       (Intent._detect_with_rules "What are the key risks for this project?")
     <> Intent.RISK_ANALYSIS
  /\ float_ge
       (Intent.confidence
          (Intent._detect_with_rules "What are the key risks for this project?"))
       Intent.RULE_CONFIDENCE_THRESHOLD = false
  /\ forallb
       (fun p => negb (Intent.pattern_search p
                         "What are the key risks for this project?"))
       [ Intent.pat "\brisk\s+(analysis|assessment|evaluation)\b" 1;
         Intent.pat "\bidentify\b.*\brisks?\b" 1;
         Intent.pat "\bwhat\s+are\s+the\s+risks?\b" (9#10);
         Intent.pat "\brisk\s+factors?\b" (8#10);
         Intent.pat "\bpotential\s+(issues?|problems?|risks?)\b" (7#10) ]
     = true.
Proof.
  assert (H : Intent._detect_with_rules "What are the key risks for this project?"
              = Intent.mkIntentMatch Intent.QUESTION_ANSWER (Fin (3#10))
                  ["^\s*(what|who|when|where|why|how)\b"; "\?$"] "rule")
    by (vm_compute; reflexivity).
  rewrite H. split; [reflexivity|]. split; [simpl; discriminate|].
  split; vm_compute; reflexivity.
Qed.

(** ** Escalation to the model-based classifier *)

Lemma float_lt_asym (a b : pyfloat) :
  float_lt a b = true -> float_lt b a = false.
Proof.
  destruct a as [x| | |], b as [y| | |]; simpl; try discriminate; auto.
  unfold Qlt_bool. intros H. apply negb_true_iff in H.
  apply negb_false_iff.
  destruct (Qle_bool x y) eqn:E; auto.
  exfalso.
  assert (Hxy : ~ (x <= y)%Q) by (intro K; apply Qle_bool_iff in K; congruence).
  assert (Hyx : ~ (y <= x)%Q) by (intro K; apply Qle_bool_iff in K; congruence).
  apply Hxy. apply Qlt_le_weak. now apply Qnot_le_lt.
Qed.




(** ** Response parsing *)

(** With a schema that rejects it, the valid JSON text [{}] comes back as
    the parsed object, without a [validation_error] entry. *)
Lemma parse_response_invalid_shape_counterexample :
  Samples.loads_empty_object (Orchestrator.strip_fence "{}")
    = Ok (Orchestrator.JObj [])
  /\ Samples.requires_summary
       (Orchestrator.get_output_model (Intent.value Intent.QUESTION_ANSWER))
       (Orchestrator.JObj [])
     = Raise (ValidationError "1 validation error: summary: Field required")
  /\ Orchestrator._parse_response Samples.loads_empty_object
       Samples.requires_summary true "{}" Intent.QUESTION_ANSWER
     = Ok (Orchestrator.JObj [])
  /\ Orchestrator.has_key (Orchestrator.JObj []) "validation_error" = false.
Proof. repeat split; vm_compute; reflexivity. Qed.

(** C2 (amended). With structured output enabled, a model output whose
    cleaned text parses as JSON but fails the validation against the
    task's schema makes [_parse_response] return exactly the parsed JSON,
    with nothing added. *)
Theorem parse_response_validation_failure
    (json_loads : string -> result Orchestrator.json)
    (model_validate :
       Orchestrator.OutputModel -> Orchestrator.json -> result Orchestrator.json)
    (raw_response : string) (task_type : Intent.TaskType)
    (parsed : Orchestrator.json) (msg : string) :
  json_loads (Orchestrator.strip_fence raw_response) = Ok parsed ->
  model_validate (Orchestrator.get_output_model (Intent.value task_type)) parsed
    = Raise (ValidationError msg) ->
  Orchestrator._parse_response json_loads model_validate true raw_response
    task_type
  = Ok parsed.
Proof.
  intros Hloads Hval.
  unfold Orchestrator._parse_response. simpl negb. cbv iota.
  rewrite Hloads. simpl bind. rewrite Hval.
  unfold try_except2. simpl.
  unfold Orchestrator.on_validation_error.
  rewrite Hloads. reflexivity.
Qed.

Lemma parse_response_validation_failure_witness :
  Orchestrator._parse_response Samples.loads_empty_object
    Samples.requires_summary true "{}" Intent.RISK_ANALYSIS
  = Ok (Orchestrator.JObj []).
Proof.
  apply (parse_response_validation_failure Samples.loads_empty_object
           Samples.requires_summary "{}" Intent.RISK_ANALYSIS
           (Orchestrator.JObj [])
           "1 validation error: summary: Field required");
    vm_compute; reflexivity.
Defined.

(** As long as [json.loads] raises nothing but [JSONDecodeError] on the
    cleaned text and the validator nothing but [ValidationError], the
    parse stage returns. *)
Lemma parse_response_total
    (json_loads : string -> result Orchestrator.json)
    (model_validate :
       Orchestrator.OutputModel -> Orchestrator.json -> result Orchestrator.json)
    (enabled : bool) (raw_response : string) (task_type : Intent.TaskType) :
  (forall e, json_loads (Orchestrator.strip_fence raw_response) = Raise e ->
             is_JSONDecodeError e = true) ->
  (forall m value e, model_validate m value = Raise e ->
                     is_ValidationError e = true) ->
  exists value,
    Orchestrator._parse_response json_loads model_validate enabled
      raw_response task_type = Ok value.
Proof.
  intros Hdecode Hvalid.
  unfold Orchestrator._parse_response.
  destruct enabled; simpl negb; cbv iota; [|eexists; reflexivity].
  set (cleaned := Orchestrator.strip_fence raw_response) in *.
  destruct (json_loads cleaned) as [parsed|e] eqn:Hloads; simpl.
  - destruct (model_validate _ parsed) as [dumped|e] eqn:Hval; simpl;
      [eexists; reflexivity|].
    rewrite (Hvalid _ _ _ Hval).
    destruct (is_JSONDecodeError e).
    + unfold Orchestrator.on_decode_error.
      destruct (Orchestrator.brace_span cleaned) as [span|]; simpl;
        [|eexists; reflexivity].
      destruct (json_loads span); simpl; eexists; reflexivity.
    + unfold Orchestrator.on_validation_error.
      rewrite Hloads. simpl. eexists; reflexivity.
  - rewrite (Hdecode _ eq_refl).
    unfold Orchestrator.on_decode_error.
    destruct (Orchestrator.brace_span cleaned) as [span|]; simpl;
      [|eexists; reflexivity].
    destruct (json_loads span); simpl; eexists; reflexivity.
Qed.

(** An exception of another class raised by [json.loads] on the cleaned
    text is caught by neither handler: it leaves the parse stage, and the
    pipeline reports a failure. *)
Lemma parse_response_propagates
    (json_loads : string -> result Orchestrator.json)
    (model_validate :
       Orchestrator.OutputModel -> Orchestrator.json -> result Orchestrator.json)
    (raw_response : string) (task_type : Intent.TaskType) (e : exn) :
  json_loads (Orchestrator.strip_fence raw_response) = Raise e ->
  is_JSONDecodeError e = false ->
  is_ValidationError e = false ->
  Orchestrator._parse_response json_loads model_validate true raw_response
    task_type = Raise e.
Proof.
  intros Hloads Hd Hv.
  unfold Orchestrator._parse_response. simpl negb. cbv iota.
  rewrite Hloads. simpl. now rewrite Hd, Hv.
Qed.

(** Two thousand opening brackets, a truncated JSON text: [json.loads]
    raises [RecursionError], the parse stage raises it too, and the
    outcome of the query has [success] false. *)
Example parse_response_deep_nesting :
  let raw := PyStr.repeat_str "[" 2000 in
  let r :=
    Orchestrator.process_query Samples.loads_nesting_limit
      Samples.requires_summary true true Samples.no_float
      (Samples.answers raw) (1#10) 2048
      Samples.retrieve_nothing Samples.prompt_pair
      (Samples.request_with_task "What is our fee policy?")
      Samples.analyst_user in
  Orchestrator._parse_response Samples.loads_nesting_limit
    Samples.requires_summary true raw Intent.QUESTION_ANSWER
  = Raise (RecursionError
             "maximum recursion depth exceeded while decoding a JSON array from a unicode string")
  /\ Orchestrator.success r = false
  /\ Orchestrator.error r
     = Some "maximum recursion depth exceeded while decoding a JSON array from a unicode string".
Proof. repeat split; vm_compute; reflexivity. Qed.

Lemma parse_response_malformed
    (json_loads : string -> result Orchestrator.json)
    (model_validate :
       Orchestrator.OutputModel -> Orchestrator.json -> result Orchestrator.json)
    (raw_response : string) (task_type : Intent.TaskType) (msg : string) :
  json_loads (Orchestrator.strip_fence raw_response)
    = Raise (JSONDecodeError msg) ->
  Orchestrator._parse_response json_loads model_validate true raw_response
    task_type
  = Ok match Orchestrator.brace_span (Orchestrator.strip_fence raw_response) with
       | Some span =>
           match json_loads span with
           | Ok value => value
           | Raise _ =>
               Orchestrator.narrative_fallback
                 (Orchestrator.strip_fence raw_response) (JSONDecodeError msg)
           end
       | None =>
           Orchestrator.narrative_fallback
             (Orchestrator.strip_fence raw_response) (JSONDecodeError msg)
       end.
Proof.
  intros Hloads. unfold Orchestrator._parse_response. simpl negb. cbv iota.
  rewrite Hloads. simpl.
  unfold Orchestrator.on_decode_error.
  destruct (Orchestrator.brace_span _) as [span|]; simpl; [|reflexivity].
  destruct (json_loads span); reflexivity.
Qed.

(** Malformed text around a JSON object: the object is extracted and
    returned as it is, so the response holds neither a parse-error note
    nor the raw text. *)
Lemma parse_response_extraction_counterexample :
  Samples.loads_empty_object
    (Orchestrator.strip_fence "Here is the result: {}")
    = Raise (JSONDecodeError "Expecting value: line 1 column 1 (char 0)")
  /\ Orchestrator._parse_response Samples.loads_empty_object
       Samples.requires_summary true "Here is the result: {}"
       Intent.QUESTION_ANSWER
     = Ok (Orchestrator.JObj [])
  /\ Orchestrator.has_key (Orchestrator.JObj []) "parse_error" = false
  /\ Orchestrator.has_key (Orchestrator.JObj []) "raw_response" = false
  /\ Orchestrator.response
       (Orchestrator.process_query Samples.loads_empty_object
          Samples.requires_summary true true Samples.no_float
          (Samples.answers "Here is the result: {}") (1#10) 2048
          Samples.retrieve_nothing Samples.prompt_pair
          (Samples.request_with_task "What is our fee policy?")
          Samples.analyst_user)
     = Orchestrator.JObj [].
Proof. repeat split; vm_compute; reflexivity. Qed.

Lemma narrative_fallback_fields (cleaned : string) (msg : string) :
  let out := Orchestrator.narrative_fallback cleaned (JSONDecodeError msg) in
  Orchestrator.field out "parse_error" = Some (Orchestrator.JStr msg)
  /\ Orchestrator.field out "raw_response" = Some (Orchestrator.JStr cleaned)
  /\ Orchestrator.field out "summary"
     = Some (Orchestrator.JStr (PyStr.take 500 cleaned)).
Proof. repeat split. Qed.

(** Once retrieval, prompt building and generation have succeeded and the
    reported confidence lies in [0, 1], a parsed response that is a dict
    gives a successful outcome that carries it. *)
Lemma process_query_success
    (json_loads : string -> result Orchestrator.json)
    (model_validate :
       Orchestrator.OutputModel -> Orchestrator.json -> result Orchestrator.json)
    (structured intent_enabled : bool) (py_float : string -> result pyfloat)
    (llm_generate : string -> option string -> Q -> nat -> result string)
    (temperature : Q) (max_tokens : nat)
    (retrieve_for_context :
       string -> Security.UserRole -> nat -> option string -> option string ->
       option (list string) ->
       result (list Documents.RetrievedDocument * string))
    (build_prompt :
       Intent.TaskType -> string -> string -> string -> option string ->
       result (string * string))
    (request : Orchestrator.QueryRequest) (user : Security.User)
    (docs : list Documents.RetrievedDocument) (ctx sys usr raw : string)
    (fields : list (string * Orchestrator.json)) :
  let intent :=
    Orchestrator.resolve_intent intent_enabled py_float llm_generate request in
  retrieve_for_context (Orchestrator.query request) (Security.role user) 4000
    (Orchestrator.req_client_name request)
    (Orchestrator.req_practice_area request)
    (Orchestrator.req_document_types request) = Ok (docs, ctx) ->
  build_prompt (fst intent) (Orchestrator.query request)
    (Orchestrator.context_for docs ctx)
    (Security.value (Security.role user))
    (Orchestrator.req_client_name request) = Ok (sys, usr) ->
  llm_generate usr (Some sys) temperature max_tokens = Ok raw ->
  float_le (Fin 0) (snd intent) = true ->
  float_le (snd intent) (Fin 1) = true ->
  Orchestrator._parse_response json_loads model_validate structured raw
    (fst intent) = Ok (Orchestrator.JObj fields) ->
  let r :=
    Orchestrator.process_query json_loads model_validate structured
      intent_enabled py_float llm_generate temperature max_tokens
      retrieve_for_context build_prompt request user in
  Orchestrator.success r = true
  /\ Orchestrator.error r = None
  /\ Orchestrator.response r = Orchestrator.JObj fields.
Proof.
  intros intent Hret Hbuild Hgen Hlo Hhi Hparse r. subst r.
  unfold Orchestrator.process_query. fold intent.
  destruct intent as [task_type conf]. simpl fst in *. simpl snd in *.
  rewrite Hret. simpl bind. rewrite Hbuild. simpl bind.
  rewrite Hgen. simpl bind. rewrite Hparse. simpl bind.
  unfold Orchestrator.new_QueryResponse.
  cbn [Orchestrator.response Orchestrator.confidence].
  rewrite Hlo, Hhi. repeat split.
Qed.

(** C8 (amended). [_parse_response] does not raise, whatever the raw
    output and the flags, as long as [json.loads] raises nothing but
    [JSONDecodeError] on the cleaned text and the validator nothing but
    [ValidationError].  With structured output enabled and a cleaned text that
    is not valid JSON: when the span from the first opening brace to the
    last closing brace parses, the parsed value is returned as it is;
    otherwise the response is the narrative fallback, which holds the
    parse-error note, the cleaned raw text and its first 500 characters.
    In the pipeline, after successful retrieval, prompt building and
    generation and with a confidence in [0, 1], such a fallback leaves
    [success] true and is the response of the outcome. *)
Theorem parse_stage_degrades
    (json_loads : string -> result Orchestrator.json)
    (model_validate :
       Orchestrator.OutputModel -> Orchestrator.json -> result Orchestrator.json) :
  (forall enabled raw task_type,
     (forall e, json_loads (Orchestrator.strip_fence raw) = Raise e ->
                is_JSONDecodeError e = true) ->
     (forall m value e, model_validate m value = Raise e ->
                        is_ValidationError e = true) ->
     exists value,
       Orchestrator._parse_response json_loads model_validate enabled raw
         task_type = Ok value)
  /\ (forall raw task_type msg span value,
        json_loads (Orchestrator.strip_fence raw)
          = Raise (JSONDecodeError msg) ->
        Orchestrator.brace_span (Orchestrator.strip_fence raw) = Some span ->
        json_loads span = Ok value ->
        Orchestrator._parse_response json_loads model_validate true raw
          task_type = Ok value)
  /\ (forall raw task_type msg,
        json_loads (Orchestrator.strip_fence raw)
          = Raise (JSONDecodeError msg) ->
        (forall span value,
           Orchestrator.brace_span (Orchestrator.strip_fence raw) = Some span ->
           json_loads span <> Ok value) ->
        exists out,
          Orchestrator._parse_response json_loads model_validate true raw
            task_type = Ok out
          /\ Orchestrator.field out "parse_error"
             = Some (Orchestrator.JStr msg)
          /\ Orchestrator.field out "raw_response"
             = Some (Orchestrator.JStr (Orchestrator.strip_fence raw))
          /\ Orchestrator.field out "summary"
             = Some (Orchestrator.JStr
                       (PyStr.take 500 (Orchestrator.strip_fence raw))))
  /\ (forall intent_enabled py_float llm_generate temperature max_tokens
        retrieve_for_context build_prompt request user docs ctx sys usr raw msg,
        let intent :=
          Orchestrator.resolve_intent intent_enabled py_float llm_generate
            request in
        retrieve_for_context (Orchestrator.query request) (Security.role user)
          4000 (Orchestrator.req_client_name request)
          (Orchestrator.req_practice_area request)
          (Orchestrator.req_document_types request) = Ok (docs, ctx) ->
        build_prompt (fst intent) (Orchestrator.query request)
          (Orchestrator.context_for docs ctx)
          (Security.value (Security.role user))
          (Orchestrator.req_client_name request) = Ok (sys, usr) ->
        llm_generate usr (Some sys) temperature max_tokens = Ok raw ->
        float_le (Fin 0) (snd intent) = true ->
        float_le (snd intent) (Fin 1) = true ->
        json_loads (Orchestrator.strip_fence raw)
          = Raise (JSONDecodeError msg) ->
        (forall span value,
           Orchestrator.brace_span (Orchestrator.strip_fence raw) = Some span ->
           json_loads span <> Ok value) ->
        let r :=
          Orchestrator.process_query json_loads model_validate true
            intent_enabled py_float llm_generate temperature max_tokens
            retrieve_for_context build_prompt request user in
        Orchestrator.success r = true
        /\ Orchestrator.field (Orchestrator.response r) "parse_error"
           = Some (Orchestrator.JStr msg)
        /\ Orchestrator.field (Orchestrator.response r) "raw_response"
           = Some (Orchestrator.JStr (Orchestrator.strip_fence raw))).
Proof.
  assert (Hfallback : forall raw task_type msg,
    json_loads (Orchestrator.strip_fence raw) = Raise (JSONDecodeError msg) ->
    (forall span value,
       Orchestrator.brace_span (Orchestrator.strip_fence raw) = Some span ->
       json_loads span <> Ok value) ->
    Orchestrator._parse_response json_loads model_validate true raw task_type
    = Ok (Orchestrator.narrative_fallback (Orchestrator.strip_fence raw)
            (JSONDecodeError msg))).
  { intros raw task_type msg Hloads Hnone.
    rewrite (parse_response_malformed _ _ _ _ _ Hloads).
    destruct (Orchestrator.brace_span _) as [span|] eqn:Hspan; [|reflexivity].
    destruct (json_loads span) as [value|e] eqn:Hs; [|reflexivity].
    exfalso. exact (Hnone span value eq_refl Hs). }
  split; [|split; [|split]].
  - intros. now apply parse_response_total.
  - intros raw task_type msg span value Hloads Hspan Hvalue.
    rewrite (parse_response_malformed _ _ _ _ _ Hloads), Hspan, Hvalue.
    reflexivity.
  - intros raw task_type msg Hloads Hnone.
    eexists. split; [apply (Hfallback _ _ _ Hloads Hnone)|].
    apply narrative_fallback_fields.
  - intros intent_enabled py_float llm_generate temperature max_tokens
      retrieve_for_context build_prompt request user docs ctx sys usr raw msg
      intent Hret Hbuild Hgen Hlo Hhi Hloads Hnone r.
    pose proof (Hfallback raw (fst intent) msg Hloads Hnone) as Hparse.
    unfold Orchestrator.narrative_fallback in Hparse.
    destruct (process_query_success json_loads model_validate true
                intent_enabled py_float llm_generate temperature max_tokens
                retrieve_for_context build_prompt request user docs ctx sys
                usr raw _ Hret Hbuild Hgen Hlo Hhi Hparse) as (Hs & _ & Hr).
    subst r. rewrite Hr. repeat split. exact Hs.
Qed.

Lemma parse_stage_degrades_witness :
  let r :=
    Orchestrator.process_query Samples.loads_empty_object
      Samples.requires_summary true true Samples.no_float
      (Samples.answers "The answer was cut short: { summary") (1#10) 2048
      Samples.retrieve_nothing Samples.prompt_pair
      (Samples.request_with_task "What is our fee policy?")
      Samples.analyst_user in
  Orchestrator.success r = true
  /\ Orchestrator.field (Orchestrator.response r) "parse_error"
     = Some (Orchestrator.JStr "Expecting value: line 1 column 1 (char 0)")
  /\ Orchestrator.field (Orchestrator.response r) "raw_response"
     = Some (Orchestrator.JStr "The answer was cut short: { summary").
Proof.
  destruct (parse_stage_degrades Samples.loads_empty_object
              Samples.requires_summary) as (_ & _ & _ & H).
  apply (H true Samples.no_float
           (Samples.answers "The answer was cut short: { summary") (1#10)%Q 2048
           Samples.retrieve_nothing Samples.prompt_pair
           (Samples.request_with_task "What is our fee policy?")
           Samples.analyst_user [] EmptyString
           "You are an advisory assistant."
           ("No relevant documents were found for this query." ++ Intent.nl
            ++ "What is our fee policy?")%string
           "The answer was cut short: { summary"
           "Expecting value: line 1 column 1 (char 0)");
    try (vm_compute; reflexivity).
  intros span value Hspan. vm_compute in Hspan. discriminate.
Defined.

(** ** Role filtering in retrieval *)

Lemma str_in_In (x : string) (l : list string) :
  str_in x l = true <-> In x l.
Proof.
  unfold str_in. rewrite existsb_exists. split.
  - intros (y & Hy & E). apply String.eqb_eq in E. now subst.
  - intros H. exists x. split; [assumption|apply String.eqb_refl].
Qed.

(** The document types sent to the sources are always accessible to the
    role, and with a non-empty requested list they are the requested types
    that are accessible. *)
Lemma allowed_types_accessible (user_role : Security.UserRole)
    (document_types : option (list string)) (t : string) :
  In t (Hybrid.allowed_types user_role document_types) ->
  In t (Security.get_accessible_document_types user_role).
Proof.
  unfold Hybrid.allowed_types, Security.get_role_filter.
  destruct document_types as [[|t0 ts]|]; auto.
  intros H. apply filter_In in H. destruct H as [_ H].
  now apply str_in_In in H.
Qed.

Lemma allowed_types_intersection (user_role : Security.UserRole)
    (t0 : string) (ts : list string) (t : string) :
  In t (Hybrid.allowed_types user_role (Some (t0 :: ts))) <->
  In t (t0 :: ts) /\ In t (Security.get_accessible_document_types user_role).
Proof.
  unfold Hybrid.allowed_types, Security.get_role_filter.
  rewrite filter_In, str_in_In. reflexivity.
Qed.

(** The sparse index treats an empty list of allowed values as "nothing
    is allowed". *)
Lemma bm25_empty_list_filters_all (m : Documents.metadata) (field : string) :
  BM25.passes_filter m (field, Documents.FList []) = false.
Proof.
  unfold BM25.passes_filter. now destruct (Documents.meta_get m field).
Qed.

(** C6. An analyst who asks for the document type "partner_memo" gets an
    empty list of allowed types; the dense index drops the empty list from
    its filter and searches unfiltered, so the partner-level chunk, which
    requires the partner role, is returned to the analyst. *)
Theorem analyst_receives_partner_document :
  Hybrid.allowed_types Security.ANALYST (Some ["partner_memo"]) = []
  /\ VectorStore.build_query_filter
       (Some (Hybrid.build_filter_dict Security.ANALYST None None
                (Some ["partner_memo"]))) = None
  /\ Security.get_document_access_level "partner_memo" = Security.PARTNER
  /\ Security.can_access Security.ANALYST Security.PARTNER = false
  /\ Hybrid.retrieve Samples.embed_unit Samples.ready_store (Ok tt)
       (VectorStore.memory_client Samples.stored_points) (5#10)
       Samples.sparse_index Samples.overlap_scores Hybrid.default_config
       "partner fee structure" Security.ANALYST 5 None None
       (Some ["partner_memo"])
     = Ok [ Documents.mkRetrievedDocument "chunk-1" "doc-1"
              "Partner fee structure for the engagement." (9#10) 0
              "fees.md" "partner_memo" None None 0 None None [];
            Documents.mkRetrievedDocument "chunk-2" "doc-2"
              "Playbook for pricing discussions." (8#10) 1
              "playbook.md" "playbook" None None 0 None None [] ].
Proof. repeat split; vm_compute; reflexivity. Qed.

(** Without a requested list the same analyst only gets the playbook. *)
Example analyst_default_filter :
  Hybrid.retrieve Samples.embed_unit Samples.ready_store (Ok tt)
    (VectorStore.memory_client Samples.stored_points) (5#10)
    Samples.empty_index Samples.overlap_scores Hybrid.default_config
    "partner fee structure" Security.ANALYST 5 None None None
  = Ok [ Documents.mkRetrievedDocument "chunk-2" "doc-2"
           "Playbook for pricing discussions." (8#10) 0
           "playbook.md" "playbook" None None 0 None None [] ].
Proof. vm_compute. reflexivity. Qed.

(** ** Sorting by descending key *)

Section SortedDesc.

Context {A : Type} (key : A -> Q).

Local Abbreviation desc := (Documents.desc key).

Lemma Qlt_bool_true (x y : Q) : Qlt_bool x y = true -> (x < y)%Q.
Proof.
  unfold Qlt_bool. intros H. apply negb_true_iff in H.
  apply Qnot_le_lt. intros K. apply Qle_bool_iff in K. congruence.
Qed.

Lemma Qlt_bool_false (x y : Q) : Qlt_bool x y = false -> (y <= x)%Q.
Proof.
  unfold Qlt_bool. intros H. apply negb_false_iff in H.
  now apply Qle_bool_iff.
Qed.

Lemma insert_desc_perm (x : A) (l : list A) :
  Permutation (Documents.insert_desc key x l) (x :: l).
Proof.
  induction l as [|y l IH]; simpl; [reflexivity|].
  destruct (Qlt_bool (key x) (key y)); [|reflexivity].
  rewrite IH. apply perm_swap.
Qed.

Lemma sorted_desc_perm (l : list A) :
  Permutation (Documents.sorted_desc key l) l.
Proof.
  induction l as [|x l IH]; simpl; [reflexivity|].
  rewrite insert_desc_perm. now constructor.
Qed.

Lemma insert_desc_sorted (x : A) (l : list A) :
  StronglySorted desc l -> StronglySorted desc (Documents.insert_desc key x l).
Proof.
  induction l as [|y l IH]; intros Hs; simpl.
  - repeat constructor.
  - inversion Hs as [|? ? Hl Hy]; subst.
    destruct (Qlt_bool (key x) (key y)) eqn:E.
    + constructor; [now apply IH|].
      eapply Permutation_Forall.
      * symmetry. apply insert_desc_perm.
      * constructor; [|assumption].
        apply Qlt_bool_true in E. now apply Qlt_le_weak.
    + apply Qlt_bool_false in E.
      constructor; [assumption|].
      constructor; [exact E|].
      eapply Forall_impl; [|exact Hy].
      intros z Hz. unfold Documents.desc in *. eapply Qle_trans; eassumption.
Qed.

Lemma sorted_desc_sorted (l : list A) :
  StronglySorted desc (Documents.sorted_desc key l).
Proof.
  induction l as [|x l IH]; simpl; [constructor|].
  now apply insert_desc_sorted.
Qed.

Lemma firstn_sorted (n : nat) (l : list A) :
  StronglySorted desc l -> StronglySorted desc (firstn n l).
Proof.
  revert n. induction l as [|x l IH]; intros [|n] Hs; simpl;
    try constructor.
  - inversion Hs; subst. now apply IH.
  - inversion Hs as [|? ? _ Hx]; subst.
    apply Forall_forall. intros z Hz.
    rewrite Forall_forall in Hx. apply Hx.
    revert Hz. clear. revert n.
    induction l as [|y l IHl]; intros [|n]; simpl; try tauto.
    intros [->|Hz]; [now left|right; eauto].
Qed.

End SortedDesc.

(** ** Ranks assigned by the two sources *)

(** A list whose ranks are [0, 1, ...] in order. *)
Lemma ranked_firstn (k : nat) (l : list Documents.RetrievedDocument) :
  map Documents.rank l = seq 0 (List.length l) ->
  map Documents.rank (firstn k l) = seq 0 (List.length (firstn k l)).
Proof.
  intros H. rewrite <- firstn_map, H, length_firstn.
  generalize (List.length l) as n. generalize 0 as start.
  revert k. induction k as [|k IH]; intros start [|n]; simpl; auto.
  now rewrite IH.
Qed.

Lemma vector_search_ranks
    (client_initialize : result unit)
    (client_search :
       list Q -> nat -> option (list VectorStore.condition) -> Q ->
       result (list VectorStore.hit))
    (min_score : Q) (self : VectorStore.VectorStore) (embedding : list Q)
    (top_k : nat) (fd : option Documents.filter_dict) (threshold : option Q)
    (l : list Documents.RetrievedDocument) :
  VectorStore.search client_initialize client_search min_score self embedding
    top_k fd threshold = Ok l ->
  map Documents.rank l = seq 0 (List.length l).
Proof.
  unfold VectorStore.search.
  destruct (if VectorStore._initialized self then Ok self
            else VectorStore.initialize client_initialize self);
    simpl; [|discriminate].
  destruct (client_search _ _ _ _) as [hits|e]; simpl; [|discriminate].
  intros H. injection H as <-.
  unfold Documents.enumerate. rewrite length_map, length_combine, length_seq.
  rewrite Nat.min_id. generalize 0 as start.
  induction hits as [|h hits IH]; intros start; simpl; [reflexivity|].
  now rewrite IH.
Qed.

Section BM25Ranks.

Variable self : BM25.BM25Index.
Variable scores : list Q.

Let key (i : nat) : Q := nth i scores 0%Q.

Lemma build_result_dropped (l : list nat) (ranks : list nat) :
  Forall (fun i => (key i <= 0)%Q) l ->
  flat_map (BM25.build_result self scores) (combine ranks l) = [].
Proof.
  revert ranks. induction l as [|i l IH]; intros [|r ranks] H;
    cbn [combine flat_map]; auto.
  inversion H as [|? ? Hi Hl]; subst.
  apply Qle_bool_iff in Hi. unfold key in Hi.
  unfold BM25.build_result at 1. rewrite Hi.
  cbn [app]. now apply IH.
Qed.

Lemma build_result_ranks (l : list nat) (start : nat) :
  StronglySorted (Documents.desc key) l ->
  let results :=
    flat_map (BM25.build_result self scores)
      (combine (seq start (List.length l)) l) in
  map Documents.rank results = seq start (List.length results).
Proof.
  revert start. induction l as [|i l IH]; intros start Hs;
    cbn [List.length seq combine flat_map]; [reflexivity|].
  inversion Hs as [|? ? Hl Hi]; subst.
  unfold BM25.build_result at 1 3.
  destruct (Qle_bool (nth i scores 0%Q) 0) eqn:E; cbn [app].
  - rewrite build_result_dropped; [reflexivity|].
    apply Qle_bool_iff in E.
    eapply Forall_impl; [|exact Hi].
    intros j Hj. unfold Documents.desc, key in *.
    eapply Qle_trans; eassumption.
  - cbn [map Documents.rank List.length seq]. f_equal.
    now apply (IH (S start)).
Qed.

End BM25Ranks.

Lemma bm25_search_ranks
    (okapi_scores : list (list string) -> list string -> result (nat -> Q))
    (self : BM25.BM25Index) (query : string) (top_k : nat)
    (fd : option Documents.filter_dict)
    (l : list Documents.RetrievedDocument) :
  fst (BM25.search okapi_scores self query top_k fd) = Ok l ->
  map Documents.rank l = seq 0 (List.length l).
Proof.
  unfold BM25.search.
  set (self' := if BM25._needs_rebuild self then BM25._rebuild_index self
                else self).
  destruct (negb (BM25.bm25 self') ||
            match BM25.documents self' with [] => true | _ => false end);
    simpl; [intros H; injection H as <-; reflexivity|].
  destruct (BM25._tokenize query) as [|t ts]; simpl;
    [intros H; injection H as <-; reflexivity|].
  destruct (BM25.get_scores okapi_scores self' (t :: ts)) as [scores|e];
    simpl; [|discriminate].
  intros H. injection H as <-.
  unfold Documents.enumerate.
  apply build_result_ranks.
  apply firstn_sorted, sorted_desc_sorted.
Qed.

(** ** Fault tolerance of hybrid retrieval *)

Lemma collected_raise (enabled : bool) (e : exn) :
  Hybrid.collected enabled (Raise e) = [].
Proof. now destruct enabled. Qed.

Lemma collected_ranks (enabled : bool)
    (stage : result (list Documents.RetrievedDocument)) :
  (forall l, stage = Ok l -> map Documents.rank l = seq 0 (List.length l)) ->
  map Documents.rank (Hybrid.collected enabled stage)
  = seq 0 (List.length (Hybrid.collected enabled stage)).
Proof.
  intros H. unfold Hybrid.collected.
  destruct enabled; [|reflexivity].
  destruct stage as [l|e]; simpl; [now apply H|reflexivity].
Qed.

Lemma dense_stage_ranks
    (embed_text : string -> result (list Q))
    (vector_store : VectorStore.VectorStore) (client_initialize : result unit)
    (client_search :
       list Q -> nat -> option (list VectorStore.condition) -> Q ->
       result (list VectorStore.hit))
    (min_score : Q) (query : string) (fetch_k : nat)
    (fd : Documents.filter_dict) (l : list Documents.RetrievedDocument) :
  Hybrid.dense_stage embed_text vector_store client_initialize client_search
    min_score query fetch_k fd = Ok l ->
  map Documents.rank l = seq 0 (List.length l).
Proof.
  unfold Hybrid.dense_stage.
  destruct (embed_text query) as [v|e]; simpl; [|discriminate].
  apply vector_search_ranks.
Qed.

(** C5. [retrieve] survives a failing source.  When the dense stage
    (embedding or vector search) raises, the answer is the first [top_k]
    results collected from the sparse source; when the sparse search
    raises, it is the first [top_k] results collected from the dense
    source.  In both cases the answer has at most [top_k] items, ranked
    0, 1, 2, ... in order.  When both stages raise, or both return the
    empty list, the answer is the empty list. *)
Theorem retrieve_tolerates_source_failure
    (embed_text : string -> result (list Q))
    (vector_store : VectorStore.VectorStore) (client_initialize : result unit)
    (client_search :
       list Q -> nat -> option (list VectorStore.condition) -> Q ->
       result (list VectorStore.hit))
    (min_score : Q) (bm25_index : BM25.BM25Index)
    (okapi_scores : list (list string) -> list string -> result (nat -> Q))
    (config : Hybrid.HybridSearchConfig)
    (query : string) (user_role : Security.UserRole) (top_k : nat)
    (client_name practice_area : option string)
    (document_types : option (list string)) :
  let fd := Hybrid.build_filter_dict user_role client_name practice_area
              document_types in
  let fetch_k := Nat.min (top_k * 2) 50 in
  let dense :=
    Hybrid.dense_stage embed_text vector_store client_initialize client_search
      min_score query fetch_k fd in
  let sparse := Hybrid.sparse_stage bm25_index okapi_scores query fetch_k fd in
  let out :=
    Hybrid.retrieve embed_text vector_store client_initialize client_search
      min_score bm25_index okapi_scores config query user_role top_k
      client_name practice_area document_types in
  (Hybrid.use_dense config = true -> (exists e, dense = Raise e) ->
     out = Ok (firstn top_k
                 (Hybrid.collected (Hybrid.use_sparse config) sparse)))
  /\ (Hybrid.use_sparse config = true -> (exists e, sparse = Raise e) ->
        out = Ok (firstn top_k
                    (Hybrid.collected (Hybrid.use_dense config) dense)))
  /\ ((Hybrid.use_dense config = true /\ (exists e, dense = Raise e))
      \/ (Hybrid.use_sparse config = true /\ (exists e, sparse = Raise e)) ->
      exists l, out = Ok l
        /\ (List.length l <= top_k)%nat
        /\ map Documents.rank l = seq 0 (List.length l))
  /\ ((exists e, dense = Raise e) -> (exists e, sparse = Raise e) ->
      out = Ok [])
  /\ (dense = Ok [] -> sparse = Ok [] -> out = Ok []).
Proof.
  intros fd fetch_k dense sparse out.
  assert (Hd : Hybrid.use_dense config = true -> (exists e, dense = Raise e) ->
               out = Ok (firstn top_k
                           (Hybrid.collected (Hybrid.use_sparse config) sparse))).
  { intros _ [e He]. subst out. unfold Hybrid.retrieve.
    fold fd fetch_k. fold dense sparse. rewrite He, collected_raise.
    destruct (Hybrid.collected (Hybrid.use_sparse config) sparse);
      [now rewrite firstn_nil|reflexivity]. }
  assert (Hs : Hybrid.use_sparse config = true -> (exists e, sparse = Raise e) ->
               out = Ok (firstn top_k
                           (Hybrid.collected (Hybrid.use_dense config) dense))).
  { intros _ [e He]. subst out. unfold Hybrid.retrieve.
    fold fd fetch_k. fold dense sparse. rewrite He, collected_raise.
    destruct (Hybrid.collected (Hybrid.use_dense config) dense);
      [now rewrite firstn_nil|reflexivity]. }
  split; [exact Hd|]. split; [exact Hs|]. split; [|split].
  - intros [[Hu He]|[Hu He]].
    + eexists. split; [apply (Hd Hu He)|]. split; [apply firstn_le_length|].
      apply ranked_firstn, collected_ranks.
      intros l Hl. eapply bm25_search_ranks. exact Hl.
    + eexists. split; [apply (Hs Hu He)|]. split; [apply firstn_le_length|].
      apply ranked_firstn, collected_ranks.
      intros l Hl. eapply dense_stage_ranks. exact Hl.
  - intros [e He] [e' He']. subst out. unfold Hybrid.retrieve.
    fold fd fetch_k. fold dense sparse.
    now rewrite He, He', !collected_raise.
  - intros He He'. subst out. unfold Hybrid.retrieve.
    fold fd fetch_k. fold dense sparse. rewrite He, He'.
    unfold Hybrid.collected.
    now destruct (Hybrid.use_dense config), (Hybrid.use_sparse config).
Qed.

(** The embedding provider is down; the playbook chunk still comes back
    from the sparse index, ranked 0. *)
Lemma retrieve_tolerates_source_failure_witness :
  Hybrid.retrieve Samples.embed_fails Samples.ready_store (Ok tt)
    (VectorStore.memory_client Samples.stored_points) (5#10)
    Samples.sparse_index Samples.overlap_scores Hybrid.default_config
    "pricing playbook" Security.ANALYST 5 None None None
  = Ok (firstn 5
          (Hybrid.collected true
             (Hybrid.sparse_stage Samples.sparse_index Samples.overlap_scores
                "pricing playbook" 10
                (Hybrid.build_filter_dict Security.ANALYST None None None))))
  /\ map Documents.chunk_id
       (firstn 5
          (Hybrid.collected true
             (Hybrid.sparse_stage Samples.sparse_index Samples.overlap_scores
                "pricing playbook" 10
                (Hybrid.build_filter_dict Security.ANALYST None None None))))
     = ["chunk-2"].
Proof.
  split; [|vm_compute; reflexivity].
  destruct (retrieve_tolerates_source_failure Samples.embed_fails
              Samples.ready_store (Ok tt)
              (VectorStore.memory_client Samples.stored_points) (5#10)%Q
              Samples.sparse_index Samples.overlap_scores Hybrid.default_config
              "pricing playbook" Security.ANALYST 5 None None None)
    as (H & _).
  apply H; [reflexivity|].
  exists (RuntimeError "embedding provider unavailable"). reflexivity.
Defined.

(** ** Insertion-ordered dicts *)

Section DictFacts.

Context {V : Type}.

Lemma dict_get_set_same (d : Dict.t V) (k : string) (v : V) :
  Dict.get (Dict.set d k v) k = Some v.
Proof.
  induction d as [|[k' v'] d IH]; simpl.
  - now rewrite String.eqb_refl.
  - destruct (String.eqb k' k) eqn:E; simpl.
    + now rewrite String.eqb_refl.
    + now rewrite E.
Qed.

Lemma dict_get_set_other (d : Dict.t V) (k c : string) (v : V) :
  k <> c -> Dict.get (Dict.set d k v) c = Dict.get d c.
Proof.
  intros Hkc. induction d as [|[k' v'] d IH]; simpl.
  - apply String.eqb_neq in Hkc. now rewrite Hkc.
  - destruct (String.eqb k' k) eqn:E; simpl.
    + apply String.eqb_eq in E. subst k'.
      apply String.eqb_neq in Hkc. now rewrite Hkc.
    + now rewrite IH.
Qed.

Lemma dict_keys_set (d : Dict.t V) (k c : string) (v : V) :
  In c (Dict.keys (Dict.set d k v)) <-> c = k \/ In c (Dict.keys d).
Proof.
  unfold Dict.keys. induction d as [|[k' v'] d IH]; simpl.
  - intuition.
  - destruct (String.eqb k' k) eqn:E; simpl.
    + apply String.eqb_eq in E. subst k'. intuition.
    + rewrite IH. intuition.
Qed.

Lemma dict_keys_set_NoDup (d : Dict.t V) (k : string) (v : V) :
  NoDup (Dict.keys d) -> NoDup (Dict.keys (Dict.set d k v)).
Proof.
  unfold Dict.keys. induction d as [|[k' v'] d IH]; simpl; intros H.
  - repeat constructor. intros [].
  - inversion H as [|? ? Hnot Hd]; subst.
    destruct (String.eqb k' k) eqn:E; simpl.
    + apply String.eqb_eq in E. subst k'. now constructor.
    + constructor; [|now apply IH].
      intros Hin. apply (dict_keys_set d k k' v) in Hin.
      destruct Hin as [->|Hin]; [|contradiction].
      now rewrite String.eqb_refl in E.
Qed.

Lemma dict_get_In (d : Dict.t V) (c : string) (v : V) :
  Dict.get d c = Some v -> In (c, v) d.
Proof.
  induction d as [|[k' v'] d IH]; simpl; [discriminate|].
  destruct (String.eqb k' c) eqn:E.
  - apply String.eqb_eq in E. subst k'. intros H. injection H as ->. now left.
  - intros H. right. now apply IH.
Qed.

Lemma dict_In_get (d : Dict.t V) (c : string) (v : V) :
  NoDup (Dict.keys d) -> In (c, v) d -> Dict.get d c = Some v.
Proof.
  unfold Dict.keys. induction d as [|[k' v'] d IH]; simpl; intros Hn Hin;
    [contradiction|].
  inversion Hn as [|? ? Hnot Hd]; subst.
  destruct Hin as [Heq|Hin].
  - injection Heq as -> ->. now rewrite String.eqb_refl.
  - destruct (String.eqb k' c) eqn:E; [|now apply IH].
    apply String.eqb_eq in E. subst k'.
    exfalso. apply Hnot. apply (in_map fst) in Hin. exact Hin.
Qed.

Lemma dict_get_keys (d : Dict.t V) (c : string) :
  In c (Dict.keys d) <-> exists v, Dict.get d c = Some v.
Proof.
  unfold Dict.keys. induction d as [|[k' v'] d IH]; simpl.
  - split; [intros []|intros [v H]; discriminate].
  - destruct (String.eqb k' c) eqn:E.
    + apply String.eqb_eq in E. subst k'. split; eauto.
    + rewrite IH. split; [intros [H|H]; auto|auto].
      apply String.eqb_neq in E. contradiction.
Qed.

End DictFacts.

(** ** Reciprocal rank fusion *)

Lemma find_id_Some (c : string) (l : list Documents.RetrievedDocument)
    (d : Documents.RetrievedDocument) :
  FusionSpec.find_id c l = Some d -> In d l /\ Documents.chunk_id d = c.
Proof.
  unfold FusionSpec.find_id. intros H. apply find_some in H.
  destruct H as [Hin E]. apply String.eqb_eq in E. now split.
Qed.

Lemma find_id_None (c : string) (l : list Documents.RetrievedDocument) :
  FusionSpec.find_id c l = None <-> ~ In c (FusionSpec.ids l).
Proof.
  unfold FusionSpec.find_id, FusionSpec.ids. split.
  - intros H Hin. apply in_map_iff in Hin. destruct Hin as (d & E & Hd).
    apply (find_none _ _ H) in Hd. apply String.eqb_neq in Hd. contradiction.
  - intros H. destruct (find _ l) as [d|] eqn:E; [|reflexivity].
    apply find_some in E. destruct E as [Hin E]. apply String.eqb_eq in E.
    exfalso. apply H. apply in_map_iff. now exists d.
Qed.

Lemma find_id_cons (c : string) (d : Documents.RetrievedDocument)
    (l : list Documents.RetrievedDocument) :
  FusionSpec.find_id c (d :: l)
  = if String.eqb (Documents.chunk_id d) c then Some d
    else FusionSpec.find_id c l.
Proof. reflexivity. Qed.

Section FusionFacts.

Variable config : Hybrid.HybridSearchConfig.
Hypothesis Hk : (1 <= Hybrid.rrf_k config)%nat.

Let k := Hybrid.rrf_k config.
Let dterm (d : Documents.RetrievedDocument) : Q :=
  FusionSpec.term (Hybrid.dense_weight config) k (Documents.rank d).
Let sterm (d : Documents.RetrievedDocument) : Q :=
  FusionSpec.term (Hybrid.sparse_weight config) k (Documents.rank d).

Lemma rrf_term_ok (w : Q) (r : nat) :
  Hybrid.rrf_term w (Hybrid.rrf_k config) r = Ok (FusionSpec.term w k r).
Proof.
  unfold Hybrid.rrf_term.
  destruct (Hybrid.rrf_k config + r =? 0)%nat eqn:E; [|reflexivity].
  apply Nat.eqb_eq in E. lia.
Qed.

Lemma add_dense_spec (docs : list Documents.RetrievedDocument) :
  NoDup (FusionSpec.ids docs) ->
  forall scores, exists scores',
    Hybrid.add_dense config scores docs = Ok scores'
    /\ (forall c,
          Dict.get scores' c
          = match FusionSpec.find_id c docs with
            | Some d => Some (dterm d, d)
            | None => Dict.get scores c
            end)
    /\ (forall c, In c (Dict.keys scores') <->
                  In c (Dict.keys scores) \/ In c (FusionSpec.ids docs))
    /\ (NoDup (Dict.keys scores) -> NoDup (Dict.keys scores')).
Proof.
  induction docs as [|d docs IH]; intros Hn scores.
  - exists scores. simpl. repeat split; auto; tauto.
  - inversion Hn as [|? ? Hnot Hn']; subst.
    cbn [Hybrid.add_dense]. rewrite rrf_term_ok. cbn [bind].
    destruct (IH Hn' (Dict.set scores (Documents.chunk_id d) (dterm d, d)))
      as (scores' & Hrun & Hget & Hkeys & Hnd).
    exists scores'. split; [exact Hrun|]. split; [|split].
    + intros c. rewrite Hget, find_id_cons.
      destruct (String.eqb (Documents.chunk_id d) c) eqn:E.
      * apply String.eqb_eq in E. subst c.
        apply find_id_None in Hnot. rewrite Hnot.
        apply dict_get_set_same.
      * destruct (FusionSpec.find_id c docs); [reflexivity|].
        apply dict_get_set_other. now apply String.eqb_neq.
    + intros c. rewrite Hkeys, dict_keys_set. simpl. intuition.
    + intros H. apply Hnd. now apply dict_keys_set_NoDup.
Qed.

Lemma add_sparse_spec (docs : list Documents.RetrievedDocument) :
  NoDup (FusionSpec.ids docs) ->
  forall scores, exists scores',
    Hybrid.add_sparse config scores docs = Ok scores'
    /\ (forall c,
          Dict.get scores' c
          = match FusionSpec.find_id c docs with
            | Some s =>
                match Dict.get scores c with
                | Some (v, d) => Some ((v + sterm s)%Q, d)
                | None => Some (sterm s, s)
                end
            | None => Dict.get scores c
            end)
    /\ (forall c, In c (Dict.keys scores') <->
                  In c (Dict.keys scores) \/ In c (FusionSpec.ids docs))
    /\ (NoDup (Dict.keys scores) -> NoDup (Dict.keys scores')).
Proof.
  induction docs as [|s docs IH]; intros Hn scores.
  - exists scores. simpl. repeat split; auto; tauto.
  - inversion Hn as [|? ? Hnot Hn']; subst.
    cbn [Hybrid.add_sparse]. rewrite rrf_term_ok. cbn [bind].
    set (value := match Dict.get scores (Documents.chunk_id s) with
                  | Some (v, d) => ((v + sterm s)%Q, d)
                  | None => (sterm s, s)
                  end).
    assert (Hstep :
      match Dict.get scores (Documents.chunk_id s) with
      | Some (existing_score, existing_doc) =>
          Hybrid.add_sparse config
            (Dict.set scores (Documents.chunk_id s)
               ((existing_score
                 + FusionSpec.term (Hybrid.sparse_weight config) k
                     (Documents.rank s))%Q, existing_doc)) docs
      | None =>
          Hybrid.add_sparse config
            (Dict.set scores (Documents.chunk_id s)
               (FusionSpec.term (Hybrid.sparse_weight config) k
                  (Documents.rank s), s)) docs
      end
      = Hybrid.add_sparse config
          (Dict.set scores (Documents.chunk_id s) value) docs).
    { subst value. destruct (Dict.get scores (Documents.chunk_id s))
        as [[v d]|]; reflexivity. }
    rewrite Hstep.
    destruct (IH Hn' (Dict.set scores (Documents.chunk_id s) value))
      as (scores' & Hrun & Hget & Hkeys & Hnd).
    exists scores'. split; [exact Hrun|]. split; [|split].
    + intros c. rewrite Hget, find_id_cons.
      destruct (String.eqb (Documents.chunk_id s) c) eqn:E.
      * apply String.eqb_eq in E. subst c.
        apply find_id_None in Hnot. rewrite Hnot.
        rewrite dict_get_set_same. subst value.
        destruct (Dict.get scores (Documents.chunk_id s)) as [[v d]|];
          reflexivity.
      * assert (Ho : Dict.get (Dict.set scores (Documents.chunk_id s) value) c
                     = Dict.get scores c)
          by (apply dict_get_set_other; now apply String.eqb_neq).
        now rewrite Ho.
    + intros c. rewrite Hkeys, dict_keys_set. simpl. intuition.
    + intros H. apply Hnd. now apply dict_keys_set_NoDup.
Qed.

(** The table after both loops: one entry per chunk of either list, in
    which the carried document has the entry's id and the score is the sum
    of the contributions. *)
Lemma fusion_table (dense sparse : list Documents.RetrievedDocument) :
  NoDup (FusionSpec.ids dense) -> NoDup (FusionSpec.ids sparse) ->
  exists scores1 scores,
    Hybrid.add_dense config [] dense = Ok scores1
    /\ Hybrid.add_sparse config scores1 sparse = Ok scores
    /\ NoDup (Dict.keys scores)
    /\ (forall c, In c (Dict.keys scores) <->
                  In c (FusionSpec.ids dense) \/ In c (FusionSpec.ids sparse))
    /\ (forall c v d, In (c, (v, d)) scores ->
          Documents.chunk_id d = c
          /\ (v == FusionSpec.rrf_sum config dense sparse c)%Q).
Proof.
  intros Hd Hs.
  destruct (add_dense_spec dense Hd []) as (T1 & Hrun1 & Hget1 & Hkeys1 & Hnd1).
  destruct (add_sparse_spec sparse Hs T1) as (T & Hrun & Hget & Hkeys & Hnd).
  exists T1, T. split; [exact Hrun1|]. split; [exact Hrun|].
  assert (HndT : NoDup (Dict.keys T)) by (apply Hnd, Hnd1; constructor).
  split; [exact HndT|]. split.
  - intros c. rewrite Hkeys, Hkeys1. simpl. tauto.
  - intros c v d Hin. apply (dict_In_get _ _ _ HndT) in Hin.
    rewrite Hget, Hget1 in Hin. simpl in Hin.
    unfold FusionSpec.rrf_sum, FusionSpec.contribution.
    fold k.
    destruct (FusionSpec.find_id c sparse) as [s|] eqn:Es;
      destruct (FusionSpec.find_id c dense) as [d0|] eqn:Ed;
      try discriminate; injection Hin as <- <-.
    + split; [now apply find_id_Some in Ed|reflexivity].
    + split; [now apply find_id_Some in Es|].
      unfold sterm. now rewrite Qplus_0_l.
    + split; [now apply find_id_Some in Ed|].
      unfold dterm. now rewrite Qplus_0_r.
Qed.

End FusionFacts.

Lemma display_score_min (v s : Q) :
  (v == s)%Q -> (Hybrid.display_score v == Qmin (10 * s) 1)%Q.
Proof.
  intros E. unfold Hybrid.display_score.
  destruct (Qlt_bool 1 (v * 10)) eqn:L.
  - apply Qlt_bool_true in L. symmetry. apply Q.min_r.
    rewrite <- E, Qmult_comm. now apply Qlt_le_weak.
  - apply Qlt_bool_false in L. rewrite Q.min_l.
    + rewrite E. apply Qmult_comm.
    + now rewrite <- E, Qmult_comm.
Qed.

(** The entries of the sorted table, numbered from [start]. *)
Lemma fused_docs_shape
    (l : list (string * (Q * Documents.RetrievedDocument))) (start : nat) :
  Forall (fun e => Documents.chunk_id (snd (snd e)) = fst e) l ->
  let fused := map Hybrid.fused_doc (combine (seq start (List.length l)) l) in
  FusionSpec.ids fused = map fst l
  /\ map Documents.rank fused = seq start (List.length fused)
  /\ Forall2 (fun d e =>
                Documents.score d = Hybrid.display_score (fst (snd e))
                /\ Documents.chunk_id d = fst e)
       fused l.
Proof.
  revert start. induction l as [|[c [v d]] l IH]; intros start H; simpl.
  - repeat split. constructor.
  - inversion H as [|? ? Hc Hl]; subst. simpl in Hc.
    destruct (IH (S start) Hl) as (Ha & Hb & Hc').
    split; [|split].
    + unfold FusionSpec.ids in *. simpl. now rewrite Ha, Hc.
    + simpl in Hb. now rewrite Hb.
    + constructor; [split; [reflexivity|exact Hc]|exact Hc'].
Qed.

Lemma fusion_output (config : Hybrid.HybridSearchConfig)
    (dense sparse : list Documents.RetrievedDocument) :
  (1 <= Hybrid.rrf_k config)%nat ->
  NoDup (FusionSpec.ids dense) -> NoDup (FusionSpec.ids sparse) ->
  exists fused,
    Hybrid._reciprocal_rank_fusion config dense sparse = Ok fused
    /\ NoDup (FusionSpec.ids fused)
    /\ (forall c, In c (FusionSpec.ids fused) <->
                  In c (FusionSpec.ids dense) \/ In c (FusionSpec.ids sparse))
    /\ StronglySorted
         (Documents.desc
            (fun d => FusionSpec.rrf_sum config dense sparse
                        (Documents.chunk_id d)))
         fused
    /\ map Documents.rank fused = seq 0 (List.length fused)
    /\ (forall d, In d fused ->
          (Documents.score d
           == Qmin (10 * FusionSpec.rrf_sum config dense sparse
                           (Documents.chunk_id d)) 1)%Q).
Proof.
  intros Hk Hd Hs.
  destruct (fusion_table config Hk dense sparse Hd Hs)
    as (T1 & T & Hrun1 & Hrun & Hnd & Hkeys & Hval).
  unfold Hybrid._reciprocal_rank_fusion. rewrite Hrun1. cbn [bind].
  rewrite Hrun. cbn [bind].
  set (key := fun item : string * (Q * Documents.RetrievedDocument) =>
                fst (snd item)).
  set (sorted := Documents.sorted_desc key T).
  assert (Hperm : Permutation sorted T) by apply sorted_desc_perm.
  assert (Hgood : forall e, In e sorted ->
            Documents.chunk_id (snd (snd e)) = fst e
            /\ (fst (snd e)
                == FusionSpec.rrf_sum config dense sparse (fst e))%Q).
  { intros [c [v d]] He. apply (Permutation_in _ Hperm) in He.
    now apply Hval. }
  assert (Hshape : Forall (fun e => Documents.chunk_id (snd (snd e)) = fst e)
                     sorted).
  { apply Forall_forall. intros e He. now apply Hgood. }
  destruct (fused_docs_shape sorted 0 Hshape) as (Hids & Hranks & Hscores).
  unfold Documents.enumerate.
  eexists. split; [reflexivity|].
  split; [|split; [|split; [|split]]].
  - rewrite Hids. eapply Permutation_NoDup; [|exact Hnd].
    symmetry. unfold Dict.keys. now apply Permutation_map.
  - intros c. rewrite Hids, <- Hkeys. unfold Dict.keys.
    split; apply Permutation_in; [|symmetry]; now apply Permutation_map.
  - assert (Hsorted : StronglySorted (Documents.desc key) sorted)
      by apply sorted_desc_sorted.
    clear Hids Hranks Hscores Hshape Hperm. revert Hgood Hsorted.
    generalize 0 as start. generalize sorted as l. clear.
    induction l as [|e l IH]; intros start Hgood Hsorted; simpl;
      [constructor|].
    inversion Hsorted as [|? ? Hl He]; subst.
    constructor.
    + apply IH; [|assumption]. intros e' He'. apply Hgood. now right.
    + apply Forall_forall. intros d' Hd'.
      apply in_map_iff in Hd'. destruct Hd' as ([i e'] & <- & Hin).
      apply in_combine_r in Hin.
      rewrite Forall_forall in He. specialize (He e' Hin).
      destruct (Hgood e (or_introl eq_refl)) as [Hce Hve].
      destruct (Hgood e' (or_intror Hin)) as [Hce' Hve'].
      unfold Documents.desc in *.
      destruct e as [c [v d]], e' as [c' [v' d0]]. simpl in *.
      rewrite Hce, Hce', <- Hve, <- Hve'. exact He.
  - exact Hranks.
  - intros d Hin.
    clear Hids Hranks Hperm Hshape. revert Hscores Hin Hgood.
    generalize (map Hybrid.fused_doc
                  (combine (seq 0 (List.length sorted)) sorted)) as fused.
    intros fused Hscores. revert d.
    induction Hscores as [|d0 e fused l [Hde Hce] Hrest IH];
      intros d Hin Hgood; [contradiction|].
    destruct Hin as [->|Hin].
    + rewrite Hde, Hce. apply display_score_min.
      now apply Hgood; left.
    + apply IH; [assumption|]. intros e' He'. apply Hgood. now right.
Qed.

(** C3. For non-empty dense and sparse result lists (each chunk at most
    once per list, and the fusion constant at least 1, as the settings
    require), [_reciprocal_rank_fusion] returns a list that holds every
    chunk of either list once; the chunks stand in descending order of
    the summed contributions [weight / (k + rank)] of the sources that
    hold them; the ranks are 0 .. n-1; each score is
    [min(10 * sum, 1)]; and [retrieve] returns the first [top_k] items of
    that list. *)
Theorem reciprocal_rank_fusion_spec
    (config : Hybrid.HybridSearchConfig)
    (dense sparse : list Documents.RetrievedDocument) :
  (1 <= Hybrid.rrf_k config)%nat ->
  NoDup (FusionSpec.ids dense) -> NoDup (FusionSpec.ids sparse) ->
  dense <> [] -> sparse <> [] ->
  exists fused,
    Hybrid._reciprocal_rank_fusion config dense sparse = Ok fused
    /\ NoDup (FusionSpec.ids fused)
    /\ (forall c, In c (FusionSpec.ids fused) <->
                  In c (FusionSpec.ids dense) \/ In c (FusionSpec.ids sparse))
    /\ StronglySorted
         (Documents.desc
            (fun d => FusionSpec.rrf_sum config dense sparse
                        (Documents.chunk_id d)))
         fused
    /\ map Documents.rank fused = seq 0 (List.length fused)
    /\ (forall d, In d fused ->
          (Documents.score d
           == Qmin (10 * FusionSpec.rrf_sum config dense sparse
                           (Documents.chunk_id d)) 1)%Q)
    /\ (forall embed_text vector_store client_initialize client_search
          min_score bm25_index okapi_scores query user_role top_k client_name
          practice_area document_types,
          let fd := Hybrid.build_filter_dict user_role client_name
                      practice_area document_types in
          let fetch_k := Nat.min (top_k * 2) 50 in
          Hybrid.collected (Hybrid.use_dense config)
            (Hybrid.dense_stage embed_text vector_store client_initialize
               client_search min_score query fetch_k fd) = dense ->
          Hybrid.collected (Hybrid.use_sparse config)
            (Hybrid.sparse_stage bm25_index okapi_scores query fetch_k fd)
            = sparse ->
          Hybrid.retrieve embed_text vector_store client_initialize
            client_search min_score bm25_index okapi_scores config query
            user_role top_k client_name practice_area document_types
          = Ok (firstn top_k fused)).
Proof.
  intros Hk Hd Hs Hdne Hsne.
  destruct (fusion_output config dense sparse Hk Hd Hs)
    as (fused & Hrun & H1 & H2 & H3 & H4 & H5).
  exists fused. repeat (split; [assumption|]).
  intros embed_text vector_store client_initialize client_search min_score
    bm25_index okapi_scores query user_role top_k client_name practice_area
    document_types fd fetch_k Hdense Hsparse.
  unfold Hybrid.retrieve. fold fd fetch_k. rewrite Hdense, Hsparse.
  destruct dense as [|d0 dense']; [contradiction|].
  destruct sparse as [|s0 sparse']; [contradiction|].
  rewrite Hrun. reflexivity.
Qed.

Ltac nodup_strings :=
  vm_compute;
  repeat (constructor; [simpl; intuition discriminate|]);
  constructor.

Lemma reciprocal_rank_fusion_spec_witness :
  exists fused,
    Hybrid._reciprocal_rank_fusion Hybrid.default_config
      Samples.dense_sample Samples.sparse_sample = Ok fused
    /\ FusionSpec.ids fused = ["chunk-2"; "chunk-1"]
    /\ Hybrid.retrieve Samples.embed_unit Samples.ready_store (Ok tt)
         (VectorStore.memory_client Samples.stored_points) (5#10)
         Samples.sparse_index Samples.overlap_scores Hybrid.default_config
         "pricing playbook" Security.PARTNER 5 None None None
       = Ok (firstn 5 fused).
Proof.
  destruct (reciprocal_rank_fusion_spec Hybrid.default_config
              Samples.dense_sample Samples.sparse_sample)
    as (fused & Hrun & _ & _ & _ & _ & _ & Hret).
  - vm_compute. lia.
  - nodup_strings.
  - nodup_strings.
  - vm_compute. discriminate.
  - vm_compute. discriminate.
  - exists fused. split; [exact Hrun|]. split.
    + assert (E : Hybrid._reciprocal_rank_fusion Hybrid.default_config
                    Samples.dense_sample Samples.sparse_sample
                  = Ok fused) by exact Hrun.
      vm_compute in E. injection E as <-. reflexivity.
    + apply Hret; reflexivity.
Defined.

(** ** Monotonicity of the fused score *)

Lemma term_nonneg (w : Q) (k r : nat) :
  (0 <= w)%Q -> (1 <= k)%nat -> (0 <= FusionSpec.term w k r)%Q.
Proof.
  intros Hw Hk. unfold FusionSpec.term.
  apply Qle_shift_div_l.
  - replace 0%Q with (inject_Z 0) by reflexivity.
    rewrite <- Zlt_Qlt. lia.
  - now rewrite Qmult_0_l.
Qed.

Lemma contribution_nonneg (w : Q) (k : nat)
    (l : list Documents.RetrievedDocument) (c : string) :
  (0 <= w)%Q -> (1 <= k)%nat -> (0 <= FusionSpec.contribution w k l c)%Q.
Proof.
  intros Hw Hk. unfold FusionSpec.contribution.
  destruct (FusionSpec.find_id c l); [now apply term_nonneg|apply Qle_refl].
Qed.

Lemma contribution_absent (w : Q) (k : nat)
    (l : list Documents.RetrievedDocument) (c : string) :
  ~ In c (FusionSpec.ids l) -> FusionSpec.contribution w k l c = 0%Q.
Proof.
  intros H. unfold FusionSpec.contribution.
  apply find_id_None in H. now rewrite H.
Qed.

(** The score shown for a chunk that the fused list holds. *)
Lemma fused_score_of (config : Hybrid.HybridSearchConfig)
    (dense sparse : list Documents.RetrievedDocument) (c : string) :
  (1 <= Hybrid.rrf_k config)%nat ->
  NoDup (FusionSpec.ids dense) -> NoDup (FusionSpec.ids sparse) ->
  In c (FusionSpec.ids dense) \/ In c (FusionSpec.ids sparse) ->
  exists fused x,
    Hybrid._reciprocal_rank_fusion config dense sparse = Ok fused
    /\ FusionSpec.score_of c fused = Some x
    /\ (x == Qmin (10 * FusionSpec.rrf_sum config dense sparse c) 1)%Q.
Proof.
  intros Hk Hd Hs Hc.
  destruct (fusion_output config dense sparse Hk Hd Hs)
    as (fused & Hrun & _ & Hin & _ & _ & Hscore).
  apply Hin in Hc.
  destruct (FusionSpec.find_id c fused) as [d|] eqn:E.
  - exists fused, (Documents.score d). split; [exact Hrun|].
    unfold FusionSpec.score_of. rewrite E. split; [reflexivity|].
    apply find_id_Some in E. destruct E as [Hd' <-]. now apply Hscore.
  - apply find_id_None in E. contradiction.
Qed.

Lemma shown_score_mono (a b : Q) :
  (a <= b)%Q -> (Qmin (10 * a) 1 <= Qmin (10 * b) 1)%Q.
Proof.
  intros H. apply Q.min_le_compat_r. now apply Qmult_le_l.
Qed.

(** C4. With settings-valid fusion parameters, a chunk held by both lists
    scores at least as high as it does when only the dense list, or only
    the sparse list, holds it at the same rank.  In the example with dense
    = [A, B], sparse = [B, C], weights 0.7 and 0.3 and k = 60, the fused
    score of B is strictly above those of A and C. *)
Theorem fused_score_monotone :
  (forall config dense sparse other c,
     FusionSpec.valid_config config ->
     NoDup (FusionSpec.ids dense) -> NoDup (FusionSpec.ids sparse) ->
     NoDup (FusionSpec.ids other) ->
     In c (FusionSpec.ids dense) -> In c (FusionSpec.ids sparse) ->
     ~ In c (FusionSpec.ids other) ->
     exists both only_dense only_sparse x y z,
       Hybrid._reciprocal_rank_fusion config dense sparse = Ok both
       /\ Hybrid._reciprocal_rank_fusion config dense other = Ok only_dense
       /\ Hybrid._reciprocal_rank_fusion config other sparse = Ok only_sparse
       /\ FusionSpec.score_of c both = Some x
       /\ FusionSpec.score_of c only_dense = Some y
       /\ FusionSpec.score_of c only_sparse = Some z
       /\ (y <= x)%Q /\ (z <= x)%Q)
  /\ (exists fused a b c,
        Hybrid._reciprocal_rank_fusion Hybrid.default_config
          [Samples.doc_at "A" 0; Samples.doc_at "B" 1]
          [Samples.doc_at "B" 0; Samples.doc_at "C" 1] = Ok fused
        /\ FusionSpec.score_of "A" fused = Some a
        /\ FusionSpec.score_of "B" fused = Some b
        /\ FusionSpec.score_of "C" fused = Some c
        /\ (a < b)%Q /\ (c < b)%Q).
Proof.
  split.
  - intros config dense sparse other c (Hk & [Hwd _] & [Hws _]) Hd Hs Ho
      Hcd Hcs Hco.
    destruct (fused_score_of config dense sparse c Hk Hd Hs (or_introl Hcd))
      as (both & x & Hb & Hx & Ex).
    destruct (fused_score_of config dense other c Hk Hd Ho (or_introl Hcd))
      as (only_dense & y & Hod & Hy & Ey).
    destruct (fused_score_of config other sparse c Hk Ho Hs (or_intror Hcs))
      as (only_sparse & z & Hos & Hz & Ez).
    exists both, only_dense, only_sparse, x, y, z.
    repeat (split; [assumption|]).
    rewrite Ex, Ey, Ez. unfold FusionSpec.rrf_sum.
    rewrite !(contribution_absent _ _ other c Hco).
    split; apply shown_score_mono.
    + apply Qplus_le_r. now apply contribution_nonneg.
    + apply Qplus_le_l. now apply contribution_nonneg.
  - eexists. eexists. eexists. eexists.
    split; [vm_compute; reflexivity|].
    repeat (split; [vm_compute; reflexivity|]).
    split; reflexivity.
Qed.

Lemma fused_score_monotone_witness :
  exists both only_dense only_sparse x y z,
    Hybrid._reciprocal_rank_fusion Hybrid.default_config
      [Samples.doc_at "A" 0; Samples.doc_at "B" 1]
      [Samples.doc_at "B" 0; Samples.doc_at "C" 1] = Ok both
    /\ Hybrid._reciprocal_rank_fusion Hybrid.default_config
         [Samples.doc_at "A" 0; Samples.doc_at "B" 1]
         [Samples.doc_at "C" 1] = Ok only_dense
    /\ Hybrid._reciprocal_rank_fusion Hybrid.default_config
         [Samples.doc_at "C" 1]
         [Samples.doc_at "B" 0; Samples.doc_at "C" 1] = Ok only_sparse
    /\ FusionSpec.score_of "B" both = Some x
    /\ FusionSpec.score_of "B" only_dense = Some y
    /\ FusionSpec.score_of "B" only_sparse = Some z
    /\ (y <= x)%Q /\ (z <= x)%Q.
Proof.
  destruct fused_score_monotone as [H _].
  apply (H Hybrid.default_config
           [Samples.doc_at "A" 0; Samples.doc_at "B" 1]
           [Samples.doc_at "B" 0; Samples.doc_at "C" 1]
           [Samples.doc_at "C" 1] "B").
  - repeat split; vm_compute; try lia; discriminate.
  - nodup_strings.
  - nodup_strings.
  - nodup_strings.
  - simpl. tauto.
  - simpl. tauto.
  - simpl. intuition discriminate.
Defined.

(** ** Stripping white space *)

Section StripFacts.

Import PyStr.

Local Open Scope string_scope.

Lemma lstrip_cases (s : string) :
  lstrip s = "" \/ exists c r, lstrip s = String c r /\ is_space c = false.
Proof.
  induction s as [|c s IH]; simpl; [now left|].
  destruct (is_space c) eqn:E; [exact IH|].
  right. now exists c, s.
Qed.

Lemma rstrip_nonspace_head (c : ascii) (r : string) :
  is_space c = false -> rstrip (String c r) = String c (rstrip r).
Proof.
  intros E. simpl. rewrite E. now destruct (rstrip r).
Qed.

Lemma rstrip_idem (s : string) : rstrip (rstrip s) = rstrip s.
Proof.
  induction s as [|c s IH]; [reflexivity|].
  cbn [rstrip]. destruct (rstrip s) as [|c' r'] eqn:E.
  - destruct (is_space c) eqn:Ec; [reflexivity|].
    cbn [rstrip]. now rewrite Ec.
  - cbn [rstrip]. cbn [rstrip] in IH. rewrite IH. reflexivity.
Qed.

Lemma lstrip_strip (s : string) : lstrip (strip s) = strip s.
Proof.
  unfold strip. destruct (lstrip_cases s) as [E|(c & r & E & Ec)];
    rewrite E; [reflexivity|].
  rewrite (rstrip_nonspace_head _ _ Ec). simpl. now rewrite Ec.
Qed.

Lemma strip_idem (s : string) : strip (strip s) = strip s.
Proof.
  unfold strip at 1. rewrite lstrip_strip. unfold strip. apply rstrip_idem.
Qed.

Lemma rstrip_strip (s : string) : rstrip (strip s) = strip s.
Proof. unfold strip. apply rstrip_idem. Qed.

Lemma strip_empty_lstrip (s : string) : strip s = "" -> lstrip s = "".
Proof.
  unfold strip. destruct (lstrip_cases s) as [E|(c & r & E & Ec)];
    rewrite E; [reflexivity|].
  rewrite (rstrip_nonspace_head _ _ Ec). discriminate.
Qed.

Lemma lstrip_app_space (s y : string) :
  lstrip s = "" -> lstrip (s ++ y) = lstrip y.
Proof.
  induction s as [|c s IH]; simpl; [reflexivity|].
  destruct (is_space c); [exact IH|discriminate].
Qed.

Lemma lstrip_app_nonspace (s y : string) :
  lstrip s <> "" -> lstrip (s ++ y) = lstrip s ++ y.
Proof.
  induction s as [|c s IH]; simpl; [congruence|].
  destruct (is_space c); [exact IH|reflexivity].
Qed.

Lemma rstrip_app_fixed (x p : string) :
  rstrip p = p -> p <> "" -> rstrip (x ++ p) = x ++ p.
Proof.
  intros Hp Hne. induction x as [|c x IH]; simpl; [exact Hp|].
  rewrite IH. destruct (x ++ p) eqn:E; [|reflexivity].
  destruct x; simpl in E; [contradiction|discriminate].
Qed.

Lemma is_suffix_refl (s : string) : is_suffix s s.
Proof. now exists "". Qed.

Lemma is_suffix_empty (s : string) : is_suffix "" s.
Proof.
  exists s. induction s as [|c s IH]; simpl; [reflexivity|].
  now rewrite <- IH.
Qed.

Lemma append_assoc (a b c : string) : (a ++ b) ++ c = a ++ (b ++ c).
Proof. induction a as [|x a IH]; simpl; [reflexivity|now rewrite IH]. Qed.

Lemma is_suffix_trans (a b c : string) :
  is_suffix a b -> is_suffix b c -> is_suffix a c.
Proof.
  intros [p ->] [q ->]. exists (q ++ p). now rewrite append_assoc.
Qed.

Lemma is_suffix_cons (a : string) (c : ascii) (s : string) :
  is_suffix a s -> is_suffix a (String c s).
Proof. intros [p ->]. now exists (String c p). Qed.

Lemma lstrip_suffix (s : string) : is_suffix (lstrip s) s.
Proof.
  induction s as [|c s IH]; simpl; [apply is_suffix_refl|].
  destruct (is_space c); [now apply is_suffix_cons|apply is_suffix_refl].
Qed.

Lemma drop_suffix (n : nat) (s : string) : is_suffix (drop n s) s.
Proof.
  revert s. induction n as [|n IH]; intros [|c s]; simpl;
    try apply is_suffix_refl.
  apply is_suffix_cons, IH.
Qed.

Lemma after_sentence_end_suffix (s rest : string) :
  Chunker.after_sentence_end s = Some rest -> is_suffix rest s.
Proof.
  induction s as [|c s IH]; simpl; [discriminate|].
  destruct s as [|c' s']; [discriminate|].
  destruct (Chunker.is_terminator c && is_space c').
  - intros H. injection H as <-. apply is_suffix_cons, lstrip_suffix.
  - intros H. apply is_suffix_cons. now apply IH.
Qed.

End StripFacts.

(** ** Chunking two paragraphs *)

Section ChunkerFacts.

Import PyStr.

Local Open Scope string_scope.

Variable Id : Type.
Variable Metadata : Type.
Variable tokenizer : option (string -> list nat).
Variable config : Chunker.ChunkingConfig.
Variable doc : Id.
Variable meta : Metadata.

Local Abbreviation count := (Chunker.count_tokens tokenizer).
Local Abbreviation overlap_of := (Chunker._get_overlap_text config).
Local Abbreviation chunks_of :=
  (Chunker.chunk_document Id Metadata tokenizer config doc meta).
Local Abbreviation content_of := (Chunker.content Id Metadata).
Local Abbreviation index_of := (Chunker.chunk_index Id Metadata).

Local Abbreviation clean := Chunker.clean.

Lemma clean_not_blank (s : string) : clean s -> Chunker.blank s = false.
Proof.
  intros [Hs Hne]. unfold Chunker.blank. rewrite Hs.
  destruct s; [contradiction|reflexivity].
Qed.

Lemma clean_rstrip (s : string) : clean s -> rstrip s = s.
Proof. intros [Hs _]. rewrite <- Hs. apply rstrip_strip. Qed.

Lemma blank_lstrip (s : string) : Chunker.blank s = true -> lstrip s = "".
Proof.
  unfold Chunker.blank. intros H. apply strip_empty_lstrip.
  destruct (strip s); [reflexivity|discriminate].
Qed.

Lemma not_blank_lstrip (s : string) :
  Chunker.blank s = false -> lstrip s <> "".
Proof.
  unfold Chunker.blank, strip. intros H E. rewrite E in H. discriminate.
Qed.

Lemma overlap_suffix (s : string) : is_suffix (overlap_of s) s.
Proof.
  unfold Chunker._get_overlap_text.
  destruct s as [|c s]; [apply is_suffix_refl|].
  destruct (Chunker.overlap config =? 0)%nat; [apply is_suffix_empty|].
  destruct (_ <=? _)%nat; [apply is_suffix_refl|].
  assert (Hlast : is_suffix
                    (last_chars (Chunker.overlap config * 4) (String c s))
                    (String c s)) by apply drop_suffix.
  destruct (Chunker.respect_sentence_boundaries config); [|exact Hlast].
  destruct (Chunker.after_sentence_end _) as [rest|] eqn:E; [|exact Hlast].
  eapply is_suffix_trans; [|exact Hlast].
  now apply after_sentence_end_suffix.
Qed.

(** The stripped text of a buffer seeded with [o] and extended by a clean
    piece. *)
Lemma strip_append_piece (o p : string) :
  clean p ->
  strip (Chunker.append_piece o p)
  = if Chunker.blank o then p
    else lstrip o ++ Chunker.double_newline ++ p.
Proof.
  intros Hp. unfold Chunker.append_piece, strip.
  destruct (Chunker.blank o) eqn:B.
  - rewrite (lstrip_app_space _ _ (blank_lstrip _ B)).
    destruct Hp as [Hs Hne]. exact Hs.
  - rewrite (lstrip_app_nonspace _ _ (not_blank_lstrip _ B)).
    apply rstrip_app_fixed.
    + apply rstrip_app_fixed; [now apply clean_rstrip|now destruct Hp].
    + destruct Hp as [_ Hne]. unfold Chunker.double_newline. discriminate.
Qed.

Lemma append_piece_not_blank (o p : string) :
  clean p -> Chunker.blank (Chunker.append_piece o p) = false.
Proof.
  intros Hp. unfold Chunker.blank at 1. rewrite (strip_append_piece _ _ Hp).
  destruct (Chunker.blank o) eqn:B.
  - destruct Hp as [_ Hne]. destruct p; [contradiction|reflexivity].
  - pose proof (not_blank_lstrip _ B) as Hne.
    destruct (lstrip o); [contradiction|reflexivity].
Qed.

Lemma overlap_prefix_of_next (o p : string) :
  clean p -> is_prefix (lstrip o) (strip (Chunker.append_piece o p)).
Proof.
  intros Hp. rewrite (strip_append_piece _ _ Hp).
  destruct (Chunker.blank o) eqn:B.
  - rewrite (blank_lstrip _ B). now exists p.
  - now exists (Chunker.double_newline ++ p).
Qed.

(** Every segment carries a clean text. *)
Lemma segment_text_clean (t : string) :
  Forall (fun seg => clean (Chunker.text seg)) (Chunker._segment_text t).
Proof.
  unfold Chunker._segment_text.
  match goal with |- context [fold_left ?f _ _] => set (add_block := f) end.
  assert (H : forall blocks acc,
    Forall (fun seg => clean (Chunker.text seg)) (fst acc) ->
    Forall (fun seg => clean (Chunker.text seg))
      (fst (fold_left add_block blocks acc))).
  { induction blocks as [|b blocks IH]; intros [segments pos] Hacc;
      [exact Hacc|].
    cbn [fold_left]. apply IH. subst add_block. cbv beta iota zeta.
    destruct (strip b) as [|c r] eqn:E; [exact Hacc|].
    destruct (Chunker._classify_segment (String c r)) as [kind level].
    cbn [fst] in *. apply Forall_app. split; [exact Hacc|].
    constructor; [|constructor]. cbn [Chunker.text].
    split; [rewrite <- E; apply strip_idem|discriminate]. }
  apply H. constructor.
Qed.

Lemma split_blocks_blank (s : string) :
  forall skip cur, lstrip s = "" -> lstrip cur = "" ->
  Forall (fun b => lstrip b = "") (Chunker.split_blocks s skip cur).
Proof.
  induction s as [|c s IH]; intros skip cur Hs Hcur.
  - simpl. now constructor.
  - assert (Hc : is_space c = true /\ lstrip s = "").
    { simpl in Hs. destruct (is_space c); [now split|discriminate]. }
    destruct Hc as [Hc Hs'].
    cbn [Chunker.split_blocks]. destruct skip as [|skip]; [|now apply IH].
    destruct (Chunker.blank_line_at (String c s)).
    + constructor; [exact Hcur|]. now apply IH.
    + apply IH; [exact Hs'|].
      rewrite (lstrip_app_space _ _ Hcur). simpl. now rewrite Hc.
Qed.

Lemma blank_no_segments (t : string) :
  Chunker.blank t = true -> Chunker._segment_text t = [].
Proof.
  intros B. unfold Chunker._segment_text.
  pose proof (split_blocks_blank t 0 "" (blank_lstrip _ B) eq_refl) as Hb.
  match goal with |- context [fold_left ?f _ _] => set (add_block := f) end.
  assert (H : forall blocks acc,
    Forall (fun b => lstrip b = "") blocks ->
    fold_left add_block blocks acc = acc).
  { induction blocks as [|b blocks IH]; intros [segments pos] Hall;
      [reflexivity|].
    inversion Hall as [|? ? Hb1 Hb2]; subst.
    cbn [fold_left]. rewrite <- (IH (segments, pos) Hb2) at 2. f_equal.
    unfold add_block. cbv beta iota zeta.
    unfold strip. rewrite Hb1. reflexivity. }
  now rewrite (H _ _ Hb).
Qed.

Local Abbreviation state := (Chunker.state Id Metadata).
Local Abbreviation step :=
  (Chunker.step Id Metadata tokenizer config doc meta).
Local Abbreviation chunks_in := (Chunker.chunks Id Metadata).
Local Abbreviation buffer := (Chunker.current_chunk_text Id Metadata).
Local Abbreviation next := (Chunker.next_index Id Metadata).

Lemma update_headings_keeps (st : state) (seg : Chunker.TextSegment) :
  let st' := Chunker.update_headings Id Metadata st seg in
  chunks_in st' = chunks_in st /\ buffer st' = buffer st
  /\ next st' = next st.
Proof.
  unfold Chunker.update_headings.
  destruct (Chunker.segment_type seg); try (repeat split; reflexivity).
  destruct (Chunker.heading_level seg) as [[|l]|]; repeat split; reflexivity.
Qed.

(** A segment that needs no splitting, met with an empty buffer and no
    chunk yet: it becomes the buffer. *)
Lemma step_first (st : state) (seg : Chunker.TextSegment) :
  chunks_in st = [] -> buffer st = "" ->
  (count (Chunker.text seg) <= Chunker.max_size config)%nat ->
  chunks_in (step st seg) = []
  /\ buffer (step st seg) = Chunker.text seg
  /\ next (step st seg) = next st.
Proof.
  intros Hc Hb Hmax. unfold Chunker.step. cbv zeta.
  destruct (update_headings_keeps st seg) as (Hc' & Hb' & Hn').
  set (st1 := Chunker.update_headings Id Metadata st seg) in *.
  rewrite Hc in Hc'. rewrite Hb in Hb'.
  set (st2 := if (_ <? _ + _)%nat then _ else st1).
  assert (H2 : chunks_in st2 = [] /\ buffer st2 = "" /\ next st2 = next st).
  { subst st2. destruct (_ <? _ + _)%nat; [|now repeat split].
    unfold Chunker.flush_for. rewrite Hb'.
    change (Chunker.blank "") with true. cbv iota.
    cbn [Chunker.chunks Chunker.current_chunk_text Chunker.next_index].
    now repeat split. }
  destruct H2 as (Hc2 & Hb2 & Hn2).
  apply Nat.ltb_ge in Hmax. rewrite Hmax.
  cbn [Chunker.chunks Chunker.current_chunk_text Chunker.next_index].
  rewrite Hb2. now repeat split.
Qed.

(** The next segment does not fit: the buffer is saved as a chunk and the
    new buffer is its overlap followed by the segment. *)
Lemma step_overflow (st : state) (seg : Chunker.TextSegment) (p : string) :
  chunks_in st = [] -> buffer st = p -> clean p ->
  (Chunker.target_size config < count p + count (Chunker.text seg))%nat ->
  (count (Chunker.text seg) <= Chunker.max_size config)%nat ->
  map content_of (chunks_in (step st seg)) = [p]
  /\ map index_of (chunks_in (step st seg)) = [next st]
  /\ buffer (step st seg)
     = Chunker.append_piece (overlap_of p) (Chunker.text seg)
  /\ next (step st seg) = S (next st).
Proof.
  intros Hc Hb Hp Hover Hmax. unfold Chunker.step. cbv zeta.
  destruct (update_headings_keeps st seg) as (Hc' & Hb' & Hn').
  set (st1 := Chunker.update_headings Id Metadata st seg) in *.
  rewrite Hc in Hc'. rewrite Hb in Hb'.
  set (st2 := if (_ <? _ + _)%nat then _ else st1).
  assert (H2 : map content_of (chunks_in st2) = [p]
               /\ map index_of (chunks_in st2) = [next st]
               /\ buffer st2 = overlap_of p /\ next st2 = S (next st)).
  { subst st2. rewrite Hb'. apply Nat.ltb_lt in Hover. rewrite Hover.
    unfold Chunker.flush_for. rewrite Hb', (clean_not_blank _ Hp).
    cbn [Chunker.chunks Chunker.current_chunk_text Chunker.next_index].
    rewrite Hc', Hn'.
    cbn [app map Chunker._create_chunk Chunker.content Chunker.chunk_index].
    destruct Hp as [Hs _]. rewrite Hs. now repeat split. }
  destruct H2 as (Hc2 & Hi2 & Hb2 & Hn2).
  apply Nat.ltb_ge in Hmax. rewrite Hmax.
  cbn [Chunker.chunks Chunker.current_chunk_text Chunker.next_index].
  rewrite Hb2. now repeat split.
Qed.


End ChunkerFacts.



(** Above [max_size] the first paragraph is split on its own, and the
    pieces need not reach any chunk: here nothing is emitted at all. *)
Example oversized_paragraph_no_chunk :
  map (fun seg => Chunker.count_tokens None (Chunker.text seg))
    (Chunker._segment_text Samples.sparse_paragraph_then_short) = [1051; 0]
  /\ Chunker.chunk_document unit unit None Chunker.default_config tt tt
       Samples.sparse_paragraph_then_short = [].
Proof. split; vm_compute; reflexivity. Qed.

(** * Further properties *)

(** ** Access levels and role checks *)

Lemma dict_get_filter_In {V : Type} (p : V -> bool) (d : Dict.t V)
    (k : string) :
  NoDup (Dict.keys d) ->
  In k (map fst (filter (fun kv => p (snd kv)) d))
  <-> exists v, Dict.get d k = Some v /\ p v = true.
Proof.
  induction d as [|[k' v'] d IH]; simpl; intros Hnd.
  - split; [tauto|]. intros (v & H & _). discriminate.
  - inversion Hnd as [|? ? Hnotin Hnd']; subst.
    destruct (String.eqb k' k) eqn:E.
    + apply String.eqb_eq in E. subst k'. split.
      * intros H. exists v'. split; [reflexivity|].
        destruct (p v') eqn:Ep; [reflexivity|].
        exfalso. apply Hnotin.
        apply in_map_iff in H. destruct H as ([a b] & Ha & Hin).
        apply filter_In in Hin. simpl in Ha. subst a.
        apply in_map_iff. exists (k, b). split; [reflexivity|apply Hin].
      * intros (v & Hv & Hp). injection Hv as <-. rewrite Hp. now left.
    + apply String.eqb_neq in E.
      rewrite <- (IH Hnd'). destruct (p v'); simpl; [|tauto].
      split; [intros [H|H]; [congruence|exact H]|now right].
Qed.

Lemma DOCUMENT_ACCESS_LEVELS_NoDup :
  NoDup (Dict.keys Security.DOCUMENT_ACCESS_LEVELS).
Proof.
  unfold Dict.keys. simpl.
  repeat (constructor; [simpl; intuition discriminate|]). constructor.
Qed.

Lemma can_access_level (r required : Security.UserRole) :
  Security.can_access r required = true
  <-> Security.access_level required <= Security.access_level r.
Proof. unfold Security.can_access. apply Nat.leb_le. Qed.

Lemma In_accessible (role : Security.UserRole) (t : string) :
  In t (Security.get_accessible_document_types role)
  <-> exists required,
        Dict.get Security.DOCUMENT_ACCESS_LEVELS t = Some required
        /\ Security.can_access role required = true.
Proof.
  unfold Security.get_accessible_document_types.
  apply (dict_get_filter_In (Security.can_access role)).
  apply DOCUMENT_ACCESS_LEVELS_NoDup.
Qed.

(** X1. A role's accessible document types grow with the role: whatever a
    role may read, every role of at least its access level may read too. *)
Theorem accessible_types_grow_with_role (lo hi : Security.UserRole) :
  Security.access_level lo <= Security.access_level hi ->
  incl (Security.get_accessible_document_types lo)
       (Security.get_accessible_document_types hi).
Proof.
  intros Hle t Hin.
  apply In_accessible in Hin. destruct Hin as (required & Hget & Hacc).
  apply In_accessible. exists required. split; [exact Hget|].
  apply can_access_level. apply can_access_level in Hacc. lia.
Qed.

Lemma accessible_types_grow_with_role_witness :
  incl (Security.get_accessible_document_types Security.ANALYST)
       (Security.get_accessible_document_types Security.CONSULTANT).
Proof.
  apply (accessible_types_grow_with_role Security.ANALYST Security.CONSULTANT).
  simpl. lia.
Defined.

(** X2. [RoleBasedFilter.can_access_document] admits a document type
    exactly when the type, lower-cased, is a key of the access table and
    the role reaches the level [get_document_access_level] gives for it.
    A type outside the table is refused for every role, although
    [get_document_access_level] rates it analyst-level. *)
Theorem can_access_document_by_level (role : Security.UserRole)
    (document_type : string) :
  Access.can_access_document (Access.new_RoleBasedFilter role) document_type
  = Dict.mem Security.DOCUMENT_ACCESS_LEVELS (PyStr.lower document_type)
    && Security.can_access role
         (Security.get_document_access_level document_type).
Proof.
  unfold Access.can_access_document, Access.new_RoleBasedFilter,
    Security.get_document_access_level, Dict.mem.
  cbn [Access.accessible_types].
  set (t := PyStr.lower document_type).
  destruct (str_in t (Security.get_accessible_document_types role)) eqn:E.
  - apply str_in_In in E. apply In_accessible in E.
    destruct E as (required & Hget & Hacc). rewrite Hget. simpl.
    now rewrite Hacc.
  - destruct (Dict.get Security.DOCUMENT_ACCESS_LEVELS t) as [required|] eqn:Hget;
      [|reflexivity].
    simpl. destruct (Security.can_access role required) eqn:Hacc;
      [|reflexivity].
    assert (Hin : In t (Security.get_accessible_document_types role))
      by (apply In_accessible; eauto).
    apply str_in_In in Hin. congruence.
Qed.

(** X3. The role the ingestion route asks for a document type is the role
    the access table asks for reading it: a user may ingest documents of a
    type exactly when that type is among the user's accessible types. *)
Theorem ingest_role_is_read_role (d : Access.DocumentType) :
  Access._get_required_role_for_type d
  = Security.get_document_access_level (Access.DocumentType_value d)
  /\ forall user,
       (exists e, Access.ingest_guard user d = inl e)
       <-> ~ In (Access.DocumentType_value d)
               (Security.get_accessible_document_types (Security.role user)).
Proof.
  split; [destruct d; reflexivity|].
  intros user. unfold Access.ingest_guard.
  rewrite In_accessible.
  assert (Hget : Dict.get Security.DOCUMENT_ACCESS_LEVELS
                   (Access.DocumentType_value d)
                 = Some (Access._get_required_role_for_type d))
    by (destruct d; reflexivity).
  destruct (Security.can_access (Security.role user)
              (Access._get_required_role_for_type d)) eqn:Hacc; cbn [negb].
  - split; [intros (e & He); discriminate|].
    intros H. exfalso. apply H. eauto.
  - split; [|eauto].
    intros _ (required & Hr & Hc). rewrite Hget in Hr.
    injection Hr as <-. congruence.
Qed.

(** X4. Whoever passes the three request dependencies in turn
    ([verify_api_key], [get_current_user], the checker of [require_role])
    presented the configured key when authentication is on, is returned
    unchanged, and sent a role header that names, in any letter case, a
    role reaching the required one; any other header passes only
    analyst-level checks. *)
Theorem role_check_admits (auth_enabled : bool) (api_key : string)
    (x_api_key : option string) (x_user_id x_user_role : string)
    (x_user_email : option string) (required : Security.UserRole)
    (key : string) (user admitted : Security.User) :
  Access.verify_api_key auth_enabled api_key x_api_key = inr key ->
  Security.get_current_user x_user_id x_user_role x_user_email = Ok user ->
  Access.require_role required user = inr admitted ->
  (auth_enabled = true -> x_api_key = Some api_key /\ key = api_key)
  /\ admitted = user
  /\ (required = Security.ANALYST
      \/ exists r, PyStr.lower x_user_role = Security.value r
                   /\ Security.role user = r
                   /\ Security.can_access r required = true).
Proof.
  intros Hkey Huser Hreq. split; [|split].
  - intros ->. unfold Access.verify_api_key in Hkey. simpl in Hkey.
    destruct x_api_key as [[|c k]|]; try discriminate.
    destruct (String.eqb (String c k) api_key) eqn:E; [|discriminate].
    apply String.eqb_eq in E. injection Hkey as <-. now rewrite E.
  - unfold Access.require_role in Hreq.
    destruct (Access.can_access_role user required); [|discriminate].
    simpl in Hreq. congruence.
  - unfold Access.require_role, Access.can_access_role in Hreq.
    destruct (Security.can_access (Security.role user) required) eqn:Hacc;
      [|discriminate].
    unfold Security.get_current_user, Security.from_string,
      Security.UserRole_of_value in Huser.
    destruct (String.eqb (PyStr.lower x_user_role) "analyst") eqn:E1.
    { apply String.eqb_eq in E1. simpl in Huser. injection Huser as <-.
      right. exists Security.ANALYST. now repeat split. }
    destruct (String.eqb (PyStr.lower x_user_role) "consultant") eqn:E2.
    { apply String.eqb_eq in E2. simpl in Huser. injection Huser as <-.
      right. exists Security.CONSULTANT. now repeat split. }
    destruct (String.eqb (PyStr.lower x_user_role) "partner") eqn:E3.
    { apply String.eqb_eq in E3. simpl in Huser. injection Huser as <-.
      right. exists Security.PARTNER. now repeat split. }
    simpl in Huser. injection Huser as <-. simpl in Hacc.
    left. destruct required; [reflexivity|discriminate|discriminate].
Qed.

Lemma role_check_admits_witness :
  let user := Security.mkUser "u-17" Security.CONSULTANT None None in
  (true = true -> Some "dev-key-change-me" = Some "dev-key-change-me"
                  /\ "dev-key-change-me" = "dev-key-change-me")
  /\ user = user
  /\ (Security.CONSULTANT = Security.ANALYST
      \/ exists r, PyStr.lower "Consultant" = Security.value r
                   /\ Security.role user = r
                   /\ Security.can_access r Security.CONSULTANT = true).
Proof.
  apply (role_check_admits true "dev-key-change-me" (Some "dev-key-change-me")
           "u-17" "Consultant" None Security.CONSULTANT "dev-key-change-me");
    vm_compute; reflexivity.
Defined.

(** ** The sparse index: adding, removing, searching *)

Section BM25Facts.

Import Documents.

Local Abbreviation content_of doc :=
  (or_default (VectorStore.p_content doc) EmptyString).

Local Abbreviation has_content :=
  (fun doc : VectorStore.payload =>
     negb (String.eqb (or_default (VectorStore.p_content doc) EmptyString)
             EmptyString)).

Lemma add_document_fold (docs : list VectorStore.payload) (n : nat)
    (ds : list BM25.BM25Document) :
  fold_left BM25Store.add_document docs (n, ds)
  = (n + List.length (filter has_content docs),
     ds ++ map (fun doc => BM25Store.to_index_document (content_of doc) doc)
             (filter has_content docs)).
Proof.
  revert n ds. induction docs as [|doc docs IH]; intros n ds; simpl.
  - now rewrite Nat.add_0_r, app_nil_r.
  - destruct (or_default (VectorStore.p_content doc) EmptyString) as [|c s]
      eqn:E; simpl.
    + apply IH.
    + rewrite IH. simpl. rewrite E.
      rewrite <- app_assoc. simpl. f_equal. lia.
Qed.

Lemma filter_shorter {A : Type} (p : A -> bool) (l : list A) :
  List.length (filter p l) < List.length l
  <-> exists x, In x l /\ p x = false.
Proof.
  induction l as [|a l IH]; simpl.
  - split; [lia|intros (x & [] & _)].
  - pose proof (filter_length_le p l) as Hle.
    destruct (p a) eqn:E; simpl.
    + rewrite <- Nat.succ_lt_mono, IH. split.
      * intros (x & Hx & Hp). eauto.
      * intros (x & [->|Hx] & Hp); [congruence|eauto].
    + split; [intros _; exists a; auto|lia].
Qed.

Lemma In_firstn_inv {A : Type} (x : A) (n : nat) (l : list A) :
  In x (firstn n l) -> In x l.
Proof.
  revert l. induction n as [|n IH]; intros [|y l]; simpl; try tauto.
  intros [->|Hin]; [now left|right; eauto].
Qed.

(** Every result of a search is built from a document of the index whose
    score is positive and which passes every entry of a non-empty filter. *)
Lemma bm25_search_origin
    (okapi_scores : list (list string) -> list string -> result (nat -> Q))
    (self : BM25.BM25Index) (query : string) (top_k : nat)
    (fd : option filter_dict) (results : list RetrievedDocument) :
  fst (BM25.search okapi_scores self query top_k fd) = Ok results ->
  Forall
    (fun r =>
       exists doc s,
         In doc (BM25.documents self)
         /\ (0 < s)%Q
         /\ match fd with
            | Some (e :: fd') =>
                forallb (BM25.passes_filter (BM25.bm_metadata doc)) (e :: fd')
                = true
            | _ => True
            end
         /\ r = mkRetrievedDocument (BM25.bm_chunk_id doc) (BM25.doc_id doc)
                  (BM25.bm_content doc) (Qmin (s / 30) 1) (rank r)
                  (or_default (m_filename (BM25.bm_metadata doc)) EmptyString)
                  (or_default (m_document_type (BM25.bm_metadata doc))
                     EmptyString)
                  (m_title (BM25.bm_metadata doc))
                  (m_section_title (BM25.bm_metadata doc))
                  (or_default (m_chunk_index (BM25.bm_metadata doc)) 0)
                  None None [])
    results.
Proof.
  unfold BM25.search.
  set (self' := if BM25._needs_rebuild self then BM25._rebuild_index self
                else self).
  assert (Hdocs : BM25.documents self' = BM25.documents self).
  { unfold self', BM25._rebuild_index.
    destruct (BM25._needs_rebuild self); [|reflexivity].
    destruct (BM25.documents self) eqn:E; simpl; congruence. }
  destruct (negb (BM25.bm25 self') ||
            match BM25.documents self' with [] => true | _ => false end);
    simpl; [intros H; injection H as <-; constructor|].
  destruct (BM25._tokenize query) as [|t ts]; simpl;
    [intros H; injection H as <-; constructor|].
  unfold BM25.get_scores.
  destruct (okapi_scores _ (t :: ts)) as [score_at|e]; simpl; [|discriminate].
  set (scores0 := map score_at (seq 0 (List.length (map BM25.tokens
                                                   (BM25.documents self'))))).
  set (scores :=
         match fd with
         | Some (e :: fd') => BM25._apply_filters self' scores0 (e :: fd')
         | _ => scores0
         end).
  assert (Hlen0 : List.length scores0 = List.length (BM25.documents self'))
    by (unfold scores0; now rewrite !length_map, length_seq).
  assert (Hlen : List.length scores = List.length (BM25.documents self')).
  { unfold scores. destruct fd as [[|e fd']|]; try exact Hlen0.
    unfold BM25._apply_filters.
    rewrite length_map, length_combine, Hlen0. apply Nat.min_id. }
  intros H. injection H as <-.
  apply Forall_forall. intros r Hr.
  apply in_flat_map in Hr. destruct Hr as ([rk idx] & Hin & Hr).
  unfold enumerate in Hin. apply in_combine_r in Hin.
  assert (Hidx : idx < List.length scores).
  { assert (Hin' : In idx (seq 0 (List.length scores))).
    { apply In_firstn_inv in Hin.
      eapply Permutation_in; [apply sorted_desc_perm|exact Hin]. }
    apply in_seq in Hin'. lia. }
  unfold BM25.build_result in Hr.
  destruct (Qle_bool (nth idx scores 0%Q) 0) eqn:Epos; [destruct Hr|].
  destruct Hr as [<-|[]].
  exists (nth idx (BM25.documents self') BM25.no_document),
         (nth idx scores 0%Q).
  split; [rewrite <- Hdocs; apply nth_In; lia|].
  split.
  { apply Qnot_le_lt. intros K. apply Qle_bool_iff in K. congruence. }
  split; [|reflexivity].
  destruct fd as [[|e fd']|]; try exact I.
  unfold scores, BM25._apply_filters in Epos.
  match type of Epos with
  | context [map ?g _] => set (f := g) in Epos
  end.
  rewrite (nth_indep _ 0%Q (f (0%Q, BM25.no_document))) in Epos
    by (rewrite length_map, length_combine; lia).
  rewrite (map_nth f), combine_nth in Epos by exact Hlen0.
  subst f. cbn [fst snd] in Epos.
  match type of Epos with
  | context [if ?c then _ else _] => destruct c eqn:Ef
  end; [exact Ef|discriminate].
Qed.

(** X5. [add_documents] appends to the index, in order, one document for
    every input that has content, leaves the documents already there in
    place, passes over the inputs without content, returns the number
    appended and marks the index for a rebuild. *)
Theorem add_documents_appends (self : BM25.BM25Index)
    (docs : list VectorStore.payload) :
  let kept := filter has_content docs in
  let added := fst (BM25Store.add_documents self docs) in
  let self' := snd (BM25Store.add_documents self docs) in
  added = List.length kept
  /\ added <= List.length docs
  /\ BM25.documents self'
     = BM25.documents self
       ++ map (fun doc => BM25Store.to_index_document (content_of doc) doc) kept
  /\ BM25._needs_rebuild self' = true.
Proof.
  unfold BM25Store.add_documents. rewrite add_document_fold. simpl.
  repeat split. apply filter_length_le.
Qed.

(** X6. [remove_document] reports [True] exactly when the index held a
    document with that chunk id; afterwards no document has it, every other
    document is still there, and no search returns that chunk, whatever
    the scorer computes. *)
Theorem remove_document_forgets (self : BM25.BM25Index) (cid : string) :
  let removed := fst (BM25Store.remove_document self cid) in
  let self' := snd (BM25Store.remove_document self cid) in
  (removed = true <-> In cid (map BM25.bm_chunk_id (BM25.documents self)))
  /\ ~ In cid (map BM25.bm_chunk_id (BM25.documents self'))
  /\ (forall d, In d (BM25.documents self) -> BM25.bm_chunk_id d <> cid ->
                In d (BM25.documents self'))
  /\ (forall okapi_scores query top_k fd results,
        fst (BM25.search okapi_scores self' query top_k fd) = Ok results ->
        ~ In cid (map chunk_id results)).
Proof.
  set (p := fun d => negb (String.eqb (BM25.bm_chunk_id d) cid)).
  assert (Hdocs : BM25.documents (snd (BM25Store.remove_document self cid))
                  = filter p (BM25.documents self)).
  { unfold BM25Store.remove_document. fold p.
    now destruct (_ <? _). }
  assert (Hgone : ~ In cid (map BM25.bm_chunk_id
                             (filter p (BM25.documents self)))).
  { intros H. apply in_map_iff in H. destruct H as (d & Hd & Hin).
    apply filter_In in Hin. destruct Hin as [_ Hp]. unfold p in Hp.
    rewrite Hd, String.eqb_refl in Hp. discriminate. }
  cbv zeta. rewrite Hdocs. split; [|split; [exact Hgone|split]].
  - unfold BM25Store.remove_document. fold p.
    destruct (_ <? _) eqn:E; simpl.
    + apply Nat.ltb_lt, filter_shorter in E. destruct E as (d & Hin & Hp).
      split; [intros _|reflexivity].
      apply in_map_iff. exists d. split; [|exact Hin].
      unfold p in Hp. apply negb_false_iff, String.eqb_eq in Hp. exact Hp.
    + split; [discriminate|]. intros H. exfalso.
      apply Nat.ltb_ge in E.
      assert (K : List.length (filter p (BM25.documents self))
                  < List.length (BM25.documents self)); [|lia].
      apply filter_shorter. apply in_map_iff in H.
      destruct H as (d & Hd & Hin). exists d. split; [exact Hin|].
      unfold p. now rewrite Hd, String.eqb_refl.
  - intros d Hin Hne. apply filter_In. split; [exact Hin|].
    unfold p. apply negb_true_iff, String.eqb_neq. exact Hne.
  - intros okapi_scores query top_k fd results Hs Hin.
    apply bm25_search_origin in Hs. rewrite Forall_forall in Hs.
    apply in_map_iff in Hin. destruct Hin as (r & Hr & Hin).
    destruct (Hs r Hin) as (doc & s & Hdoc & _ & _ & Heq).
    rewrite Hdocs in Hdoc. apply Hgone.
    apply in_map_iff. exists doc. split; [|exact Hdoc].
    rewrite Heq in Hr. exact Hr.
Qed.

(** X7. With a non-empty filter, a search of the sparse index returns only
    documents of the index that pass every entry of the filter; each result
    carries the chunk id and the document type of its document and a score
    above 0 and at most 1, and there are at most [top_k] results. *)
Theorem bm25_search_respects_filter
    (okapi_scores : list (list string) -> list string -> result (nat -> Q))
    (self : BM25.BM25Index) (query : string) (top_k : nat)
    (e : string * filter_value) (fd : filter_dict)
    (results : list RetrievedDocument) :
  fst (BM25.search okapi_scores self query top_k (Some (e :: fd))) = Ok results ->
  List.length results <= top_k
  /\ Forall
       (fun r =>
          (0 < score r)%Q /\ (score r <= 1)%Q
          /\ exists doc,
               In doc (BM25.documents self)
               /\ forallb (BM25.passes_filter (BM25.bm_metadata doc)) (e :: fd)
                  = true
               /\ chunk_id r = BM25.bm_chunk_id doc
               /\ document_type r
                  = or_default (m_document_type (BM25.bm_metadata doc))
                      EmptyString)
       results.
Proof.
  intros Hs. split.
  - pose proof (bm25_search_ranks _ _ _ _ _ _ Hs) as Hranks.
    clear - Hs Hranks. unfold BM25.search in Hs.
    destruct (negb _ || _); simpl in Hs;
      [injection Hs as <-; simpl; lia|].
    destruct (BM25._tokenize query); simpl in Hs;
      [injection Hs as <-; simpl; lia|].
    destruct (BM25.get_scores _ _ _) as [scores|]; simpl in Hs;
      [|discriminate].
    injection Hs as <-.
    match goal with
    | |- List.length (flat_map ?f (enumerate ?l)) <= _ =>
        assert (Hl : List.length l <= top_k) by apply firstn_le_length;
        revert Hl; generalize l as tops; intros tops Hl;
        assert (K : forall start,
                  List.length
                    (flat_map f (combine (seq start (List.length tops)) tops))
                  <= List.length tops)
    end.
    { induction tops as [|i tops IH]; intros start; simpl; [lia|].
      rewrite length_app.
      assert (Hone : List.length
                       (BM25.build_result
                          (if BM25._needs_rebuild self
                           then BM25._rebuild_index self else self)
                          match e :: fd with
                          | [] => scores
                          | _ :: _ =>
                              BM25._apply_filters
                                (if BM25._needs_rebuild self
                                 then BM25._rebuild_index self else self)
                                scores (e :: fd)
                          end (start, i)) <= 1).
      { unfold BM25.build_result. destruct (Qle_bool _ 0); simpl; lia. }
      assert (Hl' : List.length tops <= top_k) by (simpl in Hl; lia).
      specialize (IH Hl' (S start)). simpl in *. lia. }
    unfold enumerate. specialize (K 0). lia.
  - apply bm25_search_origin in Hs.
    eapply Forall_impl; [|exact Hs].
    intros r (doc & s & Hdoc & Hpos & Hpass & Heq).
    rewrite Heq. cbn [score chunk_id document_type].
    split; [|split; [apply Q.le_min_r|]].
    + apply Q.min_glb_lt; [|reflexivity].
      apply Qlt_shift_div_l; [reflexivity|]. now rewrite Qmult_0_l.
    + exists doc. now repeat split.
Qed.

Lemma bm25_search_respects_filter_witness :
  exists results,
    fst (BM25.search Samples.overlap_scores Samples.sparse_index
           "pricing playbook fee" 5
           (Some [("document_type"%string, FStr "playbook")])) = Ok results
    /\ List.length results <= 5
    /\ Forall
         (fun r =>
            (0 < score r)%Q /\ (score r <= 1)%Q
            /\ exists doc,
                 In doc (BM25.documents Samples.sparse_index)
                 /\ forallb (BM25.passes_filter (BM25.bm_metadata doc))
                      [("document_type"%string, FStr "playbook")] = true
                 /\ chunk_id r = BM25.bm_chunk_id doc
                 /\ document_type r
                    = or_default (m_document_type (BM25.bm_metadata doc))
                        EmptyString)
         results.
Proof.
  eexists. split; [vm_compute; reflexivity|].
  apply (bm25_search_respects_filter Samples.overlap_scores
           Samples.sparse_index "pricing playbook fee" 5
           ("document_type"%string, FStr "playbook") []).
  vm_compute. reflexivity.
Defined.

End BM25Facts.

(** ** What the sparse source lets through *)

Section SparseSource.

Import Documents.

Lemma build_filter_dict_head (user_role : Security.UserRole)
    (client_name practice_area : option string)
    (document_types : option (list string)) :
  exists rest,
    Hybrid.build_filter_dict user_role client_name practice_area document_types
    = ("document_type",
       FList (Hybrid.allowed_types user_role document_types)) :: rest.
Proof.
  unfold Hybrid.build_filter_dict.
  destruct (Hybrid.truthy_str client_name), (Hybrid.truthy_str practice_area);
    simpl; eexists; reflexivity.
Qed.

Lemma build_filter_dict_client (user_role : Security.UserRole)
    (c : ascii) (s : string) (practice_area : option string)
    (document_types : option (list string)) :
  In ("client_name", FStr (String c s))
     (Hybrid.build_filter_dict user_role (Some (String c s)) practice_area
        document_types).
Proof.
  unfold Hybrid.build_filter_dict.
  destruct (Hybrid.truthy_str practice_area); simpl; auto.
Qed.

Lemma build_filter_dict_practice (user_role : Security.UserRole)
    (client_name : option string) (c : ascii) (s : string)
    (document_types : option (list string)) :
  In ("practice_area", FStr (String c s))
     (Hybrid.build_filter_dict user_role client_name (Some (String c s))
        document_types).
Proof.
  unfold Hybrid.build_filter_dict.
  destruct (Hybrid.truthy_str client_name); simpl; auto.
Qed.

Lemma collected_In (enabled : bool) (stage : result (list RetrievedDocument))
    (d : RetrievedDocument) :
  In d (Hybrid.collected enabled stage) ->
  exists l, stage = Ok l /\ In d l.
Proof.
  unfold Hybrid.collected. destruct enabled; [|intros []].
  destruct stage as [l|e]; simpl; [eauto|intros []].
Qed.

Variable embed_text : string -> result (list Q).
Variable vector_store : VectorStore.VectorStore.
Variable client_initialize : result unit.
Variable client_search :
  list Q -> nat -> option (list VectorStore.condition) -> Q ->
  result (list VectorStore.hit).
Variable retrieval_min_score : Q.
Variable okapi_scores : list (list string) -> list string -> result (nat -> Q).

Local Abbreviation retrieve index config :=
  (Hybrid.retrieve embed_text vector_store client_initialize client_search
     retrieval_min_score index okapi_scores config).

Local Abbreviation dense_results config query top_k fd :=
  (Hybrid.collected (Hybrid.use_dense config)
     (Hybrid.dense_stage embed_text vector_store client_initialize
        client_search retrieval_min_score query (Nat.min (top_k * 2) 50) fd)).

(** X8. When the dense source contributes nothing (it is switched off, it
    fails, or it finds nothing), hybrid retrieval returns only documents
    whose type the role may access, and only requested types when the
    caller named some: the sparse index drops every document that fails the
    role filter, also when the list of allowed types is empty. *)
Theorem sparse_results_are_role_safe (index : BM25.BM25Index)
    (config : Hybrid.HybridSearchConfig) (query : string)
    (user_role : Security.UserRole) (top_k : nat)
    (client_name practice_area : option string)
    (document_types : option (list string))
    (results : list RetrievedDocument) :
  dense_results config query top_k
    (Hybrid.build_filter_dict user_role client_name practice_area
       document_types) = [] ->
  retrieve index config query user_role top_k client_name practice_area
    document_types = Ok results ->
  Forall
    (fun d =>
       In (document_type d) (Security.get_accessible_document_types user_role)
       /\ forall t ts, document_types = Some (t :: ts) ->
                       In (document_type d) (t :: ts))
    results.
Proof.
  intros Hdense Hret. unfold Hybrid.retrieve in Hret.
  cbv zeta in Hret. rewrite Hdense in Hret.
  match type of Hret with
  | context [Hybrid.collected ?en ?st] =>
      set (sparse := Hybrid.collected en st) in *;
      assert (Hsp : forall d, In d sparse -> exists l, st = Ok l /\ In d l)
        by (intros d; apply collected_In)
  end.
  assert (Hres : forall d, In d results -> In d sparse).
  { destruct sparse as [|d0 sp]; injection Hret as <-; [intros d []|].
    intros d. apply In_firstn_inv. }
  apply Forall_forall. intros d Hd.
  destruct (Hsp d (Hres d Hd)) as (l & Hstage & Hin).
  unfold Hybrid.sparse_stage in Hstage.
  destruct (build_filter_dict_head user_role client_name practice_area
              document_types) as (rest & Hfd).
  rewrite Hfd in Hstage. apply bm25_search_origin in Hstage.
  rewrite Forall_forall in Hstage.
  destruct (Hstage d Hin) as (doc & s & _ & _ & Hpass & Heq).
  cbn [forallb] in Hpass. apply andb_true_iff in Hpass.
  destruct Hpass as [Hpass _].
  unfold BM25.passes_filter, meta_get in Hpass. simpl in Hpass.
  destruct (m_document_type (BM25.bm_metadata doc)) as [v|] eqn:Ev;
    [|discriminate].
  apply str_in_In in Hpass.
  assert (Hty : document_type d = v) by (rewrite Heq; reflexivity).
  rewrite Hty. split.
  - eapply allowed_types_accessible. exact Hpass.
  - intros t ts ->. now apply allowed_types_intersection in Hpass.
Qed.

(** An index filled by the ingestion route only: its documents carry
    neither a client name nor a practice area. *)
Lemma ingested_documents_unlabelled
    (batches : list (Ingest.DocumentMetadata * list Ingest.DocumentChunk)) :
  Forall
    (fun doc =>
       m_client_name (BM25.bm_metadata doc) = None
       /\ m_practice_area (BM25.bm_metadata doc) = None)
    (BM25.documents
       (fold_left
          (fun index batch =>
             snd (Ingest.index_chunks index (fst batch) (snd batch)))
          batches BM25Store.new_index)).
Proof.
  assert (H : forall index,
    Forall (fun doc => m_client_name (BM25.bm_metadata doc) = None
                       /\ m_practice_area (BM25.bm_metadata doc) = None)
      (BM25.documents index) ->
    Forall (fun doc => m_client_name (BM25.bm_metadata doc) = None
                       /\ m_practice_area (BM25.bm_metadata doc) = None)
      (BM25.documents
         (fold_left
            (fun index batch =>
               snd (Ingest.index_chunks index (fst batch) (snd batch)))
            batches index))).
  { induction batches as [|[metadata chunks] batches IH]; intros index Hinv;
      simpl; [exact Hinv|].
    apply IH. unfold Ingest.index_chunks, BM25Store.add_documents.
    rewrite add_document_fold. simpl.
    apply Forall_app. split; [exact Hinv|].
    apply Forall_forall. intros doc Hdoc.
    apply in_map_iff in Hdoc. destruct Hdoc as (p & <- & Hp).
    apply filter_In in Hp. destruct Hp as [Hp _].
    apply in_map_iff in Hp. destruct Hp as (c & <- & _).
    split; reflexivity. }
  apply H. constructor.
Qed.

(** X9. The documents the ingestion route adds to the sparse index carry
    no client name and no practice area.  So over an index filled by that
    route, a query with a client-name or practice-area filter gets nothing
    from the sparse source, and hybrid retrieval returns the first [top_k]
    dense results alone. *)
Theorem client_filter_silences_sparse_source
    (batches : list (Ingest.DocumentMetadata * list Ingest.DocumentChunk))
    (config : Hybrid.HybridSearchConfig) (query : string)
    (user_role : Security.UserRole) (top_k : nat)
    (client_name practice_area : option string)
    (document_types : option (list string)) :
  let index :=
    fold_left
      (fun index batch =>
         snd (Ingest.index_chunks index (fst batch) (snd batch)))
      batches BM25Store.new_index in
  let fd :=
    Hybrid.build_filter_dict user_role client_name practice_area
      document_types in
  (exists c s, client_name = Some (String c s))
  \/ (exists c s, practice_area = Some (String c s)) ->
  Hybrid.collected (Hybrid.use_sparse config)
    (Hybrid.sparse_stage index okapi_scores query (Nat.min (top_k * 2) 50) fd)
  = []
  /\ retrieve index config query user_role top_k client_name practice_area
       document_types
     = Ok (firstn top_k (dense_results config query top_k fd)).
Proof.
  intros index fd Hlabel.
  assert (Hentry : exists key v s,
            In (key, FStr (String v s)) fd
            /\ forall doc, In doc (BM25.documents index) ->
                           meta_get (BM25.bm_metadata doc) key = None).
  { pose proof (ingested_documents_unlabelled batches) as Hinv.
    fold index in Hinv. rewrite Forall_forall in Hinv.
    destruct Hlabel as [(c & s & ->)|(c & s & ->)].
    - exists "client_name", c, s. split; [apply build_filter_dict_client|].
      intros doc Hdoc. unfold meta_get. simpl. apply (Hinv doc Hdoc).
    - exists "practice_area", c, s. split; [apply build_filter_dict_practice|].
      intros doc Hdoc. unfold meta_get. simpl. apply (Hinv doc Hdoc). }
  destruct Hentry as (key & v & s & Hin & Hnone).
  assert (Hsparse :
    Hybrid.collected (Hybrid.use_sparse config)
      (Hybrid.sparse_stage index okapi_scores query (Nat.min (top_k * 2) 50) fd)
    = []).
  { destruct (Hybrid.collected _ _) as [|d l] eqn:E; [reflexivity|exfalso].
    assert (Hd : In d (Hybrid.collected (Hybrid.use_sparse config)
                         (Hybrid.sparse_stage index okapi_scores query
                            (Nat.min (top_k * 2) 50) fd)))
      by (rewrite E; now left).
    apply collected_In in Hd. destruct Hd as (l' & Hstage & Hd).
    unfold Hybrid.sparse_stage in Hstage.
    destruct fd as [|e fd'] eqn:Efd; [destruct Hin|].
    apply bm25_search_origin in Hstage. rewrite Forall_forall in Hstage.
    destruct (Hstage d Hd) as (doc & _ & Hdoc & _ & Hpass & _).
    rewrite forallb_forall in Hpass. specialize (Hpass _ Hin).
    unfold BM25.passes_filter in Hpass. now rewrite (Hnone doc Hdoc) in Hpass. }
  split; [exact Hsparse|].
  unfold Hybrid.retrieve. cbv zeta. fold fd. rewrite Hsparse.
  destruct (Hybrid.collected (Hybrid.use_dense config) _);
    [now rewrite firstn_nil|reflexivity].
Qed.

End SparseSource.

Lemma sparse_results_are_role_safe_witness :
  Forall
    (fun d =>
       In (Documents.document_type d)
          (Security.get_accessible_document_types Security.ANALYST)
       /\ forall t ts, Some ["partner_memo"; "playbook"] = Some (t :: ts) ->
                       In (Documents.document_type d) (t :: ts))
    [ Documents.mkRetrievedDocument "chunk-2" "doc-2"
        "Playbook for pricing discussions." (Qmin (1 / 30) 1) 0 "playbook.md"
        "playbook" None None 0 None None [] ].
Proof.
  apply (sparse_results_are_role_safe Samples.embed_fails Samples.ready_store
           (Ok tt) (VectorStore.memory_client Samples.stored_points) (5#10)%Q
           Samples.overlap_scores Samples.sparse_index Fixtures.sparse_only
           "pricing and fee structure" Security.ANALYST 5 None None
           (Some ["partner_memo"; "playbook"]));
    vm_compute; reflexivity.
Defined.

Lemma client_filter_silences_sparse_source_witness :
  Hybrid.collected true
    (Hybrid.sparse_stage Fixtures.ingested_index Samples.overlap_scores
       "pricing playbook" (Nat.min (5 * 2) 50)
       (Hybrid.build_filter_dict Security.PARTNER (Some "Acme Corp") None None))
  = [].
Proof.
  apply (client_filter_silences_sparse_source Samples.embed_unit
           Samples.ready_store (Ok tt)
           (VectorStore.memory_client Samples.stored_points) (5#10)%Q
           Samples.overlap_scores
           [(Fixtures.memo_metadata, [Fixtures.memo_chunk])]
           Hybrid.default_config "pricing playbook" Security.PARTNER 5
           (Some "Acme Corp") None None).
  left. exists "A"%char, "cme Corp". reflexivity.
Defined.



(** ** Stored payloads *)

(** X11. What is stored with a chunk comes back on retrieval: the payload
    [add_chunks] builds for a chunk, returned by a search with a score and
    at a rank, becomes the retrieved document with the chunk's id, content,
    index and section title and with the metadata's document id, file name,
    document type, title, client name, practice area and tags.  The
    document id is the one of the metadata, not the one of the chunk. *)
Theorem stored_chunk_round_trip (score : Q) (rank : nat)
    (c : Ingest.DocumentChunk) :
  let m := Chunker.document_metadata _ _ (Ingest.chunk c) in
  VectorStore.to_document (rank, Ingest.stored_hit score c)
  = Documents.mkRetrievedDocument
      (Ingest.chunk_id c) (Ingest.md_document_id m)
      (Chunker.content _ _ (Ingest.chunk c)) score rank
      (Ingest.md_filename m)
      (Access.DocumentType_value (Ingest.md_document_type m))
      (Ingest.md_title m)
      (Chunker.section_title _ _ (Ingest.chunk c))
      (Chunker.chunk_index _ _ (Ingest.chunk c))
      (Ingest.md_client_name m) (Ingest.md_practice_area m)
      (Ingest.md_tags m).
Proof.
  destruct c as [cid [doc content idx sc ec section hierarchy m tokens]].
  destruct m as [mid file ftype dtype title client practice author created tags].
  destruct title, client, practice, author, section; reflexivity.
Qed.

(** ** Hybrid retrieval as a whole *)

Section RetrieveFacts.

Import Documents.

Variable config : Hybrid.HybridSearchConfig.
Hypothesis Hk : (1 <= Hybrid.rrf_k config)%nat.

Local Abbreviation carries_own_id :=
  (Forall (fun e : string * (Q * RetrievedDocument) =>
             chunk_id (snd (snd e)) = fst e)).

Lemma dict_set_carries (scores : Hybrid.score_table) (c : string) (v : Q)
    (d : RetrievedDocument) :
  carries_own_id scores -> chunk_id d = c ->
  carries_own_id (Dict.set scores c (v, d)).
Proof.
  intros H Hd. induction scores as [|[c' [v' d']] scores IH]; simpl.
  - repeat constructor. exact Hd.
  - apply Forall_cons_iff in H. destruct H as [Hc Hrest].
    destruct (String.eqb c' c); constructor; auto.
Qed.

Lemma dict_get_carries (scores : Hybrid.score_table) (c : string) (v : Q)
    (d : RetrievedDocument) :
  carries_own_id scores -> Dict.get scores c = Some (v, d) -> chunk_id d = c.
Proof.
  intros H. induction H as [|[c' [v' d']] scores Hc _ IH]; simpl;
    [discriminate|].
  destruct (String.eqb c' c) eqn:E; [|exact IH].
  apply String.eqb_eq in E. intros K. injection K as <- <-.
  simpl in Hc. congruence.
Qed.

Lemma add_dense_total (docs : list RetrievedDocument) :
  forall scores, carries_own_id scores ->
  exists scores', Hybrid.add_dense config scores docs = Ok scores'
                  /\ carries_own_id scores'.
Proof.
  induction docs as [|d docs IH]; intros scores H; simpl; [eauto|].
  rewrite (rrf_term_ok config Hk). simpl.
  apply IH. now apply dict_set_carries.
Qed.

Lemma add_sparse_total (docs : list RetrievedDocument) :
  forall scores, carries_own_id scores ->
  exists scores', Hybrid.add_sparse config scores docs = Ok scores'
                  /\ carries_own_id scores'.
Proof.
  induction docs as [|d docs IH]; intros scores H; simpl; [eauto|].
  rewrite (rrf_term_ok config Hk). simpl.
  destruct (Dict.get scores (chunk_id d)) as [[v d0]|] eqn:E.
  - apply IH. apply dict_set_carries; [exact H|].
    eapply dict_get_carries; eassumption.
  - apply IH. now apply dict_set_carries.
Qed.

Lemma fusion_total (dense sparse : list RetrievedDocument) :
  exists fused,
    Hybrid._reciprocal_rank_fusion config dense sparse = Ok fused
    /\ map rank fused = seq 0 (List.length fused).
Proof.
  unfold Hybrid._reciprocal_rank_fusion.
  destruct (add_dense_total dense [] (Forall_nil _)) as (s1 & -> & H1).
  simpl.
  destruct (add_sparse_total sparse s1 H1) as (s2 & -> & H2). simpl.
  eexists. split; [reflexivity|].
  unfold enumerate.
  apply fused_docs_shape.
  eapply Permutation_Forall; [symmetry; apply sorted_desc_perm|exact H2].
Qed.

End RetrieveFacts.

(** X12. With a fusion constant of at least 1, as the settings require,
    hybrid retrieval returns whatever its sources do: a source may raise,
    return nothing or return the same chunk several times, and the result
    is still a list of at most [top_k] documents whose ranks are
    0, 1, 2, ... in order. *)
Theorem retrieve_returns_ranked_list
    (embed_text : string -> result (list Q))
    (vector_store : VectorStore.VectorStore) (client_initialize : result unit)
    (client_search :
       list Q -> nat -> option (list VectorStore.condition) -> Q ->
       result (list VectorStore.hit))
    (retrieval_min_score : Q) (bm25_index : BM25.BM25Index)
    (okapi_scores : list (list string) -> list string -> result (nat -> Q))
    (config : Hybrid.HybridSearchConfig) (query : string)
    (user_role : Security.UserRole) (top_k : nat)
    (client_name practice_area : option string)
    (document_types : option (list string)) :
  (1 <= Hybrid.rrf_k config)%nat ->
  exists results,
    Hybrid.retrieve embed_text vector_store client_initialize client_search
      retrieval_min_score bm25_index okapi_scores config query user_role top_k
      client_name practice_area document_types = Ok results
    /\ List.length results <= top_k
    /\ map Documents.rank results = seq 0 (List.length results).
Proof.
  intros Hk. unfold Hybrid.retrieve. cbv zeta.
  set (fd := Hybrid.build_filter_dict _ _ _ _).
  set (fetch_k := Nat.min (top_k * 2) 50).
  pose proof (collected_ranks (Hybrid.use_dense config) _
                (dense_stage_ranks embed_text vector_store client_initialize
                   client_search retrieval_min_score query fetch_k fd))
    as Hdense.
  pose proof (collected_ranks (Hybrid.use_sparse config) _
                (fun l => bm25_search_ranks okapi_scores bm25_index query
                            fetch_k (Some fd) l)) as Hsparse.
  fold (Hybrid.sparse_stage bm25_index okapi_scores query fetch_k fd)
    in Hsparse.
  destruct (Hybrid.collected (Hybrid.use_dense config) _) as [|d0 dense];
    destruct (Hybrid.collected (Hybrid.use_sparse config) _) as [|s0 sparse].
  - exists []. repeat split. simpl. lia.
  - eexists. split; [reflexivity|]. split; [apply firstn_le_length|].
    now apply ranked_firstn.
  - eexists. split; [reflexivity|]. split; [apply firstn_le_length|].
    now apply ranked_firstn.
  - destruct (fusion_total config Hk (d0 :: dense) (s0 :: sparse))
      as (fused & -> & Hranks).
    simpl. eexists. split; [reflexivity|].
    split; [apply firstn_le_length|]. now apply ranked_firstn.
Qed.

Lemma retrieve_returns_ranked_list_witness :
  exists results,
    Hybrid.retrieve Samples.embed_unit Samples.ready_store (Ok tt)
      (VectorStore.memory_client Samples.stored_points) (5#10)
      Samples.sparse_index Samples.overlap_scores Hybrid.default_config
      "pricing playbook" Security.PARTNER 1 None None None = Ok results
    /\ List.length results <= 1
    /\ map Documents.rank results = seq 0 (List.length results).
Proof.
  apply retrieve_returns_ranked_list. simpl. lia.
Defined.

(** ** The context built from the retrieved documents *)

Section ContextFacts.

Import Documents.

Lemma append_nil_right (s : string) : (s ++ EmptyString)%string = s.
Proof. induction s as [|c s IH]; simpl; congruence. Qed.

Lemma join_parts (sep : string) (parts : list string) (i : nat) (p : string) :
  nth_error parts i = Some p ->
  exists before after, Context.join sep parts = (before ++ p ++ after)%string.
Proof.
  revert i. induction parts as [|q parts IH]; intros [|i] H; simpl in H;
    try discriminate.
  - injection H as <-. exists EmptyString.
    destruct parts as [|q' parts]; simpl.
    + exists EmptyString. now rewrite append_nil_right.
    + eexists. reflexivity.
  - destruct (IH i H) as (before & after & E).
    destruct parts as [|q' parts]; [destruct i; discriminate|].
    exists (q ++ sep ++ before)%string, after.
    change (Context.join sep (q :: q' :: parts))
      with (q ++ sep ++ Context.join sep (q' :: parts))%string.
    rewrite E. now rewrite !append_assoc.
Qed.

Lemma enumerate_nth {A : Type} (l : list A) (i : nat) (x : A) :
  nth_error l i = Some x -> nth_error (enumerate l) i = Some (i, x).
Proof.
  unfold enumerate.
  assert (H : forall start,
            nth_error l i = Some x ->
            nth_error (combine (seq start (List.length l)) l) i
            = Some (start + i, x)); [|apply (H 0)].
  revert i. induction l as [|y l IH]; intros [|i] start H; simpl in *;
    try discriminate.
  - injection H as <-. now rewrite Nat.add_0_r.
  - rewrite (IH i (S start) H). f_equal. f_equal. lia.
Qed.

Variable retrieve :
  string -> Security.UserRole -> nat -> option string -> option string ->
  option (list string) -> result (list RetrievedDocument).

(** X13. [retrieve_for_context] asks for [max(max_tokens // 500, 3)]
    documents and returns them as retrieved, together with a context in
    which every document appears in order under a header
    "[Source n: file name]" numbered from 1; the context is empty exactly
    when no document was retrieved, so the context the orchestrator hands
    to the prompt builder is never empty. *)
Theorem context_lists_every_document (query : string)
    (user_role : Security.UserRole) (max_tokens : nat)
    (client_name practice_area : option string)
    (document_types : option (list string))
    (documents : list RetrievedDocument) (context : string) :
  Context.retrieve_for_context retrieve query user_role max_tokens client_name
    practice_area document_types = Ok (documents, context) ->
  retrieve query user_role (Nat.max (max_tokens / 500) 3) client_name
    practice_area document_types = Ok documents
  /\ (forall i doc, nth_error documents i = Some doc ->
        exists before after,
          context
          = (before ++ "[Source " ++ Context.str_of_nat (i + 1) ++ ": "
             ++ filename doc ++ after)%string
          /\ exists before' after',
               context = (before' ++ content doc ++ after')%string)
  /\ (context = EmptyString <-> documents = [])
  /\ Orchestrator.context_for documents context <> EmptyString.
Proof.
  unfold Context.retrieve_for_context.
  destruct (retrieve _ _ _ _ _ _) as [docs|e]; simpl; [|discriminate].
  intros H. injection H as <- <-.
  split; [reflexivity|].
  assert (Hpart : forall i doc, nth_error docs i = Some doc ->
            exists before after,
              Context.join Context.separator
                (map Context.context_part (enumerate docs))
              = (before ++ Context.context_part (i, doc) ++ after)%string).
  { intros i doc Hnth. apply (join_parts _ _ i).
    rewrite nth_error_map, (enumerate_nth _ _ _ Hnth). reflexivity. }
  assert (Hne : docs <> [] ->
            Context.join Context.separator
              (map Context.context_part (enumerate docs)) <> EmptyString).
  { destruct docs as [|d docs]; [congruence|]. intros _.
    destruct (Hpart 0 d eq_refl) as (before & after & ->).
    unfold Context.context_part, Context.source_info.
    intros K.
    destruct (Hybrid.truthy_str (section_title d));
      destruct before; simpl in K; discriminate. }
  split; [|split].
  - intros i doc Hnth. destruct (Hpart i doc Hnth) as (before & after & E).
    rewrite E. clear E.
    unfold Context.context_part. cbn [snd].
    exists before.
    destruct (Hybrid.truthy_str (section_title doc)) as [s|] eqn:Es.
    + exists (" - " ++ s ++ "]" ++ Intent.nl ++ content doc ++ after)%string.
      split.
      * unfold Context.source_info. rewrite Es.
        now rewrite !append_assoc.
      * exists (before ++ Context.source_info (i, doc) ++ Intent.nl)%string,
               after.
        now rewrite !append_assoc.
    + exists ("]" ++ Intent.nl ++ content doc ++ after)%string.
      split.
      * unfold Context.source_info. rewrite Es.
        now rewrite !append_assoc.
      * exists (before ++ Context.source_info (i, doc) ++ Intent.nl)%string,
               after.
        now rewrite !append_assoc.
  - split.
    + intros E. destruct docs as [|d docs]; [reflexivity|].
      exfalso. apply Hne; [discriminate|exact E].
    + intros ->. reflexivity.
  - unfold Orchestrator.context_for.
    destruct docs as [|d docs]; [discriminate|].
    apply Hne. discriminate.
Qed.

End ContextFacts.

Lemma context_lists_every_document_witness :
  Context.retrieve_for_context
    (fun _ _ _ _ _ _ => Ok [Samples.doc_at "c-1" 0])
    "pricing" Security.ANALYST 4000 None None None
  = Ok ([Samples.doc_at "c-1" 0],
        ("[Source 1: notes.md]" ++ Intent.nl ++ "text")%string)
  /\ Orchestrator.context_for [Samples.doc_at "c-1" 0]
       ("[Source 1: notes.md]" ++ Intent.nl ++ "text")%string
     <> EmptyString.
Proof.
  split; [vm_compute; reflexivity|].
  apply (context_lists_every_document
           (fun _ _ _ _ _ _ => Ok [Samples.doc_at "c-1" 0])
           "pricing" Security.ANALYST 4000 None None None).
  vm_compute. reflexivity.
Defined.

(** ** Chunks: numbering, content, overlap *)

Section ChunkFacts.

Import PyStr.

Local Open Scope string_scope.

Variable Id : Type.
Variable Metadata : Type.
Variable tokenizer : option (string -> list nat).
Variable config : Chunker.ChunkingConfig.
Variable doc : Id.
Variable meta : Metadata.

Local Abbreviation state := (Chunker.state Id Metadata).
Local Abbreviation step :=
  (Chunker.step Id Metadata tokenizer config doc meta).
Local Abbreviation chunks_in := (Chunker.chunks Id Metadata).
Local Abbreviation buffer := (Chunker.current_chunk_text Id Metadata).
Local Abbreviation next := (Chunker.next_index Id Metadata).
Local Abbreviation index_of := (Chunker.chunk_index Id Metadata).
Local Abbreviation content_of := (Chunker.content Id Metadata).

(** The chunks made so far are numbered 0, 1, ... and [next_index] is
    their number. *)
Local Abbreviation numbered st :=
  (map index_of (chunks_in st) = seq 0 (next st)).

Lemma numbered_push (st : state) (t : string) (h : list string)
    (s : option string) (a b : nat) (buf : string)
    (segs : list Chunker.TextSegment) (h' : list string) (s' : option string) :
  numbered st ->
  numbered
    (Chunker.mkState Id Metadata
       (chunks_in st
        ++ [Chunker._create_chunk Id Metadata tokenizer t (next st) doc meta
              h s a b])
       buf segs (S (next st)) h' s').
Proof.
  intros H. cbn [Chunker.chunks Chunker.next_index].
  rewrite map_app, H, seq_S. reflexivity.
Qed.

Lemma numbered_flush (st : state) :
  numbered st ->
  numbered (Chunker.flush_for Id Metadata tokenizer config doc meta st).
Proof.
  intros H. unfold Chunker.flush_for.
  destruct (Chunker.blank (buffer st)); [exact H|].
  cbn [Chunker.chunks Chunker.next_index].
  rewrite map_app, H, seq_S. reflexivity.
Qed.

Lemma numbered_sub_chunks (seg : Chunker.TextSegment) (pieces : list string) :
  forall st, numbered st ->
  numbered
    (fold_left (Chunker.add_sub_chunk Id Metadata tokenizer config doc meta seg)
       pieces st).
Proof.
  induction pieces as [|p pieces IH]; intros st H; [exact H|].
  cbn [fold_left]. apply IH. unfold Chunker.add_sub_chunk.
  destruct (_ <=? _)%nat; [now apply numbered_push|exact H].
Qed.

Lemma numbered_step (st : state) (seg : Chunker.TextSegment) :
  numbered st -> numbered (step st seg).
Proof.
  intros H. unfold Chunker.step.
  assert (H0 : numbered (Chunker.update_headings Id Metadata st seg)).
  { destruct (update_headings_keeps Id Metadata st seg) as (Hc & _ & Hn).
    now rewrite Hc, Hn. }
  set (st0 := Chunker.update_headings Id Metadata st seg) in *.
  cbv zeta.
  set (st1 := if (_ <? _ + _)%nat then _ else st0).
  assert (H1 : numbered st1)
    by (unfold st1; destruct (_ <? _ + _)%nat;
        [now apply numbered_flush|exact H0]).
  destruct (Chunker.max_size config <? _)%nat;
    [now apply numbered_sub_chunks|exact H1].
Qed.

(** X14. The chunks of a document are numbered without gaps: the chunk at
    position [i] of the result has [chunk_index] [i], whatever the text,
    the configuration and the tokenizer. *)
Theorem chunk_indices_are_positions (t : string) :
  let chunks := Chunker.chunk_document Id Metadata tokenizer config doc meta t in
  map index_of chunks = seq 0 (List.length chunks).
Proof.
  cbv zeta. unfold Chunker.chunk_document.
  destruct (Chunker.blank t); [reflexivity|].
  unfold Chunker._create_chunks.
  set (st := fold_left step (Chunker._segment_text t)
               (Chunker.initial_state Id Metadata)).
  assert (H : numbered st).
  { unfold st. generalize (Chunker._segment_text t) as segs.
    assert (K : forall segs st0, numbered st0 ->
                  numbered (fold_left step segs st0)).
    { induction segs as [|seg segs IH]; intros st0 H0; [exact H0|].
      cbn [fold_left]. apply IH. now apply numbered_step. }
    intros segs. apply K. reflexivity. }
  assert (Hlen : List.length (chunks_in st) = next st).
  { rewrite <- (length_map index_of), H. apply length_seq. }
  destruct (negb _ && _).
  - rewrite map_app, H, length_app, Hlen. simpl.
    rewrite Nat.add_1_r, seq_S. reflexivity.
  - now rewrite H, Hlen.
Qed.

Lemma is_suffix_length (a b : string) :
  is_suffix a b -> String.length a <= String.length b.
Proof.
  intros (p & ->). induction p as [|c p IH]; simpl; lia.
Qed.

Lemma drop_length (n : nat) (s : string) :
  String.length (drop n s) = String.length s - n.
Proof.
  revert s. induction n as [|n IH]; intros [|c s]; simpl; auto.
Qed.

(** X15. The overlap carried into the next chunk is an end piece of the
    text it is taken from, of at most [4 * overlap] characters; it is the
    whole text when that is no longer than [4 * overlap] characters, and
    it is empty when the overlap is zero. *)
Theorem overlap_text_is_bounded_suffix (t : string) :
  let o := Chunker._get_overlap_text config t in
  is_suffix o t
  /\ (Chunker.overlap config = 0 -> o = "")
  /\ (0 < Chunker.overlap config ->
      String.length t <= Chunker.overlap config * 4 -> o = t)
  /\ (0 < Chunker.overlap config ->
      String.length o <= Chunker.overlap config * 4).
Proof.
  cbv zeta. split; [apply overlap_suffix|].
  unfold Chunker._get_overlap_text.
  destruct t as [|c t]; [repeat split; intros; simpl; lia|].
  destruct (Chunker.overlap config =? 0)%nat eqn:E0.
  { apply Nat.eqb_eq in E0. repeat split; intros; lia. }
  apply Nat.eqb_neq in E0.
  destruct (_ <=? _)%nat eqn:Elen.
  { apply Nat.leb_le in Elen. repeat split; intros; [lia|exact Elen]. }
  apply Nat.leb_gt in Elen.
  split; [intros; lia|]. split; [intros; lia|]. intros _.
  assert (Hlast : String.length
                    (last_chars (Chunker.overlap config * 4) (String c t))
                  <= Chunker.overlap config * 4).
  { unfold last_chars. rewrite drop_length. lia. }
  destruct (Chunker.respect_sentence_boundaries config); [|exact Hlast].
  destruct (Chunker.after_sentence_end _) as [rest|] eqn:E; [|exact Hlast].
  apply after_sentence_end_suffix, is_suffix_length in E. lia.
Qed.

End ChunkFacts.

(** ** Chunks are never empty *)

Section ChunkContent.

Import PyStr.

Local Open Scope string_scope.

Lemma blank_iff_lstrip (s : string) :
  Chunker.blank s = true <-> lstrip s = "".
Proof.
  split; [apply blank_lstrip|].
  intros H. unfold Chunker.blank, strip. now rewrite H.
Qed.

Lemma nonblank_iff_lstrip (s : string) :
  Chunker.blank s = false <-> lstrip s <> "".
Proof.
  split; [apply not_blank_lstrip|].
  intros H. destruct (Chunker.blank s) eqn:B; [|reflexivity].
  apply blank_iff_lstrip in B. contradiction.
Qed.

Lemma nonblank_app_l (a b : string) :
  Chunker.blank a = false -> Chunker.blank (a ++ b) = false.
Proof.
  rewrite !nonblank_iff_lstrip. intros H.
  rewrite (lstrip_app_nonspace _ _ H).
  destruct (lstrip a); [contradiction|discriminate].
Qed.

Lemma nonblank_app_r (a b : string) :
  Chunker.blank b = false -> Chunker.blank (a ++ b) = false.
Proof.
  intros Hb. destruct (Chunker.blank a) eqn:Ba.
  - apply blank_iff_lstrip in Ba. apply nonblank_iff_lstrip.
    rewrite (lstrip_app_space _ _ Ba). now apply nonblank_iff_lstrip.
  - now apply nonblank_app_l.
Qed.

Lemma nonblank_char (c : ascii) :
  is_space c = false -> Chunker.blank (String c "") = false.
Proof.
  intros E. apply nonblank_iff_lstrip. simpl. rewrite E. discriminate.
Qed.

Lemma terminator_not_space (c : ascii) :
  Chunker.is_terminator c = true -> is_space c = false.
Proof.
  unfold Chunker.is_terminator. simpl. rewrite !orb_false_r.
  intros H. apply orb_true_iff in H. destruct H as [H|H].
  - apply Ascii.eqb_eq in H. now subst.
  - apply orb_true_iff in H.
    destruct H as [H|H]; apply Ascii.eqb_eq in H; now subst.
Qed.

Lemma rstrip_fixed_tail (c : ascii) (s : string) :
  rstrip (String c s) = String c s ->
  match s with
  | "" => is_space c = false
  | _ => rstrip s = s
  end.
Proof.
  cbn [rstrip]. destruct s as [|c' s']; simpl.
  - destruct (is_space c); [discriminate|reflexivity].
  - destruct (rstrip s') as [|d r] eqn:E.
    + destruct (is_space c'); [destruct (is_space c); discriminate|].
      intros H. injection H as <-. reflexivity.
    + intros H. injection H as H. now rewrite H.
Qed.

(** The pieces of a text that does not end in white space. *)
Lemma split_sentences_nonblank (s : string) :
  forall prev skipping cur,
    (forall p, prev = Some p -> is_space p = false ->
               Chunker.blank cur = false) ->
    match s with
    | "" => exists p, prev = Some p /\ is_space p = false
    | _ => rstrip s = s
    end ->
    Forall (fun x => Chunker.blank x = false)
      (Chunker.split_sentences s prev skipping cur).
Proof.
  induction s as [|c s IH]; intros prev skipping cur Hcur Hend.
  - destruct Hend as (p & Hp & Hs). constructor; [eauto|constructor].
  - assert (Hend' : match s with
                    | "" => exists p, Some c = Some p /\ is_space p = false
                    | _ => rstrip s = s
                    end).
    { apply rstrip_fixed_tail in Hend. destruct s; [eauto|exact Hend]. }
    cbn [Chunker.split_sentences].
    destruct (skipping && is_space c) eqn:E1.
    + apply IH; [|exact Hend'].
      intros p Hp Hs. injection Hp as <-.
      apply andb_true_iff in E1. destruct E1 as [_ E1]. congruence.
    + destruct (is_space c &&
                match prev with
                | Some p => Chunker.is_terminator p
                | None => false
                end) eqn:E2.
      * apply andb_true_iff in E2. destruct E2 as [Ec Ep].
        destruct prev as [p|]; [|discriminate].
        constructor.
        -- apply (Hcur p eq_refl). now apply terminator_not_space.
        -- apply IH; [|exact Hend'].
           intros q Hq Hs. injection Hq as <-. congruence.
      * apply IH; [|exact Hend'].
        intros p Hp Hs. injection Hp as <-.
        apply nonblank_app_r. now apply nonblank_char.
Qed.

Variable Id : Type.
Variable Metadata : Type.
Variable tokenizer : option (string -> list nat).
Variable config : Chunker.ChunkingConfig.
Variable doc : Id.
Variable meta : Metadata.

Local Abbreviation state := (Chunker.state Id Metadata).
Local Abbreviation step :=
  (Chunker.step Id Metadata tokenizer config doc meta).
Local Abbreviation chunks_in := (Chunker.chunks Id Metadata).
Local Abbreviation buffer := (Chunker.current_chunk_text Id Metadata).
Local Abbreviation content_of := (Chunker.content Id Metadata).

Local Abbreviation nonblank := (fun x : string => Chunker.blank x = false).

Local Abbreviation good :=
  (fun c : Chunker.DocumentChunk Id Metadata =>
     content_of c <> "" /\ strip (content_of c) = content_of c).

Lemma split_large_segment_nonblank (seg : Chunker.TextSegment) :
  Chunker.clean (Chunker.text seg) ->
  Forall nonblank (Chunker._split_large_segment tokenizer config seg).
Proof.
  intros Hclean. unfold Chunker._split_large_segment. cbv zeta.
  assert (Hs : Forall nonblank
                 (Chunker.split_sentences (Chunker.text seg) None false "")).
  { apply split_sentences_nonblank; [discriminate|].
    pose proof (clean_rstrip _ Hclean) as Hr. destruct Hclean as [_ Hne].
    destruct (Chunker.text seg); [contradiction|exact Hr]. }
  revert Hs.
  generalize (Chunker.split_sentences (Chunker.text seg) None false "")
    as sentences.
  intros sentences Hs.
  match goal with
  | |- context [fold_left ?f _ _] => set (add := f)
  end.
  assert (H : forall (l : list string) (acc : list string * string),
            Forall nonblank l ->
            Forall nonblank (fst acc) ->
            (snd acc = "" \/ nonblank (snd acc)) ->
            Forall nonblank (fst (fold_left add l acc))
            /\ (snd (fold_left add l acc) = ""
                \/ nonblank (snd (fold_left add l acc)))).
  { induction l as [|x l IH]; intros [chunks cur] Hl Hc Hcur;
      [now split|].
    apply Forall_cons_iff in Hl. destruct Hl as [Hx Hl].
    cbn [fold_left]. apply IH; [exact Hl| |]; subst add;
      cbv beta iota zeta; cbn [fst snd] in *.
    - destruct (_ <? _)%Z.
      + destruct cur as [|c cur]; [exact Hc|].
        apply Forall_app. split; [exact Hc|].
        constructor; [|constructor].
        destruct Hcur as [Hcur|Hcur]; [discriminate|exact Hcur].
      + destruct cur; exact Hc.
    - destruct (_ <? _)%Z; cbn [snd]; [now right|].
      destruct cur as [|c cur]; cbn [snd]; [now right|].
      right. destruct Hcur as [Hcur|Hcur]; [discriminate|].
      now apply nonblank_app_l. }
  destruct (H sentences ([], "") Hs (Forall_nil _) (or_introl eq_refl))
    as [Hc Hcur].
  destruct (fold_left add sentences ([], "")) as [chunks cur].
  cbn [fst snd] in *.
  destruct cur as [|c cur]; [exact Hc|].
  apply Forall_app. split; [exact Hc|].
  constructor; [|constructor].
  destruct Hcur as [Hcur|Hcur]; [discriminate|exact Hcur].
Qed.

Lemma create_chunk_good (t : string) (i : nat) (h : list string)
    (s : option string) (a b : nat) :
  Chunker.blank t = false ->
  good (Chunker._create_chunk Id Metadata tokenizer t i doc meta h s a b).
Proof.
  intros B. cbn [Chunker._create_chunk Chunker.content]. split.
  - unfold Chunker.blank in B. destruct (strip t); [discriminate|discriminate].
  - apply strip_idem.
Qed.

Lemma append_piece_nonblank (o p : string) :
  Chunker.blank p = false -> Chunker.blank (Chunker.append_piece o p) = false.
Proof.
  intros Hp. unfold Chunker.append_piece.
  destruct (Chunker.blank o); repeat apply nonblank_app_r; exact Hp.
Qed.

Lemma good_sub_chunks (seg : Chunker.TextSegment) (pieces : list string) :
  Forall nonblank pieces ->
  forall st, Forall good (chunks_in st) ->
  Forall good
    (chunks_in
       (fold_left
          (Chunker.add_sub_chunk Id Metadata tokenizer config doc meta seg)
          pieces st)).
Proof.
  induction pieces as [|p pieces IH]; intros Hp st H; [exact H|].
  apply Forall_cons_iff in Hp. destruct Hp as [Hp Hps].
  cbn [fold_left]. apply (IH Hps). unfold Chunker.add_sub_chunk.
  destruct (_ <=? _)%nat; cbn [Chunker.chunks]; [|exact H].
  apply Forall_app. split; [exact H|].
  constructor; [|constructor].
  apply create_chunk_good. now apply append_piece_nonblank.
Qed.

Lemma good_step (st : state) (seg : Chunker.TextSegment) :
  Chunker.clean (Chunker.text seg) ->
  Forall good (chunks_in st) -> Forall good (chunks_in (step st seg)).
Proof.
  intros Hclean H. unfold Chunker.step.
  assert (H0 : Forall good
                 (chunks_in (Chunker.update_headings Id Metadata st seg))).
  { destruct (update_headings_keeps Id Metadata st seg) as (Hc & _ & _).
    now rewrite Hc. }
  set (st0 := Chunker.update_headings Id Metadata st seg) in *.
  cbv zeta.
  set (st1 := if (_ <? _ + _)%nat then _ else st0).
  assert (H1 : Forall good (chunks_in st1)).
  { unfold st1. destruct (_ <? _ + _)%nat; [|exact H0].
    unfold Chunker.flush_for.
    destruct (Chunker.blank (buffer st0)) eqn:B; cbn [Chunker.chunks];
      [exact H0|].
    apply Forall_app. split; [exact H0|].
    constructor; [|constructor]. now apply create_chunk_good. }
  destruct (Chunker.max_size config <? _)%nat; [|exact H1].
  apply good_sub_chunks; [|exact H1].
  now apply split_large_segment_nonblank.
Qed.

Lemma chunk_document_good (t : string) :
  Forall good
    (Chunker.chunk_document Id Metadata tokenizer config doc meta t).
Proof.
  unfold Chunker.chunk_document.
  destruct (Chunker.blank t); [constructor|].
  unfold Chunker._create_chunks.
  set (st := fold_left step (Chunker._segment_text t)
               (Chunker.initial_state Id Metadata)).
  assert (H : Forall good (chunks_in st)).
  { unfold st. pose proof (segment_text_clean t) as Hsegs. revert Hsegs.
    generalize (Chunker._segment_text t) as segs.
    assert (K : forall segs st0,
                  Forall (fun seg => Chunker.clean (Chunker.text seg)) segs ->
                  Forall good (chunks_in st0) ->
                  Forall good (chunks_in (fold_left step segs st0))).
    { induction segs as [|seg segs IH]; intros st0 Hs H0; [exact H0|].
      apply Forall_cons_iff in Hs. destruct Hs as [Hseg Hs].
      cbn [fold_left]. apply (IH _ Hs). now apply good_step. }
    intros segs Hsegs. apply K; [exact Hsegs|constructor]. }
  destruct (negb (Chunker.blank (buffer st))) eqn:B; cbn [andb];
    [|exact H].
  destruct (_ <=? _)%nat; [|exact H].
  apply Forall_app. split; [exact H|].
  constructor; [|constructor].
  apply create_chunk_good. now apply negb_true_iff in B.
Qed.

(** X16. No chunk is empty: the content of every chunk of a document is
    a non-empty text without white space at either end, whatever the
    text, the configuration and the tokenizer. *)
Theorem chunk_contents_are_not_empty (t : string) :
  Forall
    (fun c => content_of c <> "" /\ strip (content_of c) = content_of c)
    (Chunker.chunk_document Id Metadata tokenizer config doc meta t).
Proof. apply chunk_document_good. Qed.

End ChunkContent.

(** ** Segment offsets *)

Section SegmentOffsets.

Import PyStr.

Local Open Scope string_scope.

Lemma length_append (a b : string) :
  String.length (a ++ b) = String.length a + String.length b.
Proof. induction a as [|c a IH]; simpl; [reflexivity|now rewrite IH]. Qed.

Lemma substring_middle (a b c : string) :
  substring (String.length a) (String.length b) (a ++ b ++ c) = b.
Proof.
  induction a as [|x a IH]; simpl; [|exact IH].
  induction b as [|y b IHb]; simpl.
  - now destruct c.
  - now rewrite IHb.
Qed.

Lemma index_from (n m : nat) (s1 s2 : string) :
  String.index n s1 s2 = Some m -> n <= m.
Proof.
  revert n m. induction s2 as [|c s2 IH]; intros [|n] m; simpl;
    try discriminate; try lia.
  destruct (String.index n s1 s2) as [k|] eqn:E; [|discriminate].
  intros H. injection H as <-. apply IH in E. lia.
Qed.

(** A text that occurs at or after [from] is found by [find], at its
    first such occurrence. *)
Lemma index_finds (t b before after : string) (from : nat) :
  t = before ++ b ++ after -> b <> "" -> from <= String.length before ->
  exists pos, String.index from b t = Some pos
              /\ from <= pos /\ pos <= String.length before.
Proof.
  intros Ht Hb Hfrom.
  destruct (String.index from b t) as [pos|] eqn:E.
  - exists pos. split; [reflexivity|]. split; [now apply index_from in E|].
    destruct (Nat.le_gt_cases pos (String.length before)) as [H|H];
      [exact H|exfalso].
    apply (String.index_correct2 _ _ _ _ E (String.length before) Hfrom H).
    rewrite Ht. apply substring_middle.
  - exfalso.
    apply (String.index_correct3 _ (String.length before) _ _ E Hb Hfrom).
    rewrite Ht. apply substring_middle.
Qed.

Lemma in_order_weaken (blocks : list string) (t : string) (from from' : nat) :
  from' <= from -> Offsets.in_order blocks t from ->
  Offsets.in_order blocks t from'.
Proof.
  destruct blocks as [|b rest]; simpl; [auto|].
  intros Hle (before & after & Ht & Hfrom & Hrest).
  exists before, after. repeat split; auto. lia.
Qed.

Lemma split_blocks_in_order (s : string) :
  forall skip cur before,
    skip = 0 \/ cur = "" ->
    Offsets.in_order (Chunker.split_blocks s skip cur)
      (before ++ cur ++ s) (String.length before).
Proof.
  induction s as [|c s IH]; intros skip cur before Hskip.
  - simpl. exists before, "". repeat split; auto.
  - cbn [Chunker.split_blocks]. destruct skip as [|skip].
    + destruct (Chunker.blank_line_at (String c s)) as [n|].
      * cbn [Offsets.in_order]. exists before, (String c s).
        repeat split; auto.
        specialize (IH (n - 1) "" (before ++ cur ++ String c "")
                      (or_intror eq_refl)).
        replace ((before ++ cur ++ String c "") ++ "" ++ s)
          with (before ++ cur ++ String c s) in IH
          by (rewrite !append_assoc; reflexivity).
        eapply in_order_weaken; [|exact IH].
        rewrite !length_append. simpl. lia.
      * specialize (IH 0 (cur ++ String c "") before (or_introl eq_refl)).
        replace (before ++ (cur ++ String c "") ++ s)
          with (before ++ cur ++ String c s) in IH
          by (rewrite !append_assoc; reflexivity).
        exact IH.
    + destruct Hskip as [Hskip | ->]; [discriminate|].
      specialize (IH skip "" (before ++ String c "") (or_intror eq_refl)).
      replace ((before ++ String c "") ++ "" ++ s)
        with (before ++ "" ++ String c s) in IH
        by (rewrite !append_assoc; reflexivity).
      eapply in_order_weaken; [|exact IH].
      rewrite length_append. simpl. lia.
Qed.

Lemma rstrip_prefix (s : string) : exists sp, s = rstrip s ++ sp.
Proof.
  induction s as [|c s (sp & IH)]; [now exists ""|].
  cbn [rstrip]. destruct (rstrip s) as [|d r] eqn:E.
  - destruct (is_space c).
    + now exists (String c s).
    + exists sp. simpl in *. now rewrite <- IH.
  - exists sp. simpl in *. now rewrite <- IH.
Qed.

(** Stripping the blocks keeps them in order. *)
Lemma in_order_strip (blocks : list string) (t : string) :
  forall from, Offsets.in_order blocks t from ->
               Offsets.in_order (map strip blocks) t from.
Proof.
  induction blocks as [|b rest IH]; intros from; simpl; [auto|].
  intros (before & after & Ht & Hfrom & Hrest).
  destruct (lstrip_suffix b) as (sp & Hb).
  destruct (rstrip_prefix (lstrip b)) as (sp' & Hb').
  fold (strip b) in Hb'.
  exists (before ++ sp), (sp' ++ after).
  assert (Hlen : String.length b
                 = String.length sp + String.length (strip b)
                   + String.length sp').
  { rewrite Hb at 1. rewrite Hb' at 1. rewrite !length_append. lia. }
  split; [|split].
  - rewrite Ht. rewrite Hb at 1. rewrite Hb' at 1.
    now rewrite !append_assoc.
  - rewrite length_append. lia.
  - eapply in_order_weaken; [|apply IH; exact Hrest].
    rewrite length_append. lia.
Qed.

Local Abbreviation located t :=
  (fun seg : Chunker.TextSegment =>
     substring (Chunker.start_char seg) (String.length (Chunker.text seg)) t
     = Chunker.text seg
     /\ Chunker.end_char seg
        = Chunker.start_char seg + String.length (Chunker.text seg)).

Local Abbreviation apart :=
  (fun a b : Chunker.TextSegment => Chunker.end_char a <= Chunker.start_char b).

(** X17. The offsets of a segment locate it: the characters of the
    document from [start_char] to [end_char] are the text of the segment,
    and the segments follow one another in the document without overlap. *)
Theorem segment_offsets_locate_text (t : string) :
  Forall
    (fun seg =>
       substring (Chunker.start_char seg) (String.length (Chunker.text seg)) t
       = Chunker.text seg
       /\ Chunker.end_char seg
          = Chunker.start_char seg + String.length (Chunker.text seg))
    (Chunker._segment_text t)
  /\ StronglySorted
       (fun a b => Chunker.end_char a <= Chunker.start_char b)
       (Chunker._segment_text t).
Proof.
  unfold Chunker._segment_text.
  pose proof (split_blocks_in_order t 0 "" "" (or_introl eq_refl)) as Hord.
  simpl in Hord. apply in_order_strip in Hord.
  revert Hord. generalize (Chunker.split_blocks t 0 "") as blocks.
  intros blocks Hord.
  match goal with |- context [fold_left ?f _ _] => set (add_block := f) end.
  assert (H : forall blocks segments pos,
    Offsets.in_order (map strip blocks) t pos ->
    Forall (located t) segments ->
    StronglySorted apart segments ->
    Forall (fun seg => Chunker.end_char seg <= pos) segments ->
    Forall (located t) (fst (fold_left add_block blocks (segments, pos)))
    /\ StronglySorted apart
         (fst (fold_left add_block blocks (segments, pos)))).
  { clear blocks Hord.
    induction blocks as [|b blocks IH]; intros segments pos Hord Hloc Hs Hend;
      [now split|].
    cbn [fold_left]. cbn [map Offsets.in_order] in Hord.
    destruct Hord as (before & after & Ht & Hfrom & Hrest).
    destruct (strip b) as [|c r] eqn:E.
    - assert (Hstep : add_block (segments, pos) b = (segments, pos))
        by (unfold add_block; now rewrite E).
      rewrite Hstep.
      apply IH; auto. eapply in_order_weaken; [|exact Hrest]. simpl. lia.
    - destruct (Chunker._classify_segment (String c r)) as [kind level] eqn:Ec.
      destruct (index_finds t (String c r) before after pos Ht
                  ltac:(discriminate) Hfrom) as (p & Hidx & Hp1 & Hp2).
      assert (Hstep : add_block (segments, pos) b
                      = ((segments
                          ++ [Chunker.mkTextSegment (String c r) kind level p
                                (p + String.length (String c r))])%list,
                         p + String.length (String c r))).
      { unfold add_block. rewrite E, Ec. unfold Chunker.find_from.
        now rewrite Hidx. }
      rewrite Hstep.
      apply IH.
      + eapply in_order_weaken; [|exact Hrest]. lia.
      + apply Forall_app. split; [exact Hloc|].
        constructor; [|constructor]. cbn [Chunker.start_char Chunker.text
                                            Chunker.end_char].
        split; [|reflexivity].
        now apply String.index_correct1 in Hidx.
      + clear - Hs Hend Hp1. induction Hs as [|a l Hl IHl Ha].
        * repeat constructor.
        * apply Forall_cons_iff in Hend. destruct Hend as [Ha' Hend].
          cbn [app]. constructor; [now apply IHl|].
          apply Forall_app. split; [exact Ha|].
          constructor; [|constructor]. cbn [Chunker.start_char]. lia.
      + apply Forall_app. split.
        * eapply Forall_impl; [|exact Hend]. cbv beta. intros a Ha. lia.
        * constructor; [|constructor]. cbn [Chunker.end_char]. lia. }
  apply H; auto; constructor.
Qed.

(** X18. A segment has a heading level exactly when it is classified as a
    heading, and the level is then between 1 and 6. *)
Theorem heading_levels_are_bounded (t : string) :
  match Chunker._classify_segment t with
  | (Chunker.Heading, Some level) => 1 <= level <= 6
  | (Chunker.Heading, None) => False
  | (_, Some _) => False
  | (_, None) => True
  end.
Proof.
  unfold Chunker._classify_segment. cbv zeta.
  destruct (Chunker.heading_marker _) as [level|] eqn:E.
  - unfold Chunker.heading_marker in E.
    destruct ((1 <=? _) && (_ <=? 6) && _)%nat eqn:B; [|discriminate].
    injection E as <-.
    apply andb_true_iff in B. destruct B as [B _].
    apply andb_true_iff in B. destruct B as [B1 B2].
    apply Nat.leb_le in B1, B2. lia.
  - repeat match goal with
           | |- context [if ?c then _ else _] => destruct c
           end; simpl; auto; lia.
Qed.

End SegmentOffsets.

(** ** Ingestion: from the chunker to the sparse index *)

Section IngestedChunks.

Import Documents.

Variable tokenizer : option (string -> list nat).
Variable config : Chunker.ChunkingConfig.

Local Abbreviation chunk_content c :=
  (Chunker.content string Ingest.DocumentMetadata (Ingest.chunk c)).

(** The entry of the sparse index made from a chunk by the ingestion
    route. *)
Local Abbreviation index_entry metadata c :=
  (BM25.mkBM25Document
     (Chunker.document_id string Ingest.DocumentMetadata (Ingest.chunk c))
     (Ingest.chunk_id c) (chunk_content c)
     (BM25._tokenize (chunk_content c))
     (mkMetadata (Some (Ingest.md_filename metadata))
        (Some (Access.DocumentType_value (Ingest.md_document_type metadata)))
        (Ingest.md_title metadata)
        (Chunker.section_title string Ingest.DocumentMetadata (Ingest.chunk c))
        (Some (Chunker.chunk_index string Ingest.DocumentMetadata
                 (Ingest.chunk c)))
        None None None)).

Lemma index_chunks_nonempty (index : BM25.BM25Index)
    (metadata : Ingest.DocumentMetadata) (chunks : list Ingest.DocumentChunk) :
  Forall (fun c => chunk_content c <> EmptyString) chunks ->
  Ingest.index_chunks index metadata chunks
  = (List.length chunks,
     BM25.mkBM25Index
       (BM25.documents index ++ map (fun c => index_entry metadata c) chunks)
       (BM25.bm25 index) true).
Proof.
  intros H. unfold Ingest.index_chunks, BM25Store.add_documents.
  rewrite add_document_fold.
  assert (K : filter
                (fun doc : VectorStore.payload =>
                   negb (String.eqb
                           (or_default (VectorStore.p_content doc) EmptyString)
                           EmptyString))
                (map (fun c => Ingest.read_payload (Ingest.bm25_doc metadata c))
                   chunks)
              = map (fun c => Ingest.read_payload (Ingest.bm25_doc metadata c))
                  chunks).
  { induction H as [|c chunks Hc H IH]; [reflexivity|].
    cbn [map filter]. rewrite IH.
    replace (or_default
               (VectorStore.p_content
                  (Ingest.read_payload (Ingest.bm25_doc metadata c)))
               EmptyString) with (chunk_content c) by reflexivity.
    destruct (String.eqb_spec (chunk_content c) EmptyString) as [E|_];
      [contradiction|reflexivity]. }
  rewrite K, length_map, map_map. cbn [Nat.add].
  f_equal. f_equal. f_equal. apply map_ext_in. intros c _.
  unfold BM25Store.to_index_document. cbn.
  destruct (Ingest.md_title metadata);
    destruct (Chunker.section_title _ _ (Ingest.chunk c)); reflexivity.
Qed.

(** X23. Every chunk the chunker makes of a document reaches the sparse
    index: the ingestion route adds as many documents as there are chunks,
    in order and after the ones already present, each with the id,
    content and position of its chunk and the file name, type and title of
    the document, and marks the index for rebuilding. *)
Theorem every_chunk_is_indexed (index : BM25.BM25Index)
    (metadata : Ingest.DocumentMetadata) (document_id t : string)
    (chunks : list Ingest.DocumentChunk) :
  map Ingest.chunk chunks
  = Chunker.chunk_document string Ingest.DocumentMetadata tokenizer config
      document_id metadata t ->
  Ingest.index_chunks index metadata chunks
  = (List.length chunks,
     BM25.mkBM25Index
       (BM25.documents index ++ map (fun c => index_entry metadata c) chunks)
       (BM25.bm25 index) true).
Proof.
  intros H. apply index_chunks_nonempty.
  pose proof (chunk_document_good string Ingest.DocumentMetadata tokenizer
                config document_id metadata t) as G.
  rewrite <- H in G. clear H.
  induction chunks as [|c chunks IH]; [constructor|].
  cbn [map] in G. apply Forall_cons_iff in G. destruct G as [[Hc _] G].
  constructor; [exact Hc|apply IH, G].
Qed.

End IngestedChunks.

Lemma every_chunk_is_indexed_witness :
  let chunked :=
    Chunker.chunk_document string Ingest.DocumentMetadata None
      Chunker.default_config "9f1c2b7e-0c4d-4a51-8f0e-2f6c1f3d7a10"
      Fixtures.memo_metadata Samples.long_then_long in
  let chunks :=
    map (fun c =>
           Ingest.mkDocumentChunk
             ("chunk-" ++ Context.str_of_nat
                            (Chunker.chunk_index string
                               Ingest.DocumentMetadata c))%string c)
      chunked in
  map Ingest.chunk chunks = chunked
  /\ List.length chunks = 2
  /\ fst (Ingest.index_chunks BM25Store.new_index Fixtures.memo_metadata
            chunks) = 2
  /\ map BM25.bm_chunk_id
       (BM25.documents
          (snd (Ingest.index_chunks BM25Store.new_index
                  Fixtures.memo_metadata chunks)))
     = ["chunk-0"%string; "chunk-1"%string].
Proof.
  intros chunked chunks.
  assert (H : map Ingest.chunk chunks = chunked).
  { unfold chunks. rewrite map_map. apply map_id. }
  assert (L : List.length chunks = 2) by (vm_compute; reflexivity).
  split; [exact H|]. split; [exact L|].
  rewrite (every_chunk_is_indexed None Chunker.default_config
             BM25Store.new_index Fixtures.memo_metadata
             "9f1c2b7e-0c4d-4a51-8f0e-2f6c1f3d7a10" Samples.long_then_long
             chunks H).
  cbn [fst snd BM25.documents]. split; [exact L|].
  rewrite map_app, map_map. vm_compute. reflexivity.
Defined.

(** ** Cleaning the model's answer *)

Section CleaningFacts.

Import PyStr.

Local Open Scope string_scope.

Local Abbreviation chars := list_ascii_of_string.

Lemma after_last_brace_none (s : string) :
  Orchestrator.after_last_brace s = None -> ~ In "}"%char (chars s).
Proof.
  induction s as [|c s IH]; simpl; [tauto|].
  destruct (Orchestrator.after_last_brace s); [discriminate|].
  destruct (Ascii.eqb c "}") eqn:E; [discriminate|].
  apply Ascii.eqb_neq in E. intros _ [H|H]; [congruence|now apply IH].
Qed.

Lemma after_last_brace_some (s : string) (n : nat) :
  Orchestrator.after_last_brace s = Some n ->
  exists mid post,
    s = mid ++ "}" ++ post /\ take n s = mid ++ "}"
    /\ ~ In "}"%char (chars post).
Proof.
  revert n. induction s as [|c s IH]; intros n; simpl; [discriminate|].
  destruct (Orchestrator.after_last_brace s) as [m|] eqn:E.
  - intros H. injection H as <-.
    destruct (IH m eq_refl) as (mid & post & Hs & Ht & Hp).
    exists (String c mid), post. split; [|split; [|exact Hp]].
    + rewrite Hs at 1. reflexivity.
    + cbn [take]. rewrite Ht. reflexivity.
  - destruct (Ascii.eqb c "}") eqn:Ec; [|discriminate].
    apply Ascii.eqb_eq in Ec. subst c.
    intros H. injection H as <-.
    exists "", s. repeat split. now apply after_last_brace_none.
Qed.

Lemma take_length_app (a b : string) : take (String.length a) (a ++ b) = a.
Proof.
  induction a as [|c a IH]; simpl; [now destruct b|now rewrite IH].
Qed.

Lemma take_app_char (mid : string) (c : ascii) (post : string) :
  take (S (String.length mid)) (mid ++ String c post) = mid ++ String c "".
Proof.
  induction mid as [|x mid IH]; [now destruct post|].
  simpl. simpl in IH. now rewrite IH.
Qed.

Lemma after_last_brace_app (mid post : string) :
  ~ In "}"%char (chars post) ->
  Orchestrator.after_last_brace (mid ++ "}" ++ post)
  = Some (S (String.length mid)).
Proof.
  intros Hp. induction mid as [|c mid IH]; simpl.
  - assert (E : Orchestrator.after_last_brace post = None).
    { clear - Hp. induction post as [|c post IH]; simpl; [reflexivity|].
      simpl in Hp. rewrite IH by tauto.
      destruct (Ascii.eqb c "}") eqn:E; [|reflexivity].
      apply Ascii.eqb_eq in E. subst. tauto. }
    now rewrite E.
  - simpl in IH. now rewrite IH.
Qed.

(** X19. The span [_parse_response] extracts from a text that is not JSON
    runs from the first opening brace of the text to its last closing
    brace: [brace_span] returns a span exactly when the text reads
    [before ++ "{" ++ middle ++ "}" ++ after] with no opening brace in
    [before] and no closing brace in [after], and the span is then
    ["{" ++ middle ++ "}"]. *)
Theorem brace_span_first_to_last (s span : string) :
  Orchestrator.brace_span s = Some span
  <-> exists before middle after,
        s = before ++ "{" ++ middle ++ "}" ++ after
        /\ span = "{" ++ middle ++ "}"
        /\ ~ In "{"%char (chars before)
        /\ ~ In "}"%char (chars after).
Proof.
  split.
  - revert span. induction s as [|c s IH]; intros span;
      [discriminate|].
    cbn [Orchestrator.brace_span].
    destruct (Ascii.eqb c "{") eqn:E.
    + apply Ascii.eqb_eq in E. subst c.
      destruct (Orchestrator.after_last_brace s) as [n|] eqn:En;
        [|discriminate].
      intros H. injection H as <-.
      destruct (after_last_brace_some s n En) as (mid & post & Hs & Ht & Hp).
      exists "", mid, post. split; [|split; [|split]].
      * rewrite Hs at 1. reflexivity.
      * rewrite Ht. reflexivity.
      * simpl. tauto.
      * exact Hp.
    + apply Ascii.eqb_neq in E. intros H.
      destruct (IH span H) as (before & mid & post & Hs & Hspan & Hb & Hp).
      exists (String c before), mid, post. split; [|split; [|split]].
      * rewrite Hs at 1. reflexivity.
      * exact Hspan.
      * simpl. intros [K|K]; [congruence|tauto].
      * exact Hp.
  - intros (before & mid & post & -> & -> & Hb & Hp).
    induction before as [|c before IH].
    + change (Orchestrator.brace_span (String "{" (mid ++ "}" ++ post))
              = Some (String "{" (mid ++ "}"))).
      cbn [Orchestrator.brace_span]. rewrite Ascii.eqb_refl.
      rewrite (after_last_brace_app mid post Hp).
      change ("}" ++ post) with (String "}" post).
      now rewrite take_app_char.
    + change (Orchestrator.brace_span
                (String c (before ++ "{" ++ mid ++ "}" ++ post))
              = Some ("{" ++ mid ++ "}")).
      cbn [Orchestrator.brace_span].
      destruct (Ascii.eqb c "{") eqn:E.
      * apply Ascii.eqb_eq in E. subst. simpl in Hb. tauto.
      * apply IH. simpl in Hb. tauto.
Qed.

Lemma rfind_fence_last (pre : string) (i : nat) :
  Orchestrator.rfind_fence (pre ++ Orchestrator.fence) i
  = Z.of_nat (i + String.length pre).
Proof.
  revert i. induction pre as [|c pre IH]; intros i.
  - simpl. f_equal. lia.
  - cbn [append Orchestrator.rfind_fence]. rewrite IH.
    destruct (0 <=? Z.of_nat (S i + String.length pre))%Z eqn:E.
    + f_equal. simpl. lia.
    + apply Z.leb_gt in E. lia.
Qed.

Lemma find_newline_first (a b : string) (i : nat) :
  ~ In Chunker.newline (chars a) ->
  Orchestrator.find_newline (a ++ Intent.nl ++ b) i
  = Z.of_nat (i + String.length a).
Proof.
  revert i. induction a as [|c a IH]; intros i Ha.
  - simpl. f_equal. lia.
  - simpl in Ha. cbn [append Orchestrator.find_newline].
    destruct (code c =? 10)%nat eqn:E.
    + exfalso. apply Ha. left. apply Nat.eqb_eq in E.
      unfold Chunker.newline, code in *. rewrite <- E.
      now rewrite ascii_nat_embedding.
    + rewrite IH by tauto. f_equal. simpl. lia.
Qed.

Lemma drop_length_app (a b : string) : drop (String.length a) (a ++ b) = b.
Proof. induction a as [|c a IH]; simpl; [now destruct b|exact IH]. Qed.


End CleaningFacts.


(** ** The outcome of a query *)

Section OutcomeFacts.

Import PyStr.

Variable json_loads : string -> result Orchestrator.json.
Variable model_validate :
  Orchestrator.OutputModel -> Orchestrator.json -> result Orchestrator.json.
Variable structured_output_enabled : bool.
Variable intent_detection_enabled : bool.
Variable py_float : string -> result pyfloat.
Variable llm_generate : string -> option string -> Q -> nat -> result string.
Variable llm_temperature : Q.
Variable llm_max_tokens : nat.
Variable retrieve_for_context :
  string -> Security.UserRole -> nat -> option string -> option string ->
  option (list string) -> result (list Documents.RetrievedDocument * string).
Variable build_prompt :
  Intent.TaskType -> string -> string -> string -> option string ->
  result (string * string).

Local Abbreviation process_query :=
  (Orchestrator.process_query json_loads model_validate
     structured_output_enabled intent_detection_enabled py_float llm_generate
     llm_temperature llm_max_tokens retrieve_for_context build_prompt).

Lemma take_length_le (n : nat) (s : string) : String.length (take n s) <= n.
Proof.
  revert s. induction n as [|n IH]; intros [|c s]; simpl; try lia.
  specialize (IH s). lia.
Qed.

Lemma excerpt_length (d : Documents.RetrievedDocument) :
  String.length (Orchestrator.excerpt (Orchestrator.source_of d)) <= 203.
Proof.
  unfold Orchestrator.source_of. cbn [Orchestrator.excerpt].
  destruct (200 <? _)%nat eqn:E.
  - rewrite length_append.
    pose proof (take_length_le 200 (Documents.content d)) as H.
    change (String.length "...") with 3. lia.
  - apply Nat.ltb_ge in E. lia.
Qed.

(** The two shapes of an outcome. *)
Lemma process_query_shapes (request : Orchestrator.QueryRequest)
    (user : Security.User) :
  let r := process_query request user in
  let intent :=
    Orchestrator.resolve_intent intent_detection_enabled py_float llm_generate
      request in
  (exists documents context parsed,
     retrieve_for_context (Orchestrator.query request) (Security.role user)
       4000 (Orchestrator.req_client_name request)
       (Orchestrator.req_practice_area request)
       (Orchestrator.req_document_types request) = Ok (documents, context)
     /\ float_le (Fin 0) (snd intent) = true
     /\ float_le (snd intent) (Fin 1) = true
     /\ ((exists fields, parsed = Orchestrator.JObj fields)
         \/ (exists s, parsed = Orchestrator.JStr s))
     /\ r = Orchestrator.mkQueryResponse (Orchestrator.request_id request)
              true None parsed (fst intent) (Orchestrator.query request)
              (if Orchestrator.include_sources request
               then map Orchestrator.source_of
                      (firstn (Orchestrator.max_sources request) documents)
               else [])
              (snd intent)
              (Orchestrator.metrics r)
              (Some (Security.value (Security.role user))))
  \/ (exists e,
        r = Orchestrator.failure_response request user (fst intent) e).
Proof.
  cbv zeta. unfold Orchestrator.process_query.
  destruct (Orchestrator.resolve_intent _ _ _ request) as [task_type conf].
  cbn [fst snd].
  destruct (retrieve_for_context _ _ _ _ _ _) as [[documents context]|e];
    simpl; [|right; eauto].
  destruct (build_prompt _ _ _ _ _) as [[system_prompt user_prompt]|e];
    simpl; [|right; eauto].
  destruct (llm_generate _ _ _ _) as [raw|e]; simpl; [|right; eauto].
  destruct (Orchestrator._parse_response _ _ _ _ _) as [parsed|e]; simpl;
    [|right; eauto].
  unfold Orchestrator.new_QueryResponse.
  cbn [Orchestrator.response Orchestrator.confidence].
  destruct (_ && _ && _) eqn:E; [|right; eauto].
  apply andb_true_iff in E. destruct E as [E Ehi].
  apply andb_true_iff in E. destruct E as [Eshape Elo].
  left. exists documents, context, parsed.
  split; [reflexivity|]. split; [exact Elo|]. split; [exact Ehi|].
  split; [destruct parsed; try discriminate; eauto|reflexivity].
Qed.

(** X21. The outcome of a query is either a success or a failure, never
    a mixture: it always echoes the request id, the query and the user's
    role and names the resolved task type; [success] is true exactly when
    there is no error message; a success carries a dict or a text as
    response and the confidence of the intent, which lies in [0, 1]; a
    failure carries an error message, the empty dict as response, no
    sources and confidence 0. *)
Theorem query_outcome_is_success_or_failure
    (request : Orchestrator.QueryRequest) (user : Security.User) :
  let r := process_query request user in
  let intent :=
    Orchestrator.resolve_intent intent_detection_enabled py_float llm_generate
      request in
  Orchestrator.resp_request_id r = Orchestrator.request_id request
  /\ Orchestrator.resp_query r = Orchestrator.query request
  /\ Orchestrator.user_role r = Some (Security.value (Security.role user))
  /\ Orchestrator.resp_task_type r = fst intent
  /\ (Orchestrator.success r = true <-> Orchestrator.error r = None)
  /\ (Orchestrator.success r = true ->
      ((exists fields, Orchestrator.response r = Orchestrator.JObj fields)
       \/ (exists s, Orchestrator.response r = Orchestrator.JStr s))
      /\ Orchestrator.confidence r = snd intent
      /\ float_le (Fin 0) (Orchestrator.confidence r) = true
      /\ float_le (Orchestrator.confidence r) (Fin 1) = true)
  /\ (Orchestrator.success r = false ->
      (exists msg, Orchestrator.error r = Some msg)
      /\ Orchestrator.response r = Orchestrator.JObj []
      /\ Orchestrator.sources r = []
      /\ Orchestrator.confidence r = Fin 0).
Proof.
  cbv zeta.
  destruct (process_query_shapes request user)
    as [(documents & context & parsed & _ & Hlo & Hhi & Hshape & Hr)|(e & Hr)];
    rewrite Hr; clear Hr; cbn.
  - repeat split; try discriminate; auto.
  - repeat split; try discriminate; eauto.
Qed.

(** X22. The sources of an outcome respect the request and the response
    model: there are at most [max_sources] of them, none when the request
    asks for no sources, and every excerpt has at most 203 characters (200
    of content and an ellipsis), below the 300 the source model allows. *)
Theorem sources_respect_limits (request : Orchestrator.QueryRequest)
    (user : Security.User) :
  let r := process_query request user in
  List.length (Orchestrator.sources r) <= Orchestrator.max_sources request
  /\ (Orchestrator.include_sources request = false ->
      Orchestrator.sources r = [])
  /\ Forall (fun s => String.length (Orchestrator.excerpt s) <= 203)
       (Orchestrator.sources r).
Proof.
  cbv zeta.
  destruct (process_query_shapes request user)
    as [(documents & context & parsed & _ & _ & _ & _ & Hr)|(e & Hr)];
    rewrite Hr; clear Hr; cbn [Orchestrator.sources
                                 Orchestrator.failure_response].
  - destruct (Orchestrator.include_sources request).
    + split; [|split; [discriminate|]].
      * rewrite length_map. apply firstn_le_length.
      * apply Forall_forall. intros s Hs. apply in_map_iff in Hs.
        destruct Hs as (d & <- & _). apply excerpt_length.
    + repeat split; simpl; auto; lia.
  - repeat split; simpl; auto; lia.
Qed.

End OutcomeFacts.

(** ** The rules of intent detection on every query *)

Section RuleFacts.

Import Intent.

Variable query : string.

Local Abbreviation hits ps :=
  (filter (fun p => pattern_search p query) ps).

Local Abbreviation heaviest ps :=
  (fold_left py_max2 (map weight (hits ps)) 0%Q).

Lemma py_max2_le_l (a b : Q) : (a <= py_max2 a b)%Q.
Proof.
  unfold py_max2. destruct (Qlt_bool a b) eqn:E.
  - apply Qlt_le_weak. now apply Qlt_bool_true.
  - apply Qle_refl.
Qed.

Lemma py_max2_le_r (a b : Q) : (b <= py_max2 a b)%Q.
Proof.
  unfold py_max2. destruct (Qlt_bool a b) eqn:E.
  - apply Qle_refl.
  - now apply Qlt_bool_false.
Qed.

Lemma fold_max_bounds (ws : list Q) (w0 : Q) :
  (w0 <= fold_left py_max2 ws w0)%Q
  /\ Forall (fun w => (w <= fold_left py_max2 ws w0)%Q) ws
  /\ (fold_left py_max2 ws w0 = w0 \/ In (fold_left py_max2 ws w0) ws).
Proof.
  revert w0. induction ws as [|w ws IH]; intros w0; cbn [fold_left].
  - split; [apply Qle_refl|]. split; [constructor|now left].
  - destruct (IH (py_max2 w0 w)) as (H0 & Hall & Hin). split; [|split].
    + eapply Qle_trans; [apply py_max2_le_l|exact H0].
    + constructor; [|exact Hall].
      eapply Qle_trans; [apply py_max2_le_r|exact H0].
    + destruct Hin as [E|Hin]; [|right; now right].
      rewrite E. unfold py_max2. destruct (Qlt_bool w0 w);
        [right; now left|now left].
Qed.

Lemma scan_patterns_fold (ps : list pattern) (matched : list string) (w : Q) :
  fold_left
    (fun (acc : list string * Q) (p : pattern) =>
       let (matched, max_weight) := acc in
       if pattern_search p query
       then (matched ++ [source p], py_max2 max_weight (weight p))
       else acc)
    ps (matched, w)
  = (matched ++ map source (hits ps),
     fold_left py_max2 (map weight (hits ps)) w).
Proof.
  revert matched w. induction ps as [|p ps IH]; intros matched w;
    cbn [fold_left filter map].
  - now rewrite app_nil_r.
  - destruct (pattern_search p query); cbn [map fold_left].
    + rewrite IH, <- app_assoc. reflexivity.
    + apply IH.
Qed.

Lemma scan_patterns_hits (ps : list pattern) :
  scan_patterns ps query = (map source (hits ps), heaviest ps).
Proof. unfold scan_patterns. now rewrite scan_patterns_fold. Qed.

Lemma value_inj (a b : TaskType) : value a = value b -> a = b.
Proof. destruct a, b; intros H; try reflexivity; discriminate H. Qed.

Lemma scores_set_absent {V : Type} (d : list (TaskType * V)) (k : TaskType)
    (v : V) :
  ~ In k (map fst d) -> scores_set d k v = d ++ [(k, v)].
Proof.
  induction d as [|[k' v'] d IH]; intros H; cbn [scores_set app];
    [reflexivity|].
  unfold TaskType_eqb. destruct (String.eqb_spec (value k') (value k)) as [E|_].
  - exfalso. apply H. left. now apply value_inj.
  - rewrite IH; [reflexivity|]. intros Hin. apply H. now right.
Qed.

(** An entry of the table has a place among the scores when one of its
    patterns is found in the query. *)
Local Abbreviation scored :=
  (fun entry : TaskType * list pattern =>
     match hits (snd entry) with
     | [] => false
     | _ :: _ => true
     end).

Local Abbreviation score_of :=
  (fun entry : TaskType * list pattern =>
     (fst entry, (heaviest (snd entry), map source (hits (snd entry))))).

Lemma build_scores_fold (table : pattern_table)
    (scores : list (TaskType * (Q * list string))) :
  NoDup (map fst scores ++ map fst table) ->
  fold_left
    (fun scores (entry : TaskType * list pattern) =>
       let (task_type, patterns) := entry in
       let (matched, max_weight) := scan_patterns patterns query in
       match matched with
       | [] => scores
       | _ :: _ => scores_set scores task_type (max_weight, matched)
       end)
    table scores
  = scores ++ map score_of (filter scored table).
Proof.
  revert scores. induction table as [|[t ps] table IH]; intros scores H;
    cbn [fold_left filter map].
  - now rewrite app_nil_r.
  - rewrite scan_patterns_hits. cbn [snd fst].
    cbn [map] in H. pose proof (NoDup_remove _ _ _ H) as [H' Hnot].
    destruct (hits ps) as [|p hs] eqn:E; cbn [map].
    + now apply IH.
    + rewrite scores_set_absent
        by (intros Hin; apply Hnot, in_or_app; now left).
      rewrite IH.
      * rewrite <- app_assoc. cbn [fst snd app]. rewrite E. reflexivity.
      * rewrite map_app, <- app_assoc. exact H.
Qed.

Lemma build_scores_hits (table : pattern_table) :
  NoDup (map fst table) ->
  build_scores table query = map score_of (filter scored table).
Proof. intros H. unfold build_scores. now rewrite build_scores_fold. Qed.

Lemma py_max_by_first {A : Type} (key : A -> Q) (first : A) (rest : list A) :
  exists pre post,
    first :: rest = pre ++ py_max_by key first rest :: post
    /\ Forall (fun y => (key y < key (py_max_by key first rest))%Q) pre
    /\ Forall (fun y => (key y <= key (py_max_by key first rest))%Q) post.
Proof.
  unfold py_max_by.
  induction rest as [|a rest IH] using rev_ind.
  - exists [], []. repeat split; constructor.
  - destruct IH as (pre & post & Hsplit & Hpre & Hpost).
    rewrite fold_left_app. cbn [fold_left].
    set (best := fold_left _ rest first) in *.
    destruct (Qlt_bool (key best) (key a)) eqn:E.
    + apply Qlt_bool_true in E.
      exists (first :: rest), []. split; [reflexivity|]. split; [|constructor].
      rewrite Hsplit. apply Forall_app. split; [|constructor].
      * eapply Forall_impl; [|exact Hpre]. intros y Hy.
        now apply Qlt_trans with (key best).
      * exact E.
      * eapply Forall_impl; [|exact Hpost]. intros y Hy.
        now apply Qle_lt_trans with (key best).
    + apply Qlt_bool_false in E.
      exists pre, (post ++ [a]). split; [|split; [exact Hpre|]].
      * change (first :: rest ++ [a]) with ((first :: rest) ++ [a]).
        rewrite Hsplit, <- app_assoc. reflexivity.
      * apply Forall_app. split; [exact Hpost|]. now constructor.
Qed.

Lemma map_filter_split {A B : Type} (f : A -> bool) (g : A -> B)
    (l : list A) (pre post : list B) (x : B) :
  map g (filter f l) = pre ++ x :: post ->
  exists l1 e l2,
    l = l1 ++ e :: l2 /\ f e = true /\ g e = x
    /\ map g (filter f l1) = pre /\ map g (filter f l2) = post.
Proof.
  revert pre. induction l as [|a l IH]; intros pre H; cbn [filter map] in H.
  - now destruct pre.
  - destruct (f a) eqn:Fa.
    + destruct pre as [|b pre]; cbn [map app] in H.
      * injection H as Hx Hpost. exists [], a, l. now repeat split.
      * injection H as Hb Hrest.
        destruct (IH _ Hrest) as (l1 & e & l2 & -> & Fe & Ge & H1 & H2).
        exists (a :: l1), e, l2. repeat split; auto.
        cbn [filter map]. rewrite Fa. cbn [map]. now rewrite Hb, H1.
    + destruct (IH _ H) as (l1 & e & l2 & -> & Fe & Ge & H1 & H2).
      exists (a :: l1), e, l2. repeat split; auto.
      cbn [filter]. now rewrite Fa.
Qed.

Lemma hits_In (ps : list pattern) (p : pattern) :
  In p (hits ps) <-> In p ps /\ pattern_search p query = true.
Proof. apply filter_In. Qed.

Lemma heaviest_bounds (ps : list pattern) (p : pattern) :
  In p (hits ps) -> (weight p <= heaviest ps)%Q.
Proof.
  intros H. destruct (fold_max_bounds (map weight (hits ps)) 0%Q)
    as (_ & Hall & _).
  rewrite Forall_forall in Hall. apply Hall. now apply in_map.
Qed.

Lemma heaviest_attained (ps : list pattern) :
  Forall (fun p => (0 < weight p)%Q) ps ->
  hits ps <> [] ->
  exists best, In best (hits ps) /\ weight best = heaviest ps.
Proof.
  intros Hpos Hne.
  destruct (fold_max_bounds (map weight (hits ps)) 0%Q) as (_ & _ & [E|Hin]).
  - exfalso. destruct (hits ps) as [|p hs] eqn:Eh; [now apply Hne|].
    assert (Hp : In p (hits ps)) by (rewrite Eh; now left).
    pose proof (heaviest_bounds ps p Hp) as Hle. rewrite Eh, E in Hle.
    apply hits_In in Hp. destruct Hp as [Hp _].
    rewrite Forall_forall in Hpos. specialize (Hpos p Hp).
    apply (Qlt_irrefl 0). now apply Qlt_le_trans with (weight p).
  - apply in_map_iff in Hin. destruct Hin as (best & Hw & Hb).
    now exists best.
Qed.

Lemma scored_hits (e : TaskType * list pattern) (p : pattern) :
  In p (hits (snd e)) -> scored e = true.
Proof.
  intros H. destruct (hits (snd e)) eqn:E; [contradiction|].
  cbn beta. now rewrite E.
Qed.

Lemma detect_with_rules_on_cases (table : pattern_table) :
  NoDup (map fst table) ->
  Forall (fun e => Forall (fun p => (0 < weight p)%Q) (snd e)) table ->
  (Forall (fun e => hits (snd e) = []) table
   /\ _detect_with_rules_on table query
      = mkIntentMatch QUESTION_ANSWER (Fin (3#10)) [] "rule")
  \/ (exists pre t ps post best,
        table = pre ++ (t, ps) :: post
        /\ In best (hits ps)
        /\ _detect_with_rules_on table query
           = mkIntentMatch t (Fin (weight best)) (map source (hits ps)) "rule"
        /\ (forall e p, In e pre -> In p (hits (snd e)) ->
            (weight p < weight best)%Q)
        /\ (forall e p, In e ((t, ps) :: post) -> In p (hits (snd e)) ->
            (weight p <= weight best)%Q)).
Proof.
  intros Hkeys Hpos. unfold _detect_with_rules_on.
  rewrite build_scores_hits by exact Hkeys.
  destruct (filter scored table) as [|e0 l] eqn:Ef; cbn [map].
  - left. split; [|reflexivity].
    apply Forall_forall. intros e He.
    destruct (hits (snd e)) as [|p hs] eqn:Eh; [reflexivity|exfalso].
    assert (Hin : In e (filter scored table))
      by (apply filter_In; split; [exact He|now rewrite Eh]).
    now rewrite Ef in Hin.
  - right.
    destruct (py_max_by_first (fun e => fst (snd e)) (score_of e0)
                (map score_of l)) as (pre' & post' & Hsplit & Hpre & Hpost).
    assert (Hsplit' : map score_of (filter scored table)
                      = pre' ++ py_max_by (fun e => fst (snd e)) (score_of e0)
                                  (map score_of l) :: post')
      by (rewrite Ef; exact Hsplit).
    clear Hsplit Ef.
    destruct (map_filter_split _ _ _ _ _ _ Hsplit')
      as (l1 & [t ps] & l2 & Htable & Hscored & Hx & H1 & H2).
    rewrite <- Hx in *. cbn [fst snd] in *.
    assert (Hne : hits ps <> []) by (destruct (hits ps); congruence).
    assert (Hps : Forall (fun p => (0 < weight p)%Q) ps).
    { rewrite Forall_forall in Hpos.
      apply (Hpos (t, ps)). rewrite Htable. apply in_or_app. right. now left. }
    destruct (heaviest_attained ps Hps Hne) as (best & Hbest & Hw).
    exists l1, t, ps, l2, best. rewrite Hw.
    split; [exact Htable|]. split; [exact Hbest|]. split; [reflexivity|].
    split.
    + intros e p He Hp. apply Qle_lt_trans with (heaviest (snd e));
        [now apply heaviest_bounds|].
      rewrite Forall_forall in Hpre.
      apply (Hpre (score_of e)). rewrite <- H1. apply in_map_iff. exists e. split; [reflexivity|].
      apply filter_In. split; [exact He|]. now apply scored_hits with p.
    + intros e p [<-|He] Hp; [now apply heaviest_bounds|].
      apply Qle_trans with (heaviest (snd e)); [now apply heaviest_bounds|].
      rewrite Forall_forall in Hpost.
      apply (Hpost (score_of e)). rewrite <- H2. apply in_map_iff. exists e. split; [reflexivity|].
      apply filter_In. split; [exact He|]. now apply scored_hits with p.
Qed.

Lemma INTENT_PATTERNS_keys : NoDup (map fst INTENT_PATTERNS).
Proof.
  cbn. repeat constructor; cbn; intros H;
    repeat (destruct H as [H|H]; [discriminate H|]); exact H.
Qed.

Lemma INTENT_PATTERNS_weights :
  Forall (fun e => Forall (fun p => (0 < weight p)%Q) (snd e)) INTENT_PATTERNS.
Proof. repeat constructor. Qed.

(** X24. On every query the rules answer with the heaviest pattern found
    in it: when no pattern of the table is found the answer is
    question-answering with confidence 0.3; otherwise the confidence is
    the weight of a pattern of the answered category found in the query,
    no pattern found in the query weighs more, the patterns found in a
    category listed earlier in the table all weigh less, and the matched
    patterns are the patterns of the answered category found in the
    query, in the order of the table. *)
Theorem rules_answer_with_heaviest_pattern :
  let m := _detect_with_rules query in
  method m = "rule"%string
  /\ ((Forall
         (fun e => Forall (fun p => pattern_search p query = false) (snd e))
         INTENT_PATTERNS
       /\ m = mkIntentMatch QUESTION_ANSWER (Fin (3#10)) [] "rule")
      \/ (exists pre ps post best,
            INTENT_PATTERNS = pre ++ (task_type m, ps) :: post
            /\ In best ps
            /\ pattern_search best query = true
            /\ confidence m = Fin (weight best)
            /\ matched_patterns m
               = map source (filter (fun p => pattern_search p query) ps)
            /\ (forall e p,
                  In e pre -> In p (snd e) ->
                  pattern_search p query = true ->
                  (weight p < weight best)%Q)
            /\ (forall e p,
                  In e INTENT_PATTERNS -> In p (snd e) ->
                  pattern_search p query = true ->
                  (weight p <= weight best)%Q))).
Proof.
  cbv zeta. unfold _detect_with_rules.
  destruct (detect_with_rules_on_cases INTENT_PATTERNS INTENT_PATTERNS_keys
              INTENT_PATTERNS_weights)
    as [[Hnone ->]|(pre & t & ps & post & best & Htable & Hbest & -> & Hlt
                    & Hle)].
  - split; [reflexivity|]. left. split; [|reflexivity].
    eapply Forall_impl; [|exact Hnone]. intros e He.
    apply Forall_forall. intros p Hp.
    destruct (pattern_search p query) eqn:E; [exfalso|reflexivity].
    assert (Hin : In p (hits (snd e))) by (apply hits_In; now split).
    now rewrite He in Hin.
  - split; [reflexivity|]. right. cbn [task_type confidence matched_patterns].
    apply hits_In in Hbest. destruct Hbest as [Hin Hfound].
    exists pre, ps, post, best. repeat split; auto.
    + intros e p He Hp Hs. apply (Hlt e p He). apply hits_In. now split.
    + intros e p He Hp Hs. rewrite Htable in He.
      apply in_app_or in He. destruct He as [He|He].
      * apply Qlt_le_weak. apply (Hlt e p He). apply hits_In. now split.
      * apply (Hle e p He). apply hits_In. now split.
Qed.

End RuleFacts.

(** ** Reading the classifier's reply *)

Section ReplyFacts.

Import PyStr Intent.

Local Open Scope string_scope.

Local Abbreviation bar := ("|"%char).

Local Abbreviation barless s := (~ In bar (list_ascii_of_string s)).

Lemma rstrip_app_kept (x y : string) :
  rstrip x = x -> rstrip (x ++ y) = x ++ rstrip y.
Proof.
  induction x as [|c x IH]; intros H; [reflexivity|].
  cbn [rstrip] in H. destruct (rstrip x) as [|c' r] eqn:E.
  - destruct (is_space c) eqn:Ec; [discriminate|].
    injection H as <-. cbn [append]. now apply rstrip_nonspace_head.
  - injection H as H. cbn [append rstrip]. rewrite (IH H).
    rewrite <- H. reflexivity.
Qed.

Lemma lstrip_rstrip (s : string) : lstrip (rstrip s) = rstrip (lstrip s).
Proof.
  induction s as [|c s IH]; [reflexivity|].
  cbn [lstrip]. destruct (is_space c) eqn:Ec.
  - rewrite <- IH. cbn [rstrip]. rewrite Ec.
    destruct (rstrip s) as [|c' r]; [reflexivity|].
    cbn [lstrip]. now rewrite Ec.
  - rewrite (rstrip_nonspace_head _ _ Ec). cbn [lstrip]. now rewrite Ec.
Qed.

Lemma strip_rstrip (s : string) : strip (rstrip s) = strip s.
Proof. unfold strip. now rewrite lstrip_rstrip, rstrip_idem. Qed.

Lemma rstrip_chars (s : string) (c : ascii) :
  In c (list_ascii_of_string (rstrip s)) -> In c (list_ascii_of_string s).
Proof.
  induction s as [|a s IH]; [easy|].
  cbn [rstrip]. destruct (rstrip s) as [|c' r].
  - destruct (is_space a); [easy|].
    intros [H|[]]. now left.
  - intros [H|H]; [now left|right; now apply IH].
Qed.

Lemma split_on_barless (s : string) : barless s -> split_on bar s = [s].
Proof.
  induction s as [|c s IH]; intros H; [reflexivity|].
  cbn [split_on]. destruct (Ascii.eqb_spec c bar) as [->|_].
  - exfalso. apply H. now left.
  - rewrite IH; [reflexivity|]. intros Hin. apply H. now right.
Qed.

Lemma split_on_first_bar (x y : string) :
  barless x -> split_on bar (x ++ String bar y) = x :: split_on bar y.
Proof.
  induction x as [|c x IH]; intros H.
  - reflexivity.
  - cbn [append split_on]. destruct (Ascii.eqb_spec c bar) as [->|_].
    + exfalso. apply H. now left.
    + rewrite IH; [reflexivity|]. intros Hin. apply H. now right.
Qed.

Lemma value_plain (t : TaskType) :
  barless (value t) /\ strip (value t) = value t
  /\ rstrip (value t ++ "|") = value t ++ "|"
  /\ lstrip (value t) = value t /\ value t <> ""
  /\ TaskType_of_value (value t) = Ok t.
Proof.
  destruct t; (split; [|repeat split; try reflexivity; discriminate]);
    cbn; intros H;
    repeat (destruct H as [H|H]; [discriminate H|]); exact H.
Qed.

Variable py_float : string -> result pyfloat.

(** X25. A reply of the classifier in the format the prompt asks for,
    the value of a task type, a bar and a confidence without a further
    bar, is read back as that task type with that confidence, the
    confidence being the number [float] reads in the text after the bar
    without the white space around it; a reply that is the value of a
    task type alone is read with confidence 0.7. *)
Theorem classification_reply_is_read_back (t : TaskType) (c : string)
    (f : pyfloat) :
  barless c ->
  py_float (strip c) = Ok f ->
  parse_classification py_float (value t ++ "|" ++ c)
  = Ok (mkIntentMatch t f [] "llm")
  /\ parse_classification py_float (value t)
     = Ok (mkIntentMatch t (Fin (7#10)) [] "llm").
Proof.
  intros Hc Hf.
  destruct (value_plain t) as (Hbar & Hstrip & Hr & Hl & Hne & Hv).
  split; unfold parse_classification.
  - assert (E : strip (value t ++ "|" ++ c) = value t ++ String bar (rstrip c)).
    { unfold strip. rewrite lstrip_app_nonspace by now rewrite Hl.
      rewrite Hl.
      change (value t ++ "|" ++ c) with (value t ++ ("|" ++ c)).
      rewrite <- append_assoc, rstrip_app_kept by exact Hr.
      now rewrite append_assoc. }
    rewrite E, split_on_first_bar by exact Hbar.
    rewrite split_on_barless
      by (intros Hin; apply Hc; now apply rstrip_chars).
    cbn [hd]. rewrite Hstrip, strip_rstrip, Hf. cbn. now rewrite Hv.
  - rewrite Hstrip, split_on_barless by exact Hbar.
    cbn [hd]. rewrite Hstrip. cbn. now rewrite Hv.
Qed.

End ReplyFacts.

Lemma classification_reply_is_read_back_witness :
  let reads :=
    fun s : string =>
      if String.eqb s "0.9" then Ok (Fin (9#10)) else Raise ValueError in
  Intent.parse_classification reads
    ("risk_analysis| 0.9" ++ Intent.nl)%string
  = Ok (Intent.mkIntentMatch Intent.RISK_ANALYSIS (Fin (9#10)) [] "llm").
Proof.
  intros reads.
  refine (proj1 (classification_reply_is_read_back reads Intent.RISK_ANALYSIS
                   (" 0.9" ++ Intent.nl)%string (Fin (9#10)) _ _)).
  - cbn. intros H.
    repeat (destruct H as [H|H]; [discriminate H|]). exact H.
  - vm_compute. reflexivity.
Defined.

(** ** The rules of intent detection and the letter case of the query *)

Section CaseFacts.

Import PyStr.

Local Abbreviation lowp := (option_map lower_char).

Lemma lower_char_idem (x : ascii) : lower_char (lower_char x) = lower_char x.
Proof. destruct x as [[] [] [] [] [] [] [] []]; reflexivity. Qed.

Lemma upper_lower_char (x : ascii) :
  Regex.upper_char (lower_char x) = Regex.upper_char x.
Proof. destruct x as [[] [] [] [] [] [] [] []]; reflexivity. Qed.

Lemma lower_or_upper (x : ascii) :
  x = lower_char x \/ x = Regex.upper_char x.
Proof.
  destruct x as [[] [] [] [] [] [] [] []];
    first [now left | now right].
Qed.

Lemma is_word_lower (x : ascii) : is_word (lower_char x) = is_word x.
Proof. destruct x as [[] [] [] [] [] [] [] []]; reflexivity. Qed.

Lemma newline_lower (x : ascii) :
  (code (lower_char x) =? 10) = (code x =? 10).
Proof. destruct x as [[] [] [] [] [] [] [] []]; reflexivity. Qed.

Lemma question_mark_lower (x : ascii) :
  Ascii.eqb "?" (lower_char x) = Ascii.eqb "?" x.
Proof. destruct x as [[] [] [] [] [] [] [] []]; reflexivity. Qed.

Lemma char_matches_lower (c x : ascii) :
  Regex.char_matches true c (lower_char x) = Regex.char_matches true c x.
Proof.
  unfold Regex.char_matches. cbn [andb]. rewrite lower_char_idem.
  destruct (Ascii.eqb_spec (lower_char c) (lower_char x)) as [E|N].
  - now rewrite !orb_true_r.
  - rewrite !orb_false_r.
    destruct (Ascii.eqb_spec c (lower_char x)) as [E1|_];
      [exfalso; apply N; rewrite E1; now rewrite lower_char_idem|].
    destruct (Ascii.eqb_spec c x) as [E2|_]; [|reflexivity].
    exfalso. apply N. now rewrite E2.
Qed.

Lemma set_matches_lower (items : list Regex.cset_item) (x : ascii) :
  Regex.set_matches true items (lower_char x)
  = Regex.set_matches true items x.
Proof.
  unfold Regex.set_matches. cbn [andb].
  rewrite lower_char_idem, upper_lower_char.
  set (found := fun y => existsb (fun it => Regex.item_matches it y) items).
  change (found (lower_char x)
          || (found (lower_char x) || found (Regex.upper_char x))
          = found x || (found (lower_char x) || found (Regex.upper_char x))).
  assert (H : found x = found (lower_char x)
              \/ found x = found (Regex.upper_char x))
    by (destruct (lower_or_upper x) as [E|E];
        [left|right]; now rewrite <- E).
  destruct H as [-> | ->];
    destruct (found (lower_char x)), (found (Regex.upper_char x));
    reflexivity.
Qed.

Lemma lower_append (a b : string) :
  lower (a ++ b) = (lower a ++ lower b)%string.
Proof. induction a as [|c a IH]; [reflexivity|]. cbn. now rewrite IH. Qed.

Lemma lower_split (s before after : string) :
  lower s = (before ++ after)%string ->
  exists b a, s = (b ++ a)%string /\ before = lower b /\ after = lower a.
Proof.
  revert s. induction before as [|c before IH]; intros s H.
  - now exists EmptyString, s.
  - destruct s as [|x s]; [discriminate|]. cbn in H. injection H as Hc H.
    destruct (IH _ H) as (b & a & -> & -> & ->).
    exists (String x b), a. cbn. now rewrite Hc.
Qed.

Lemma prev_at_lower (prev : option ascii) (before : string) :
  Regex.prev_at (lowp prev) (lower before)
  = lowp (Regex.prev_at prev before).
Proof.
  revert prev. induction before as [|x before IH]; intros prev;
    [reflexivity|].
  cbn. apply (IH (Some x)).
Qed.

Lemma word_boundary_lower (prev : option ascii) (s : string) :
  xorb (Regex.opt_is_word (lowp prev))
    (Regex.opt_is_word (Regex.next_char (lower s)))
  = xorb (Regex.opt_is_word prev) (Regex.opt_is_word (Regex.next_char s)).
Proof.
  destruct prev as [p|], s as [|x s]; cbn; now rewrite ?is_word_lower.
Qed.

Local Abbreviation matches := (Regex.matches true).

Lemma matches_lower (r : Regex.regex) (prev : option ascii) (s : string)
    (prev' : option ascii) (s' : string) :
  matches r prev s prev' s' ->
  matches r (lowp prev) (lower s) (lowp prev') (lower s').
Proof.
  induction 1; cbn [lower option_map].
  - apply Regex.M_empty.
  - apply Regex.M_char. now rewrite char_matches_lower.
  - apply Regex.M_any. now rewrite newline_lower.
  - apply Regex.M_set. now rewrite set_matches_lower.
  - eapply Regex.M_seq; eassumption.
  - now apply Regex.M_alt_l.
  - now apply Regex.M_alt_r.
  - apply Regex.M_star_stop.
  - eapply Regex.M_star_more; eassumption.
  - eapply Regex.M_plus; eassumption.
  - now apply Regex.M_opt_some.
  - apply Regex.M_opt_none.
  - apply Regex.M_wordb. now rewrite word_boundary_lower.
  - apply Regex.M_bol.
  - apply Regex.M_eol_end.
  - apply Regex.M_eol_newline. now rewrite newline_lower.
Qed.

Lemma lower_cons (s : string) (y : ascii) (rest : string) :
  lower s = String y rest ->
  exists x s0, s = String x s0 /\ y = lower_char x /\ rest = lower s0.
Proof.
  destruct s as [|x s0]; [discriminate|]. cbn. intros H. injection H as <- <-.
  now exists x, s0.
Qed.

Lemma lower_nil (s : string) : lower s = EmptyString -> s = EmptyString.
Proof. now destruct s. Qed.

Lemma matches_unlower (r : Regex.regex) (P : option ascii) (S : string)
    (P' : option ascii) (S' : string) :
  matches r P S P' S' ->
  forall prev s, P = lowp prev -> S = lower s ->
  exists prev' s',
    P' = lowp prev' /\ S' = lower s' /\ matches r prev s prev' s'.
Proof.
  induction 1 as [ p s0
                 | c x p s0 Hc
                 | x p s0 Hx
                 | neg items x p s0 Hset
                 | r1 r2 p s0 p1 s1 p2 s2 _ IH1 _ IH2
                 | r1 r2 p s0 p' s' _ IH
                 | r1 r2 p s0 p' s' _ IH
                 | r p s0
                 | r p s0 p1 s1 p2 s2 _ IH1 _ IH2
                 | r p s0 p1 s1 p2 s2 _ IH1 _ IH2
                 | r p s0 p' s' _ IH
                 | r p s0
                 | p s0 Hb
                 | s0
                 | p
                 | p x Hx ]; intros prev s EP ES.
  - exists prev, s. repeat split; auto. apply Regex.M_empty.
  - symmetry in ES. apply lower_cons in ES.
    destruct ES as (x0 & t & -> & -> & ->).
    exists (Some x0), t. repeat split.
    apply Regex.M_char. now rewrite <- char_matches_lower.
  - symmetry in ES. apply lower_cons in ES.
    destruct ES as (x0 & t & -> & -> & ->).
    exists (Some x0), t. repeat split.
    apply Regex.M_any. now rewrite <- newline_lower.
  - symmetry in ES. apply lower_cons in ES.
    destruct ES as (x0 & t & -> & -> & ->).
    exists (Some x0), t. repeat split.
    apply Regex.M_set. now rewrite <- set_matches_lower.
  - destruct (IH1 _ _ EP ES) as (q1 & t1 & E1 & F1 & M1).
    destruct (IH2 _ _ E1 F1) as (q2 & t2 & E2 & F2 & M2).
    exists q2, t2. repeat split; auto. eapply Regex.M_seq; eassumption.
  - destruct (IH _ _ EP ES) as (q & t & E & F & M).
    exists q, t. repeat split; auto. now apply Regex.M_alt_l.
  - destruct (IH _ _ EP ES) as (q & t & E & F & M).
    exists q, t. repeat split; auto. now apply Regex.M_alt_r.
  - exists prev, s. repeat split; auto. apply Regex.M_star_stop.
  - destruct (IH1 _ _ EP ES) as (q1 & t1 & E1 & F1 & M1).
    destruct (IH2 _ _ E1 F1) as (q2 & t2 & E2 & F2 & M2).
    exists q2, t2. repeat split; auto. eapply Regex.M_star_more; eassumption.
  - destruct (IH1 _ _ EP ES) as (q1 & t1 & E1 & F1 & M1).
    destruct (IH2 _ _ E1 F1) as (q2 & t2 & E2 & F2 & M2).
    exists q2, t2. repeat split; auto. eapply Regex.M_plus; eassumption.
  - destruct (IH _ _ EP ES) as (q & t & E & F & M).
    exists q, t. repeat split; auto. now apply Regex.M_opt_some.
  - exists prev, s. repeat split; auto. apply Regex.M_opt_none.
  - exists prev, s. repeat split; auto. apply Regex.M_wordb.
    rewrite <- word_boundary_lower. now rewrite <- EP, <- ES.
  - destruct prev; [discriminate|].
    exists None, s. repeat split; auto. apply Regex.M_bol.
  - symmetry in ES. apply lower_nil in ES. subst s.
    exists prev, EmptyString. repeat split; auto. apply Regex.M_eol_end.
  - symmetry in ES. apply lower_cons in ES.
    destruct ES as (x0 & t & -> & -> & Ht).
    symmetry in Ht. apply lower_nil in Ht. subst t.
    exists prev, (String x0 EmptyString). repeat split; auto.
    apply Regex.M_eol_newline. now rewrite <- newline_lower.
Qed.

Lemma search_from_lower (r : Regex.regex) (s : string) :
  Regex.search_from true r None (lower s) = Regex.search_from true r None s.
Proof.
  apply eq_true_iff_eq. rewrite !search_from_spec. split.
  - intros (B & A & P' & S' & Hs & Hm).
    apply lower_split in Hs. destruct Hs as (b & a & -> & -> & ->).
    change None with (lowp None) in Hm. rewrite prev_at_lower in Hm.
    destruct (matches_unlower _ _ _ _ _ Hm _ _ eq_refl eq_refl)
      as (q & t & _ & _ & M).
    now exists b, a, q, t.
  - intros (b & a & q & t & -> & M).
    exists (lower b), (lower a), (lowp q), (lower t).
    split; [apply lower_append|].
    change None with (lowp None). rewrite prev_at_lower.
    now apply matches_lower.
Qed.

(** The one pattern of the table compiled without [re.I]: a question mark
    at the end of the query. *)
Lemma question_mark_search_lower (s : string) (p1 p2 : option ascii) :
  Regex.search_from false (Regex.RSeq (Regex.RChar "?") Regex.REol) p1
    (lower s)
  = Regex.search_from false (Regex.RSeq (Regex.RChar "?") Regex.REol) p2 s.
Proof.
  revert p1 p2. induction s as [|x s IH]; intros p1 p2; [reflexivity|].
  cbn [lower Regex.search_from Regex.run].
  unfold Regex.char_matches. cbn [andb]. rewrite !orb_false_r.
  rewrite question_mark_lower, (IH (Some (lower_char x)) (Some x)).
  destruct (Ascii.eqb "?" x); [|reflexivity].
  destruct s as [|y [|z s]]; cbn [lower]; [reflexivity| |reflexivity].
  now rewrite newline_lower.
Qed.

Lemma pattern_search_lower (p : Intent.pattern) (query : string) :
  Intent.ignorecase p = true \/ Intent.source p = "\?$"%string ->
  Intent.pattern_search p (lower query) = Intent.pattern_search p query.
Proof.
  unfold Intent.pattern_search, Regex.re_search.
  intros [Hic|Hsrc].
  - rewrite Hic. destruct (Regex.compile (Intent.source p)); [|reflexivity].
    apply search_from_lower.
  - rewrite Hsrc. destruct (Intent.ignorecase p).
    + destruct (Regex.compile "\?$"); [|reflexivity]. apply search_from_lower.
    + change (Regex.compile "\?$")
        with (Some (Regex.RSeq (Regex.RChar "?") Regex.REol)).
      apply question_mark_search_lower.
Qed.

Lemma INTENT_PATTERNS_flags :
  forallb
    (fun entry : Intent.TaskType * list Intent.pattern =>
       forallb
         (fun p => Intent.ignorecase p
                   || String.eqb (Intent.source p) "\?$")
         (snd entry))
    Intent.INTENT_PATTERNS = true.
Proof. vm_compute. reflexivity. Qed.

Lemma detect_with_rules_on_ext (table : Intent.pattern_table)
    (q1 q2 : string) :
  NoDup (map fst table) ->
  (forall entry p, In entry table -> In p (snd entry) ->
                   Intent.pattern_search p q1 = Intent.pattern_search p q2) ->
  Intent._detect_with_rules_on table q1 = Intent._detect_with_rules_on table q2.
Proof.
  intros Hkeys Hsame. unfold Intent._detect_with_rules_on.
  rewrite !build_scores_hits by exact Hkeys.
  assert (Hhits : forall entry, In entry table ->
            filter (fun p => Intent.pattern_search p q1) (snd entry)
            = filter (fun p => Intent.pattern_search p q2) (snd entry)).
  { intros entry He. apply filter_ext_in. intros p Hp. now apply (Hsame entry). }
  assert (E : map
                (fun entry : Intent.TaskType * list Intent.pattern =>
                   (fst entry,
                    (fold_left py_max2
                       (map Intent.weight
                          (filter (fun p => Intent.pattern_search p q1)
                             (snd entry))) 0%Q,
                     map Intent.source
                       (filter (fun p => Intent.pattern_search p q1)
                          (snd entry)))))
                (filter
                   (fun entry : Intent.TaskType * list Intent.pattern =>
                      match filter (fun p => Intent.pattern_search p q1)
                              (snd entry) with
                      | [] => false
                      | _ :: _ => true
                      end) table)
              = map
                  (fun entry : Intent.TaskType * list Intent.pattern =>
                     (fst entry,
                      (fold_left py_max2
                         (map Intent.weight
                            (filter (fun p => Intent.pattern_search p q2)
                               (snd entry))) 0%Q,
                       map Intent.source
                         (filter (fun p => Intent.pattern_search p q2)
                            (snd entry)))))
                  (filter
                     (fun entry : Intent.TaskType * list Intent.pattern =>
                        match filter (fun p => Intent.pattern_search p q2)
                                (snd entry) with
                        | [] => false
                        | _ :: _ => true
                        end) table)).
  { clear Hkeys Hsame. induction table as [|entry table IH]; [reflexivity|].
    specialize (IH (fun e He => Hhits e (or_intror He))).
    cbn [filter]. rewrite (Hhits entry (or_introl eq_refl)).
    destruct (filter (fun p => Intent.pattern_search p q2) (snd entry))
      eqn:Ef; [exact IH|].
    cbn [map]. rewrite IH, (Hhits entry (or_introl eq_refl)), Ef.
    reflexivity. }
  now rewrite E.
Qed.


End CaseFacts.

(** ** The embedding service *)

Section EmbedderFacts.

Import Documents Embedder.

Variable _cache_key : string -> string.
Variable provider_embed_texts : list string -> result (list embedding).

(** The embedding of one text by a provider that embeds each text on its
    own. *)
Variable embed_one : string -> embedding.

Local Abbreviation pointwise :=
  (forall batch, provider_embed_texts batch = Ok (map embed_one batch)).

Local Abbreviation cached self text := (Dict.get self (_cache_key text)).

Local Abbreviation uncached self :=
  (fun text : string =>
     match Dict.get self (_cache_key text) with
     | Some _ => false
     | None => true
     end).

Lemma list_set_middle {A : Type} (before after : list A) (x v : A) (i : nat) :
  List.length before = i ->
  list_set (before ++ x :: after) i v = before ++ v :: after.
Proof.
  revert i. induction before as [|b before IH]; intros i H; cbn in *.
  - now subst i.
  - destruct i as [|i]; [discriminate|]. cbn. f_equal. apply IH. lia.
Qed.

Lemma check_cache_fold (self : cache) (ts : list string)
    (before : list (option embedding)) (pending : list (nat * string)) :
  fold_left
    (fun (acc : list (option embedding) * list (nat * string))
         (item : nat * string) =>
       let (results, texts_to_embed) := acc in
       let (i, text) := item in
       match Dict.get self (_cache_key text) with
       | Some e => (list_set results i (Some e), texts_to_embed)
       | None => (results, texts_to_embed ++ [(i, text)])
       end)
    (combine (seq (List.length before) (List.length ts)) ts)
    (before ++ repeat None (List.length ts), pending)
  = (before ++ map (fun t => cached self t) ts,
     pending
     ++ filter (fun item => uncached self (snd item))
          (combine (seq (List.length before) (List.length ts)) ts)).
Proof.
  revert before pending. induction ts as [|t ts IH]; intros before pending.
  - cbn. now rewrite !app_nil_r.
  - cbn [List.length seq combine fold_left repeat map filter snd].
    destruct (Dict.get self (_cache_key t)) as [e|] eqn:E.
    + rewrite list_set_middle by reflexivity.
      replace (before ++ Some e :: repeat None (List.length ts))
        with ((before ++ [Some e]) ++ repeat None (List.length ts))
        by now rewrite <- app_assoc.
      replace (S (List.length before)) with (List.length (before ++ [Some e]))
        by (rewrite length_app; cbn; lia).
      rewrite IH, <- app_assoc. reflexivity.
    + replace (before ++ None :: repeat None (List.length ts))
        with ((before ++ [None]) ++ repeat None (List.length ts))
        by now rewrite <- app_assoc.
      replace (S (List.length before))
        with (List.length (before ++ [@None embedding]))
        by (rewrite length_app; cbn; lia).
      rewrite IH, <- !app_assoc. reflexivity.
Qed.

Lemma check_cache_results (self : cache) (texts : list string) :
  check_cache _cache_key self texts
  = (map (fun t => cached self t) texts,
     filter (fun item => uncached self (snd item)) (enumerate texts)).
Proof.
  unfold check_cache, enumerate.
  apply (check_cache_fold self texts [] []).
Qed.

(** One round of the inner loop when the provider embeds each text on its
    own. *)
Local Abbreviation store_one use_cache :=
  (fun (acc : list (option embedding) * cache) (item : nat * string) =>
     (list_set (fst acc) (fst item) (Some (embed_one (snd item))),
      if use_cache
      then Dict.set (snd acc) (_cache_key (snd item)) (embed_one (snd item))
      else snd acc)).

Lemma store_batch_pointwise (use_cache : bool) (batch : list (nat * string))
    (acc : list (option embedding) * cache) :
  store_batch _cache_key use_cache acc
    (zip3 (map fst batch) (map snd batch) (map embed_one (map snd batch)))
  = fold_left (store_one use_cache) batch acc.
Proof.
  unfold store_batch. revert acc.
  induction batch as [|[i t] batch IH]; intros [results self]; [reflexivity|].
  cbn [map zip3 fold_left fst snd]. now rewrite IH.
Qed.

Lemma run_batches_pointwise (use_cache : bool) (pending : list (nat * string))
    (starts : list nat) (results : list (option embedding)) (self : cache)
    (calls : list (list string)) :
  pointwise ->
  let batches := map (fun s => slice pending s MAX_BATCH_SIZE) starts in
  let final := fold_left (store_one use_cache) (List.concat batches)
                 (results, self) in
  run_batches _cache_key provider_embed_texts use_cache pending starts
    results self calls
  = mkOutcome (Ok (fst final)) (snd final)
      (calls ++ map (fun b => map snd b) batches).
Proof.
  intros Hp. cbv zeta. revert results self calls.
  induction starts as [|s starts IH]; intros results self calls.
  - cbn. now rewrite app_nil_r.
  - cbn [run_batches map List.concat]. rewrite Hp, store_batch_pointwise.
    rewrite fold_left_app.
    destruct (fold_left (store_one use_cache) (slice pending s MAX_BATCH_SIZE)
                (results, self)) as [results' self'] eqn:E.
    rewrite IH, <- app_assoc. reflexivity.
Qed.

Lemma slices_cover {A : Type} (m : nat) (l : list A) :
  List.length l <= m * MAX_BATCH_SIZE ->
  List.concat (map (fun s => slice l s MAX_BATCH_SIZE)
            (map (fun k => k * MAX_BATCH_SIZE) (seq 0 m))) = l.
Proof.
  revert l. induction m as [|m IH]; intros l H.
  - destruct l; [reflexivity|cbn in H; lia].
  - cbn [seq map List.concat]. rewrite <- seq_shift, !map_map.
    transitivity (firstn MAX_BATCH_SIZE l ++ skipn MAX_BATCH_SIZE l);
      [|apply firstn_skipn].
    f_equal.
    etransitivity; [|apply (IH (skipn MAX_BATCH_SIZE l))].
    + rewrite map_map. f_equal. apply map_ext. intros k. unfold slice.
      rewrite skipn_skipn. do 2 f_equal. lia.
    + rewrite length_skipn. lia.
Qed.

Lemma range_step_reaches (n : nat) :
  n <= (n + MAX_BATCH_SIZE - 1) / MAX_BATCH_SIZE * MAX_BATCH_SIZE.
Proof.
  unfold MAX_BATCH_SIZE.
  pose proof (Nat.div_mod_eq (n + 100 - 1) 100) as E.
  pose proof (Nat.mod_upper_bound (n + 100 - 1) 100) as B. lia.
Qed.

Lemma batches_cover {A : Type} (l : list A) :
  List.concat (map (fun s => slice l s MAX_BATCH_SIZE)
            (range_step (List.length l) MAX_BATCH_SIZE)) = l.
Proof. unfold range_step. apply slices_cover, range_step_reaches. Qed.

Lemma batches_sized {A : Type} (l : list A) :
  Forall (fun b : list A => 0 < List.length b <= MAX_BATCH_SIZE)
    (map (fun s => slice l s MAX_BATCH_SIZE)
       (range_step (List.length l) MAX_BATCH_SIZE)).
Proof.
  apply Forall_forall. intros b Hb. apply in_map_iff in Hb.
  destruct Hb as (s & <- & Hs). unfold range_step in Hs.
  apply in_map_iff in Hs. destruct Hs as (k & <- & Hk).
  apply in_seq in Hk. unfold slice.
  rewrite length_firstn, length_skipn. unfold MAX_BATCH_SIZE in *.
  pose proof (Nat.div_mod_eq (List.length l + 100 - 1) 100) as E.
  pose proof (Nat.mod_upper_bound (List.length l + 100 - 1) 100) as B. lia.
Qed.

(** Storing the embeddings of the selected texts fills exactly their
    places. *)
Lemma store_selected (use_cache : bool) (select : string -> bool)
    (old : string -> option embedding) (ts : list string)
    (before : list (option embedding)) (self : cache) :
  fst (fold_left (store_one use_cache)
         (filter (fun item => select (snd item))
            (combine (seq (List.length before) (List.length ts)) ts))
         (before ++ map old ts, self))
  = before
    ++ map (fun t => if select t then Some (embed_one t) else old t) ts.
Proof.
  revert before self. induction ts as [|t ts IH]; intros before self.
  - reflexivity.
  - cbn [List.length seq combine filter snd map].
    destruct (select t) eqn:E; cbn [fold_left fst snd].
    + rewrite list_set_middle by reflexivity.
      replace (before ++ Some (embed_one t) :: map old ts)
        with ((before ++ [Some (embed_one t)]) ++ map old ts)
        by now rewrite <- app_assoc.
      replace (S (List.length before))
        with (List.length (before ++ [Some (embed_one t)]))
        by (rewrite length_app; cbn; lia).
      rewrite IH, <- app_assoc. reflexivity.
    + replace (before ++ old t :: map old ts)
        with ((before ++ [old t]) ++ map old ts)
        by now rewrite <- app_assoc.
      replace (S (List.length before))
        with (List.length (before ++ [old t]))
        by (rewrite length_app; cbn; lia).
      rewrite IH, <- app_assoc. reflexivity.
Qed.

Lemma filter_enumerate_texts {A : Type} (select : A -> bool) (start : nat)
    (ts : list A) :
  map snd (filter (fun item => select (snd item))
             (combine (seq start (List.length ts)) ts))
  = filter select ts.
Proof.
  revert start. induction ts as [|t ts IH]; intros start; [reflexivity|].
  cbn [List.length seq combine filter snd].
  destruct (select t); cbn [map snd]; now rewrite IH.
Qed.

Lemma repeat_none_map {A B : Type} (ts : list A) :
  repeat (@None B) (List.length ts) = map (fun _ => None) ts.
Proof. induction ts as [|t ts IH]; [reflexivity|]. cbn. now rewrite IH. Qed.

Lemma filter_all {A : Type} (l : list A) : filter (fun _ => true) l = l.
Proof. induction l as [|a l IH]; [reflexivity|]. cbn. now rewrite IH. Qed.

(** The embedding the service answers with for a text. *)
Local Abbreviation answer self use_cache :=
  (fun t : string =>
     if use_cache
     then match Dict.get self (_cache_key t) with
          | Some e => e
          | None => embed_one t
          end
     else embed_one t).

Lemma embed_texts_pointwise (self : cache) (texts : list string)
    (use_cache : bool) :
  pointwise ->
  let pending :=
    filter (fun item : nat * string =>
              if use_cache then uncached self (snd item) else true)
      (enumerate texts) in
  embed_texts _cache_key provider_embed_texts self texts use_cache
  = mkOutcome (Ok (map (answer self use_cache) texts))
      (snd (fold_left (store_one use_cache) pending
              (map (fun t => if use_cache then cached self t else None) texts,
               self)))
      (map (fun b => map snd b)
         (map (fun s => slice pending s MAX_BATCH_SIZE)
            (range_step (List.length pending) MAX_BATCH_SIZE))).
Proof.
  intros Hp. cbv zeta. unfold embed_texts.
  destruct texts as [|t0 ts]; [reflexivity|]. cbv iota.
  generalize (t0 :: ts). clear t0 ts. intros texts.
  set (pending :=
         filter (fun item : nat * string =>
                   if use_cache then uncached self (snd item) else true)
           (enumerate texts)).
  assert (E : (if use_cache then check_cache _cache_key self texts
               else (repeat None (List.length texts), enumerate texts))
              = (map (fun t => if use_cache then cached self t else None)
                   texts, pending)).
  { unfold pending. destruct use_cache.
    - apply check_cache_results.
    - now rewrite repeat_none_map, filter_all. }
  rewrite E. clear E.
  rewrite (run_batches_pointwise use_cache pending _ _ self [] Hp).
  cbn [returned cache_after provider_calls bind app].
  rewrite batches_cover. f_equal. f_equal.
  unfold pending, enumerate.
  rewrite (store_selected use_cache
             (fun t => if use_cache then uncached self t else true)
             (fun t => if use_cache then cached self t else None) texts []).
  cbn [app]. unfold not_none. clear.
  induction texts as [|t ts IH]; [reflexivity|].
  cbn [map flat_map]. rewrite IH.
  destruct use_cache; [destruct (Dict.get self (_cache_key t))|]; reflexivity.
Qed.

(** X26. With a provider that embeds each text on its own, [embed_texts]
    returns one embedding for every text, in the order of the texts: the
    cached embedding where the cache is used and holds one under the key
    of the text, the provider's embedding of the text otherwise.  The
    provider receives exactly the texts that are not served from the
    cache, in order and repeated texts included, in batches that are
    never empty and never longer than [MAX_BATCH_SIZE]. *)
Theorem embed_texts_keeps_positions (self : cache) (texts : list string)
    (use_cache : bool) :
  pointwise ->
  let o := embed_texts _cache_key provider_embed_texts self texts use_cache in
  returned o = Ok (map (answer self use_cache) texts)
  /\ List.concat (provider_calls o)
     = filter (fun t => if use_cache then uncached self t else true) texts
  /\ Forall (fun b : list string => 0 < List.length b <= MAX_BATCH_SIZE)
       (provider_calls o).
Proof.
  intros Hp. cbv zeta.
  rewrite (embed_texts_pointwise self texts use_cache Hp).
  cbn [returned provider_calls]. split; [reflexivity|]. split.
  - rewrite <- concat_map, batches_cover. unfold enumerate.
    apply (filter_enumerate_texts
             (fun t => if use_cache then uncached self t else true)).
  - apply Forall_forall. intros b Hb. apply in_map_iff in Hb.
    destruct Hb as (b' & <- & Hb'). rewrite length_map.
    pose proof (batches_sized
                  (filter (fun item : nat * string =>
                             if use_cache then uncached self (snd item)
                             else true) (enumerate texts))) as Hs.
    rewrite Forall_forall in Hs. now apply Hs.
Qed.

Lemma stored_cache (items : list (nat * string))
    (results : list (option embedding)) (self : cache) :
  snd (fold_left (store_one true) items (results, self))
  = fold_left
      (fun c item => Dict.set c (_cache_key (snd item)) (embed_one (snd item)))
      items self.
Proof.
  revert results self. induction items as [|item items IH];
    intros results self; [reflexivity|].
  cbn [fold_left fst snd]. apply IH.
Qed.

Lemma stored_cache_extends (old : cache) (items : list (nat * string))
    (self : cache) :
  Forall (fun item => Dict.get old (_cache_key (snd item)) = None) items ->
  (forall k e, Dict.get old k = Some e -> Dict.get self k = Some e) ->
  forall k e,
    Dict.get old k = Some e ->
    Dict.get
      (fold_left
         (fun c item =>
            Dict.set c (_cache_key (snd item)) (embed_one (snd item)))
         items self) k = Some e.
Proof.
  intros Hnew. revert self. induction Hnew as [|item items Hi Hnew IH];
    intros self Hself k e Hk; cbn [fold_left]; [now apply Hself|].
  apply IH; [|exact Hk]. intros k' e' Hk'.
  rewrite dict_get_set_other; [now apply Hself|].
  intros E. subst k'. congruence.
Qed.

Lemma stored_cache_holds (items : list (nat * string)) (t : string) :
  (forall item, In item items ->
                _cache_key (snd item) = _cache_key t -> snd item = t) ->
  forall self,
    In t (map snd items) \/ Dict.get self (_cache_key t) = Some (embed_one t) ->
    Dict.get
      (fold_left
         (fun c item =>
            Dict.set c (_cache_key (snd item)) (embed_one (snd item)))
         items self) (_cache_key t) = Some (embed_one t).
Proof.
  induction items as [|item items IH]; intros Hinj self H; cbn [fold_left].
  - destruct H as [[]|H]; exact H.
  - apply IH; [intros it Hit; apply Hinj; now right|].
    destruct (String.eqb_spec (_cache_key (snd item)) (_cache_key t))
      as [E|N].
    + right. rewrite (Hinj item (or_introl eq_refl) E) in *.
      apply dict_get_set_same.
    + destruct H as [[E|H]|H].
      * now rewrite E in N.
      * now left.
      * right. now rewrite dict_get_set_other.
Qed.

(** X27. After [embed_texts] has embedded a list of texts with the cache
    in use and a provider that embeds each text on its own, no embedding
    cached before has changed, and, when no two different texts of the
    list share a cache key, [embed_text] answers for each text of the
    list with the embedding the list call returned for it, without a call
    to the provider, whatever the provider does by then. *)
Theorem embedded_texts_are_served_from_cache (self : cache)
    (texts : list string) :
  pointwise ->
  (forall a b, In a texts -> In b texts ->
               _cache_key a = _cache_key b -> a = b) ->
  let o := embed_texts _cache_key provider_embed_texts self texts true in
  (forall k e, Dict.get self k = Some e ->
               Dict.get (cache_after o) k = Some e)
  /\ (forall (later : list string -> result (list embedding)) (t : string),
        In t texts ->
        embed_text _cache_key later (cache_after o) t true
        = mkOutcome (Ok (answer self true t)) (cache_after o) []).
Proof.
  intros Hp Hinj. cbv zeta.
  rewrite (embed_texts_pointwise self texts true Hp).
  cbn [cache_after]. rewrite stored_cache.
  set (pending := filter (fun item : nat * string => uncached self (snd item))
                    (enumerate texts)).
  assert (Hnew : Forall (fun item => Dict.get self (_cache_key (snd item))
                                     = None) pending).
  { apply Forall_forall. intros item Hitem. apply filter_In in Hitem.
    destruct Hitem as [_ Hu].
    now destruct (Dict.get self (_cache_key (snd item))). }
  assert (Hold : forall k e, Dict.get self k = Some e ->
                   Dict.get
                     (fold_left
                        (fun c item =>
                           Dict.set c (_cache_key (snd item))
                             (embed_one (snd item))) pending self) k
                   = Some e)
    by (apply stored_cache_extends; auto).
  split; [exact Hold|].
  intros later t Ht. unfold embed_text.
  assert (Hsnd : map snd pending = filter (uncached self) texts)
    by apply (filter_enumerate_texts (uncached self)).
  assert (E : Dict.get
                (fold_left
                   (fun c item =>
                      Dict.set c (_cache_key (snd item))
                        (embed_one (snd item))) pending self) (_cache_key t)
              = Some (answer self true t)).
  { cbn beta iota. destruct (Dict.get self (_cache_key t)) as [e|] eqn:Ec.
    - now apply Hold.
    - apply stored_cache_holds.
      + intros item Hitem Hkey. apply Hinj; [|exact Ht|exact Hkey].
        assert (Hin : In (snd item) (map snd pending)) by now apply in_map.
        rewrite Hsnd in Hin. now apply filter_In in Hin.
      + left. rewrite Hsnd. apply filter_In. split; [exact Ht|].
        now rewrite Ec. }
  rewrite E. reflexivity.
Qed.

Lemma embed_texts_body (self : cache) (texts : list string) :
  embed_texts _cache_key provider_embed_texts self texts true
  = let (results, texts_to_embed) := check_cache _cache_key self texts in
    let o :=
      run_batches _cache_key provider_embed_texts true texts_to_embed
        (range_step (List.length texts_to_embed) MAX_BATCH_SIZE)
        results self [] in
    mkOutcome (results <- returned o ;; Ok (not_none results))%result
      (cache_after o) (provider_calls o).
Proof. destruct texts; reflexivity. Qed.

Lemma run_batches_until_failure (pending : list (nat * string))
    (k : nat) (e : exn) :
  forall (starts : list nat) (results : list (option embedding))
         (self : cache) (calls : list (list string)),
    let batches := map (fun s => slice pending s MAX_BATCH_SIZE) starts in
    (forall j, j < k ->
       provider_embed_texts (map snd (nth j batches []))
       = Ok (map embed_one (map snd (nth j batches [])))) ->
    provider_embed_texts (map snd (nth k batches [])) = Raise e ->
    k < List.length starts ->
    run_batches _cache_key provider_embed_texts true pending starts results
      self calls
    = mkOutcome (Raise e)
        (snd (fold_left (store_one true) (List.concat (firstn k batches))
                (results, self)))
        (calls ++ map (fun b => map snd b) (firstn (S k) batches)).
Proof.
  induction k as [|k IH]; intros starts results self calls; cbv zeta;
    intros Hok Hfail Hk;
    destruct starts as [|s starts]; try (cbn [List.length] in Hk; lia).
  - cbn [run_batches]. cbn [map nth] in Hfail. rewrite Hfail. reflexivity.
  - cbn [run_batches].
    pose proof (Hok 0 (Nat.lt_0_succ k)) as H0. cbn [map nth] in H0.
    rewrite H0, store_batch_pointwise.
    destruct (fold_left (store_one true) (slice pending s MAX_BATCH_SIZE)
                (results, self)) as [results' self'] eqn:E.
    rewrite (IH starts results' self').
    + cbn [map firstn List.concat].
      rewrite fold_left_app, E, <- app_assoc. reflexivity.
    + intros j Hj. apply (Hok (S j)). lia.
    + exact Hfail.
    + cbn [List.length] in Hk. lia.
Qed.

Lemma stored_cache_present (items : list (nat * string)) (t : string) :
  forall self,
    In t (map snd items) \/ Dict.get self (_cache_key t) <> None ->
    Dict.get
      (fold_left
         (fun c item =>
            Dict.set c (_cache_key (snd item)) (embed_one (snd item)))
         items self) (_cache_key t) <> None.
Proof.
  induction items as [|item items IH]; intros self H; cbn [fold_left].
  - destruct H as [[]|H]; exact H.
  - apply IH.
    destruct (String.eqb_spec (_cache_key (snd item)) (_cache_key t))
      as [E|N].
    + right. rewrite <- E, dict_get_set_same. discriminate.
    + destruct H as [[E|H]|H].
      * now rewrite E in N.
      * now left.
      * right. now rewrite dict_get_set_other.
Qed.

Lemma In_skipn_inv {A : Type} (x : A) (n : nat) (l : list A) :
  In x (skipn n l) -> In x l.
Proof.
  revert l. induction n as [|n IH]; intros [|y l]; cbn; try tauto.
  intros H. right. now apply IH.
Qed.

Lemma slice_map {A B : Type} (f : A -> B) (l : list A) (a n : nat) :
  map f (slice l a n) = slice (map f l) a n.
Proof. unfold slice. now rewrite skipn_map, firstn_map. Qed.

(** X29. When the provider fails on a batch, [embed_texts] raises the
    provider's error and returns no partial list; the provider has been
    given the batches up to the failing one and no later one; the
    embeddings of the batches before the failing one are in the cache
    afterwards, and no embedding cached before has changed, so a second
    attempt does not ask for those texts again. *)
Theorem embed_texts_keeps_progress_on_failure (self : cache)
    (texts : list string) (k : nat) (e : exn) :
  let pending := filter (uncached self) texts in
  let batches :=
    map (fun s => slice pending s MAX_BATCH_SIZE)
      (range_step (List.length pending) MAX_BATCH_SIZE) in
  (forall j, j < k ->
     provider_embed_texts (nth j batches [])
     = Ok (map embed_one (nth j batches []))) ->
  provider_embed_texts (nth k batches []) = Raise e ->
  k < List.length batches ->
  let o := embed_texts _cache_key provider_embed_texts self texts true in
  returned o = Raise e
  /\ provider_calls o = firstn (S k) batches
  /\ (forall t, In t (List.concat (firstn k batches)) ->
                Dict.get (cache_after o) (_cache_key t) <> None)
  /\ (forall key v, Dict.get self key = Some v ->
                    Dict.get (cache_after o) key = Some v).
Proof.
  intros pending batches Hok Hfail Hk o.
  set (items := filter (fun item : nat * string => uncached self (snd item))
                  (enumerate texts)).
  assert (Hitems : map snd items = pending)
    by apply (filter_enumerate_texts (uncached self)).
  set (starts := range_step (List.length items) MAX_BATCH_SIZE).
  set (item_batches := map (fun s => slice items s MAX_BATCH_SIZE) starts).
  assert (Hbatches : map (fun b => map snd b) item_batches = batches).
  { unfold item_batches, batches, starts. rewrite map_map.
    rewrite <- Hitems, length_map. apply map_ext. intros s.
    apply slice_map. }
  assert (Hnth : forall j, map snd (nth j item_batches []) = nth j batches []).
  { intros j. rewrite <- Hbatches.
    now rewrite <- (map_nth (fun b : list (nat * string) => map snd b)). }
  assert (Hlen : List.length starts = List.length batches).
  { rewrite <- Hbatches. unfold item_batches. now rewrite !length_map. }
  assert (Ho : o = mkOutcome (Raise e)
                     (snd (fold_left (store_one true)
                             (List.concat (firstn k item_batches))
                             (map (fun t => cached self t) texts, self)))
                     (map (fun b => map snd b) (firstn (S k) item_batches))).
  { unfold o. rewrite embed_texts_body, check_cache_results.
    fold items. fold starts.
    rewrite (run_batches_until_failure items k e starts).
    - reflexivity.
    - intros j Hj. fold item_batches. rewrite Hnth. now apply Hok.
    - fold item_batches. now rewrite Hnth.
    - now rewrite Hlen. }
  rewrite Ho. cbn [returned provider_calls cache_after].
  split; [reflexivity|]. split.
  { rewrite <- firstn_map. now rewrite Hbatches. }
  rewrite stored_cache.
  assert (Hsub : forall item, In item (List.concat (firstn k item_batches)) ->
                              In item items).
  { intros item Hin. apply in_concat in Hin.
    destruct Hin as (b & Hb & Hin). apply In_firstn_inv in Hb.
    unfold item_batches in Hb. apply in_map_iff in Hb.
    destruct Hb as (s & <- & _). unfold slice in Hin.
    apply In_firstn_inv in Hin.
    now apply In_skipn_inv in Hin. }
  split.
  - intros t Ht. apply stored_cache_present. left.
    rewrite <- Hbatches, firstn_map, <- concat_map in Ht. exact Ht.
  - apply stored_cache_extends; [|auto].
    apply Forall_forall. intros item Hin. apply Hsub in Hin.
    apply filter_In in Hin. destruct Hin as [_ Hu].
    now destruct (Dict.get self (_cache_key (snd item))).
Qed.

End EmbedderFacts.

Lemma embed_texts_keeps_positions_witness :
  let embed_one :=
    fun t : string => [inject_Z (Z.of_nat (String.length t))] in
  let o :=
    Embedder.embed_texts (fun t => t) (fun batch => Ok (map embed_one batch))
      [("alpha"%string, [7%Q])] ["alpha"; "beta"; "beta"]%string true in
  Embedder.returned o = Ok [[7%Q]; [4%Q]; [4%Q]]
  /\ List.concat (Embedder.provider_calls o) = ["beta"; "beta"]%string
  /\ Forall
       (fun b : list string =>
          0 < List.length b <= Embedder.MAX_BATCH_SIZE)
       (Embedder.provider_calls o).
Proof.
  intros embed_one o.
  exact (embed_texts_keeps_positions (fun t => t)
           (fun batch => Ok (map embed_one batch)) embed_one
           [("alpha"%string, [7%Q])] ["alpha"; "beta"; "beta"]%string true
           (fun batch => eq_refl)).
Defined.

Lemma embedded_texts_are_served_from_cache_witness :
  let embed_one :=
    fun t : string => [inject_Z (Z.of_nat (String.length t))] in
  let o :=
    Embedder.embed_texts (fun t => t) (fun batch => Ok (map embed_one batch))
      [("alpha"%string, [7%Q])] ["alpha"; "beta"; "beta"]%string true in
  Embedder.embed_text (fun t => t)
    (fun _ => Raise (RuntimeError "embedding provider unavailable"))
    (Embedder.cache_after o) "beta" true
  = Embedder.mkOutcome (Ok [4%Q]) (Embedder.cache_after o) [].
Proof.
  intros embed_one o.
  refine (proj2
            (embedded_texts_are_served_from_cache (fun t => t)
               (fun batch => Ok (map embed_one batch)) embed_one
               [("alpha"%string, [7%Q])] ["alpha"; "beta"; "beta"]%string
               (fun batch => eq_refl) (fun a b _ _ E => E))
            (fun _ => Raise (RuntimeError "embedding provider unavailable"))
            "beta"%string _).
  right. now left.
Defined.

Lemma embed_texts_keeps_progress_on_failure_witness :
  let texts :=
    map (fun n => ("text " ++ Context.str_of_nat n)%string) (seq 0 150) in
  let embed_one :=
    fun t : string => [inject_Z (Z.of_nat (String.length t))] in
  let provider :=
    fun batch : list string =>
      if List.length batch <? Embedder.MAX_BATCH_SIZE
      then Raise (RuntimeError "embedding provider unavailable")
      else Ok (map embed_one batch) in
  let o := Embedder.embed_texts (fun t => t) provider [] texts true in
  Embedder.returned o = Raise (RuntimeError "embedding provider unavailable")
  /\ List.length (Embedder.provider_calls o) = 2
  /\ Dict.get (Embedder.cache_after o) "text 0" <> None.
Proof.
  intros texts embed_one provider o.
  destruct (embed_texts_keeps_progress_on_failure (fun t => t) provider
              embed_one [] texts 1
              (RuntimeError "embedding provider unavailable"))
    as (H1 & H2 & H3 & _).
  - intros j Hj. assert (E : j = 0) by lia. subst j.
    vm_compute. reflexivity.
  - vm_compute. reflexivity.
  - vm_compute. lia.
  - split; [exact H1|]. split.
    + fold o in H2. rewrite H2. vm_compute. reflexivity.
    + apply (H3 "text 0"%string). vm_compute. left. reflexivity.
Defined.
